(** * Binary-plan analysis of tidb-dashboard (package [utils])

    A shallow embedding of the visual-plan post-processing passes
    ([formatNode], [analyzeDuration], [diagnosticOperator]) and of the
    predicate matcher [useComparisonOperator], with the properties the
    specification states about them.

    Go strings are byte sequences; they are modelled by [string] (one
    [ascii] per byte).  Go's [int] is taken to be 64 bits wide. *)

From Stdlib Require Import String Ascii List ZArith Lia Bool Arith.
From Stdlib Require Import Floats.SpecFloat.
From Stdlib Require DecimalString.
Import ListNotations.

Open Scope string_scope.

(** The double-quote byte, as a one-byte string. *)
Definition dq : string := String "034"%char "".

(* ================================================================== *)
(** * Package [strings] of the Go standard library

    Only the functions the program calls, at byte level.  Every call site
    of [Count], [Split] and [ReplaceAll] passes a non-empty separator. *)
Module strings.

Fixpoint HasPrefix (s prefix : string) : bool :=
  match prefix with
  | "" => true
  | String p prefix' =>
      match s with
      | "" => false
      | String c s' => Ascii.eqb c p && HasPrefix s' prefix'
      end
  end.

Fixpoint rev (s : string) : string :=
  match s with
  | "" => ""
  | String c s' => rev s' ++ String c ""
  end.

Definition HasSuffix (s suffix : string) : bool :=
  HasPrefix (rev s) (rev suffix).

(** [Index s sep]: byte offset of the first occurrence, [None] for -1. *)
Fixpoint Index (s sep : string) : option nat :=
  if HasPrefix s sep then Some 0
  else match s with
       | "" => None
       | String _ s' => option_map S (Index s' sep)
       end.

Definition Contains (s substr : string) : bool :=
  match Index s substr with Some _ => true | None => false end.

Fixpoint take (n : nat) (s : string) : string :=
  match n, s with
  | S k, String c s' => String c (take k s')
  | _, _ => ""
  end.

Fixpoint drop (n : nat) (s : string) : string :=
  match n, s with
  | S k, String _ s' => drop k s'
  | _, _ => s
  end.

(** Non-overlapping occurrences of a non-empty [sep]; [skip] counts the
    bytes of the current match still to be stepped over. *)
Fixpoint CountFrom (skip : nat) (s sep : string) : nat :=
  match s with
  | "" => 0
  | String _ s' =>
      match skip with
      | S k => CountFrom k s' sep
      | O => if HasPrefix s sep
             then S (CountFrom (String.length sep - 1) s' sep)
             else CountFrom 0 s' sep
      end
  end.

(** For an empty [substr] Go returns the number of runes plus one; no
    call site of the program passes one, and the byte count stands in. *)
Definition Count (s substr : string) : nat :=
  match substr with
  | "" => S (String.length s)
  | _ => CountFrom 0 s substr
  end.

Fixpoint SplitFrom (skip : nat) (cur s sep : string) : list string :=
  match s with
  | "" => [cur]
  | String c s' =>
      match skip with
      | S k => SplitFrom k cur s' sep
      | O => if HasPrefix s sep
             then cur :: SplitFrom (String.length sep - 1) "" s' sep
             else SplitFrom 0 (cur ++ String c "") s' sep
      end
  end.

Definition Split (s sep : string) : list string := SplitFrom 0 "" s sep.

Fixpoint ReplaceFrom (skip : nat) (s old new : string) : string :=
  match s with
  | "" => ""
  | String c s' =>
      match skip with
      | S k => ReplaceFrom k s' old new
      | O => if HasPrefix s old
             then new ++ ReplaceFrom (String.length old - 1) s' old new
             else String c (ReplaceFrom 0 s' old new)
      end
  end.

Definition ReplaceAll (s old new : string) : string :=
  ReplaceFrom 0 s old new.

Fixpoint inCutset (c : ascii) (cutset : string) : bool :=
  match cutset with
  | "" => false
  | String d cutset' => Ascii.eqb c d || inCutset c cutset'
  end.

(** [TrimLeft] and [TrimRight] with an ASCII cut set work on bytes. *)
Fixpoint TrimLeft (s cutset : string) : string :=
  match s with
  | "" => ""
  | String c s' => if inCutset c cutset then TrimLeft s' cutset else s
  end.

Fixpoint TrimRight (s cutset : string) : string :=
  match s with
  | "" => ""
  | String c s' =>
      match TrimRight s' cutset with
      | "" => if inCutset c cutset then "" else String c ""
      | r => String c r
      end
  end.

(** Length in bytes of the UTF-8 encoding of a white-space rune
    ([unicode.IsSpace]) at the front of [s], 0 when there is none:
    U+0009..U+000D, U+0020, U+0085, U+00A0, U+1680, U+2000..U+200A,
    U+2028, U+2029, U+202F, U+205F, U+3000. *)
Definition spaceLen (s : string) : nat :=
  match s with
  | "" => 0
  | String c s1 =>
      let b := nat_of_ascii c in
      if ((Nat.leb 9 b) && (Nat.leb b 13)) || (Nat.eqb b 32) then 1
      else match s1 with
           | "" => 0
           | String c1 s2 =>
               let b1 := nat_of_ascii c1 in
               if (Nat.eqb b 194) && ((Nat.eqb b1 133) || (Nat.eqb b1 160)) then 2
               else match s2 with
                    | "" => 0
                    | String c2 _ =>
                        let b2 := nat_of_ascii c2 in
                        if (Nat.eqb b 225) && (Nat.eqb b1 154) && (Nat.eqb b2 128) then 3
                        else if (Nat.eqb b 226) && (Nat.eqb b1 128) &&
                                (((Nat.leb 128 b2) && (Nat.leb b2 138)) ||
                                 (Nat.eqb b2 168) || (Nat.eqb b2 169) || (Nat.eqb b2 175))
                             then 3
                        else if (Nat.eqb b 226) && (Nat.eqb b1 129) && (Nat.eqb b2 159) then 3
                        else if (Nat.eqb b 227) && (Nat.eqb b1 128) && (Nat.eqb b2 128) then 3
                        else 0
                    end
           end
  end.

(** The same for a white-space rune at the end of [s], given [s]
    reversed. *)
Definition spaceLenRev (r : string) : nat :=
  match r with
  | "" => 0
  | String c _ =>
      let b := nat_of_ascii c in
      if ((Nat.leb 9 b) && (Nat.leb b 13)) || (Nat.eqb b 32) then 1
      else
        let two := rev (take 2 r) in
        let three := rev (take 3 r) in
        if Nat.eqb (String.length two) 2 && Nat.eqb (spaceLen two) 2 then 2
        else if Nat.eqb (String.length three) 3 && Nat.eqb (spaceLen three) 3 then 3
        else 0
  end.

Fixpoint trimFront (len : string -> nat) (skip : nat) (s : string) : string :=
  match s with
  | "" => ""
  | String _ s' =>
      match skip with
      | S k => trimFront len k s'
      | O => match len s with
             | O => s
             | S k => trimFront len k s'
             end
      end
  end.

Definition TrimSpace (s : string) : string :=
  rev (trimFront spaceLenRev 0 (rev (trimFront spaceLen 0 s))).

End strings.


(* ================================================================== *)
(** * The predicate matcher *)

Definition needCheckOperator : list string :=
  ["eq"; "ge"; "gt"; "le"; "lt"; "isnull"; "in"].

(** [cut] (the program's copy of Go 1.18 [strings.Cut]). *)
Definition cut (s sep : string) : string * string * bool :=
  match strings.Index s sep with
  | Some i => (strings.take i s, strings.drop (i + String.length sep) s, true)
  | None => (s, "", false)
  end.

(** [columnSet] is a [map[string]bool] used as a set: a duplicate-free
    list, [len] being its length. *)
Definition columnSet := list string.

Definition addColumn (column : string) (cols : columnSet) : columnSet :=
  if in_dec string_dec column cols then cols else (cols ++ [column])%list.

(** Two dots and no double quote: the test the source applies to an
    argument to decide that it is a qualified column. *)
Definition looksLikeColumn (c : string) : bool :=
  Nat.eqb (strings.Count c ".") 2 && negb (strings.Contains c dq).

(** The state of the scan: the residual [operatorInfo] and [columnSet]. *)
Definition scanState : Type := string * columnSet.

(** One iteration of the inner loop (source lines 362-415) for operator
    [op]; [None] is the early [return false]. *)
Definition extractSpan (op : string) (st : scanState) : option scanState :=
  let '(operatorInfo, cols) := st in
  let '(s1, s, _) := cut operatorInfo (op ++ "(") in
  let '(s, s2, _) := cut s ")" in
  if strings.Contains s "(" then None
  else
    let finish (s1 s2 column : string) : option scanState :=
      Some (s1 ++ s2, if String.eqb column "" then cols else addColumn column cols) in
    if String.eqb op "isnull" then
      let '(s1, s2) :=
        if strings.HasSuffix s1 "not(" && strings.HasPrefix s2 ")"
        then (strings.TrimRight s1 "not(", strings.TrimLeft s2 ")")
        else (s1, s2) in
      finish s1 s2 (strings.TrimSpace s)
    else if String.eqb op "in" then
      let slist := strings.Split s "," in
      let column := strings.TrimSpace (hd "" slist) in
      if existsb (fun c => looksLikeColumn (strings.TrimSpace c)) (tl slist)
      then None
      else finish s1 s2 column
    else
      match strings.Split s "," with
      | [a; b] =>
          let c1 := strings.TrimSpace a in
          let c2 := strings.TrimSpace b in
          let '(column, c) :=
            if looksLikeColumn c1 then (c1, c2)
            else if looksLikeColumn c2 then (c2, c1)
            else ("", "") in
          let database := hd "" (strings.Split column ".") in
          if strings.HasPrefix c database then None
          else finish s1 s2 column
      | _ => None
      end.

(** The inner loop [for i := 0; i < n; i++]. *)
Fixpoint extractSpans (n : nat) (op : string) (st : scanState) : option scanState :=
  match n with
  | O => Some st
  | S k =>
      match extractSpan op st with
      | None => None
      | Some st' => extractSpans k op st'
      end
  end.

(** The outer loop over [needCheckOperator]; the boolean is the local
    [useComparisonOperator] flag. *)
Fixpoint scanOperators (ops : list string) (st : scanState) (found : bool)
  : option (scanState * bool) :=
  match ops with
  | [] => Some (st, found)
  | op :: ops' =>
      if strings.Contains (fst st) op then
        match extractSpans (strings.Count (fst st) (op ++ "(")) op st with
        | None => None
        | Some st' => scanOperators ops' st' true
        end
      else scanOperators ops' st found
  end.

(** The test of source line 420 on the residual text. *)
Definition residualParens (residual : string) : bool :=
  Nat.eqb (strings.Count residual "(") (strings.Count residual ")")
  && Nat.ltb 0 (strings.Count residual "(").

Definition useComparisonOperator (operatorInfo : string) : bool :=
  match scanOperators needCheckOperator (operatorInfo, []) false with
  | None => false
  | Some ((residual, cols), found) =>
      if found then
        if residualParens residual then false
        else if negb (Nat.eqb (List.length cols) 1) then false
        else true
      else false
  end.


(* ================================================================== *)
(** * Outcomes of a call

    A Go call of the program either returns normally, returns a non-nil
    [error], or panics.  [NoFuel] is the model's own outcome: the recursive
    passes are defined by recursion on a fuel counter. *)

Inductive panic : Type :=
| IndexOutOfRange       (* index out of range on a slice *)
| DivideByZero          (* integer divide by zero *)
| NilDereference.       (* method call through a nil [*simplejson.Json] *)

Inductive failure : Type :=
| Err (e : string)      (* a non-nil [error], with the text that did not parse *)
| Panic (p : panic)
| NoFuel.

Inductive outcome (A : Type) : Type :=
| Ok (a : A)
| Fail (f : failure).
Arguments Ok {A} a.
Arguments Fail {A} f.
#[warnings="-uniform-inheritance"]
Coercion Fail : failure >-> outcome.

Definition bind {A B : Type} (m : outcome A) (k : A -> outcome B) : outcome B :=
  match m with
  | Ok a => k a
  | Fail f => Fail f
  end.

Declare Scope outcome_scope.
Delimit Scope outcome_scope with outcome.
Notation "x <- m ;; k" := (bind m (fun x => k))
  (at level 61, m at next level, right associativity) : outcome_scope.
Notation "' pat <- m ;; k" := (bind m (fun x => match x with pat => k end))
  (at level 61, pat pattern, m at next level, right associativity) : outcome_scope.

(* ================================================================== *)
(** * The attribute tree ([simplejson.Json])

    [json] is the [interface{}] a [simplejson.Json] wraps after decoding
    with [UseNumber]: [nil], [bool], [json.Number], [string],
    [[]interface{}] and [map[string]interface{}].  A Go map has no order
    and no duplicate keys; it is modelled by an association list that [SetKey]
    keeps duplicate-free, the position of a key being the time of its first
    insertion.  [JRef] is a [*simplejson.Json] stored as a value, which is
    what [formatNode] puts into the tree ([JRef None] is the nil pointer);
    it serialises as the value it points to, nil as [null]. *)

#[warnings="-register-all"]
Inductive json : Type :=
| JNull
| JBool (b : bool)
| JNumber (n : string)
| JString (s : string)
| JArray (a : list json)
| JObject (m : list (string * json))
| JRef (p : option json).

Module simplejson.

Fixpoint lookup (m : list (string * json)) (key : string) : option json :=
  match m with
  | [] => None
  | (k, v) :: m' => if String.eqb k key then Some v else lookup m' key
  end.

(** [j.Get(key)]: the value under [key] of a map, [&Json{nil}] otherwise. *)
Definition Get (j : json) (key : string) : json :=
  match j with
  | JObject m => match lookup m key with Some v => v | None => JNull end
  | _ => JNull
  end.

Definition GetPath (j : json) (branch : list string) : json :=
  fold_left Get branch j.

(** [j.GetIndex(i)]. *)
Definition GetIndex (j : json) (i : nat) : json :=
  match j with
  | JArray a => nth i a JNull
  | _ => JNull
  end.

Definition MustString (j : json) : string :=
  match j with
  | JString s => s
  | _ => ""
  end.

Definition MustArray (j : json) : list json :=
  match j with
  | JArray a => a
  | _ => []
  end.

(** [StringArray]: a nil element reads as the empty string, any other
    element that is not a string fails the whole conversion. *)
Fixpoint StringArray (a : list json) : option (list string) :=
  match a with
  | [] => Some []
  | JNull :: a' => option_map (cons "") (StringArray a')
  | JString s :: a' => option_map (cons s) (StringArray a')
  | _ :: _ => None
  end.

Definition MustStringArray (j : json) : list string :=
  match j with
  | JArray a => match StringArray a with Some l => l | None => [] end
  | _ => []
  end.

Fixpoint setField (m : list (string * json)) (key : string) (val : json)
  : list (string * json) :=
  match m with
  | [] => [(key, val)]
  | (k, v) :: m' =>
      if String.eqb k key then (key, val) :: m'
      else (k, v) :: setField m' key val
  end.

(** [j.Set(key, val)]: [m[key] = val] when [j] wraps a map, nothing
    otherwise ([Set] is a keyword here, hence the name). *)
Definition SetKey (j : json) (key : string) (val : json) : json :=
  match j with
  | JObject m => JObject (setField m key val)
  | _ => j
  end.

(** In Go, [j.Get(key)] aliases the value inside [j]: a mutation made
    through it is a mutation of [j].  [Put j key v] is [j] after the value
    it holds under [key] has been mutated into [v]. *)
Definition Put (j : json) (key : string) (v : json) : json :=
  match j with
  | JObject m => match lookup m key with
                 | Some _ => JObject (setField m key v)
                 | None => j
                 end
  | _ => j
  end.

End simplejson.
Import simplejson.

(** Nesting depth of a value; it bounds the recursion of every pass. *)
Fixpoint depth (j : json) : nat :=
  match j with
  | JArray a => S (fold_right (fun x acc => Nat.max (depth x) acc) 0 a)
  | JObject m =>
      S (fold_right (fun kv acc => Nat.max (match kv with (_, v) => depth v end) acc) 0 m)
  | JRef (Some x) => S (depth x)
  | _ => 0
  end.

(* ================================================================== *)
(** * Machine numbers *)

Open Scope Z_scope.

(** Go's [int] (64 bits, two's complement): a [Z] kept in range by
    [wrap64] after every arithmetic operation. *)
Definition minInt64 : Z := - 2 ^ 63.
Definition maxInt64 : Z := 2 ^ 63 - 1.

Definition wrap64 (z : Z) : Z := (z + 2 ^ 63) mod 2 ^ 64 - 2 ^ 63.

Definition mul64 (a b : Z) : Z := wrap64 (a * b).

(** [a / b] on [int]: truncated division, a run-time panic when [b = 0]. *)
Definition div64 (a b : Z) : option Z :=
  if b =? 0 then None else Some (wrap64 (Z.quot a b)).

(** [float64]: IEEE 754 binary64 with round-to-nearest-even, as specified
    by [SpecFloat]. *)
Definition float64 : Type := spec_float.

Module f64.
Definition prec : Z := 53.
Definition emax : Z := 1024.

(** Conversion of an integer, [float64(n)]. *)
Definition ofInt (n : Z) : float64 := binary_normalize prec emax n 0 false.

Definition mul : float64 -> float64 -> float64 := SFmul prec emax.
Definition div : float64 -> float64 -> float64 := SFdiv prec emax.
Definition sub : float64 -> float64 -> float64 := SFsub prec emax.
Definition ltb : float64 -> float64 -> bool := SFltb.
Definition eqb : float64 -> float64 -> bool := SFeqb.

Definition zero : float64 := S754_zero false.

(** The integer part of a finite value (truncation toward zero). *)
Definition trunc (f : float64) : option Z :=
  match f with
  | S754_zero _ => Some 0
  | S754_finite s m e =>
      let a := if 0 <=? e then Zpos m * 2 ^ e else Zpos m / 2 ^ (- e) in
      Some (if s then - a else a)
  | _ => None
  end.

(** The constant [returnTableThreshold = 0.7] as a [float64]: the
    binary64 value nearest to 7/10. *)
Definition c0_7 : float64 := div (ofInt 7) (ofInt 10).
End f64.

(** [strconv.Atoi] on a 64-bit platform.  After an optional sign the
    digits are read from left to right into an unsigned 64-bit value, as
    [ParseUint] does: the first byte that is not a digit is a syntax error,
    with value 0, unless the digits before it already exceed 64 bits,
    which is a range error.  A range error, and a value that does not fit
    the signed type, return the nearest bound.  The boolean is the non-nil
    error. *)
Module strconv.

Definition maxUint64 : Z := 2 ^ 64 - 1.

Definition isDigit (c : ascii) : bool :=
  (48 <=? nat_of_ascii c)%nat && (nat_of_ascii c <=? 57)%nat.

Inductive scanned : Type :=
| Value (n : Z)
| SyntaxError
| RangeError.

(** The loop of [ParseUint] in base 10: [n >= cutoff] and then
    [n1 < n || n1 > maxVal], the unsigned sum wrapping exactly when it
    exceeds [maxUint64]. *)
Fixpoint parseDigits (n : Z) (s : string) : scanned :=
  match s with
  | "" => Value n
  | String c s' =>
      if isDigit c then
        if maxUint64 / 10 + 1 <=? n then RangeError
        else
          let n1 := 10 * n + (Z.of_nat (nat_of_ascii c) - 48) in
          if maxUint64 <? n1 then RangeError else parseDigits n1 s'
      else SyntaxError
  end.

Definition Atoi (s : string) : Z * bool :=
  let '(neg, body) :=
    match s with
    | String "-" s' => (true, s')
    | String "+" s' => (false, s')
    | _ => (false, s)
    end in
  match body with
  | "" => (0, true)
  | _ =>
      match parseDigits 0 body with
      | SyntaxError => (0, true)
      | RangeError => ((if neg then minInt64 else maxInt64), true)
      | Value un =>
          if negb neg && (2 ^ 63 <=? un) then (maxInt64, true)
          else if neg && (2 ^ 63 <? un) then (minInt64, true)
          else ((if neg then - un else un), false)
      end
  end.

End strconv.

(** * Library functions the program calls but does not define

    [time.ParseDuration], [Duration.String], [strconv.ParseFloat],
    the JSON decoder behind [simplejson.NewJson] and [strings.ToLower]
    belong to Go's libraries.  The passes are defined over any
    implementation of them; [None] stands for a non-nil error.  The
    conversion of a [float64] to an integer truncates; what it yields for a
    value the integer type cannot represent is left to the platform by the
    language, and is the field [IntOfUnrepresentable]. *)
Class GoLib : Type := {
  ParseDuration : string -> option Z;
  DurationString : Z -> string;
  ParseFloat : string -> option float64;
  NewJson : string -> option json;
  ToLower : string -> string;
  IntOfUnrepresentable : float64 -> Z
}.

Section Conversions.
Context {L : GoLib}.

(** [int(f)] and [time.Duration(f)] for a [float64] [f]. *)
Definition intOfFloat (f : float64) : Z :=
  match f64.trunc f with
  | Some z => if (minInt64 <=? z) && (z <=? maxInt64) then z
              else IntOfUnrepresentable f
  | None => IntOfUnrepresentable f
  end.

(** [j.MustFloat64()]: a [json.Number] is parsed, every other type (a
    string included) and every parse error give 0. *)
Definition MustFloat64 (j : json) : float64 :=
  match j with
  | JNumber n => match ParseFloat n with Some f => f | None => f64.zero end
  | _ => f64.zero
  end.
End Conversions.


(* ================================================================== *)
(** * Field names and operator kinds *)

Definition MainTree : string := "main".
Definition CteTrees : string := "ctes".
Definition Children : string := "children".
Definition Duration : string := "duration".
Definition Time : string := "time".
Definition Diagnosis : string := "diagnosis".
Definition RootGroupExecInfo : string := "rootGroupExecInfo".
Definition RootBasicExecInfo : string := "rootBasicExecInfo".
Definition OperatorInfo : string := "operatorInfo".
Definition OperatorName : string := "name".
Definition CopExecInfo : string := "copExecInfo".
Definition CacheHitRatio : string := "cacheHitRatio".
Definition TaskType : string := "taskType".
Definition StoreType : string := "storeType".
Definition DiskBytes : string := "diskBytes".
Definition MemoryBytes : string := "memoryBytes".
Definition ActRows : string := "actRows".
Definition EstRows : string := "estRows".
Definition DriverSide : string := "driverSide".
Definition ScanObject : string := "scanObject".

Definition JoinTaskThreshold : Z := 10000.

Inductive operator : Type :=
| Default
| IndexJoin
| IndexMergeJoin
| IndexHashJoin
| Apply
| Shuffle
| ShuffleReceiver
| IndexLookUpReader
| IndexMergeReader
| IndexFullScan
| IndexRangeScan
| TableFullScan
| TableRangeScan
| TableRowIDScan
| Selection.

Definition needJSONFormat : list string :=
  [RootGroupExecInfo; RootBasicExecInfo; CopExecInfo].

Definition needSetNA : list string := [MemoryBytes; DiskBytes].

Definition getOperatorType (node : json) : operator :=
  let operator := MustString (Get node OperatorName) in
  if strings.HasPrefix operator "IndexJoin" then IndexJoin
  else if strings.HasPrefix operator "IndexMergeJoin" then IndexMergeJoin
  else if strings.HasPrefix operator "IndexHashJoin" then IndexHashJoin
  else if strings.HasPrefix operator "Apply" then Apply
  else if strings.HasPrefix operator "Shuffle"
          && negb (strings.Contains operator "ShuffleReceiver") then Shuffle
  else if strings.HasPrefix operator "ShuffleReceiver" then ShuffleReceiver
  else if strings.HasPrefix operator "IndexLookUp" then IndexLookUpReader
  else if strings.HasPrefix operator "IndexMerge" then IndexMergeReader
  else if strings.HasPrefix operator "IndexFullScan" then IndexFullScan
  else if strings.HasPrefix operator "IndexRangeScan" then IndexRangeScan
  else if strings.HasPrefix operator "TableFullScan" then TableFullScan
  else if strings.HasPrefix operator "TableRangeScan" then TableRangeScan
  else if strings.HasPrefix operator "TableRowIDScan" then TableRowIDScan
  else if strings.HasPrefix operator "Selection" then Selection
  else Default.

(* ================================================================== *)
(** * The formatting pass *)

Section Format.
Context {L : GoLib}.

(** [formatJSON]: the eight substitutions, then [simplejson.NewJson];
    [None] is the returned error, with which the pointer is nil. *)
Definition formatJSONText (s : string) : string :=
  let s := ("{" ++ s ++ "}")%string in
  let s := strings.ReplaceAll s "{" ("{" ++ dq) in
  let s := strings.ReplaceAll s "}" (dq ++ "}") in
  let s := strings.ReplaceAll s ":" (dq ++ ":" ++ dq) in
  let s := strings.ReplaceAll s "," (dq ++ "," ++ dq) in
  let s := strings.ReplaceAll s (dq ++ " ") dq in
  let s := strings.ReplaceAll s ("}" ++ dq) "}" in
  let s := strings.ReplaceAll s (dq ++ "{") "{" in
  strings.ReplaceAll s ("{" ++ dq ++ dq ++ "}") "{}".

Definition formatJSON (s : string) : option json :=
  NewJson (formatJSONText s).

(** First loop of [formatNode], one key of [needSetNA]. *)
Definition setNA (node : json) (key : string) : json :=
  if String.eqb (MustString (Get node key)) "-1"
  then SetKey node key (JString "N/A")
  else node.

(** The entries appended to [newSlist] for one summary string [s]: on an
    error the string [s], and then in every case [sJSON]. *)
Definition formatEntry (s : string) : list json :=
  match formatJSON s with
  | None => [JString s; JRef None]
  | Some j => [JRef (Some j)]
  end.

(** Second loop of [formatNode], one key of [needJSONFormat]. *)
Definition formatKey (node : json) (key : string) : json :=
  if String.eqb key RootGroupExecInfo then
    let slist := MustStringArray (Get node key) in
    SetKey node key (JArray (flat_map formatEntry slist))
  else
    let s := MustString (Get node key) in
    match formatJSON s with
    | None => node
    | Some j => SetKey node key (JRef (Some j))
    end.

(** Both loops: everything [formatNode] does to the node itself. *)
Definition formatFields (node : json) : json :=
  fold_left formatKey needJSONFormat (fold_left setNA needSetNA node).

(** The loop of [formatChildrenNodes] over the elements. *)
Fixpoint formatEach (format : json -> outcome json) (nodes : list json)
  : outcome (list json) :=
  match nodes with
  | [] => Ok []
  | c :: rest =>
      (c' <- format c ;;
       rest' <- formatEach format rest ;;
       Ok (c' :: rest'))%outcome
  end.

(** [formatChildrenNodes] for a given [formatNode]; the result is the
    array after its elements have been formatted in place. *)
Definition formatChildrenNodesWith (format : json -> outcome json)
    (nodes : json) : outcome json :=
  match MustArray nodes with
  | [] => Ok nodes
  | a => (a' <- formatEach format a ;; Ok (JArray a'))%outcome
  end.

Fixpoint formatNode (fuel : nat) (node : json) : outcome json :=
  match fuel with
  | O => NoFuel
  | S fuel' =>
      let node := formatFields node in
      (c' <- formatChildrenNodesWith (formatNode fuel') (Get node Children) ;;
       Ok (Put node Children c'))%outcome
  end.

Definition formatChildrenNodes (fuel : nat) (nodes : json) : outcome json :=
  formatChildrenNodesWith (formatNode fuel) nodes.

(** [formatBinaryPlanJSON] between decoding and [MarshalJSON]. *)
Definition formatBinaryPlanJSON (vp : json) : outcome json :=
  let fuel := S (depth vp) in
  (main' <- formatNode fuel (Get vp MainTree) ;;
   let vp := Put vp MainTree main' in
   ctes' <- formatChildrenNodes fuel (Get vp CteTrees) ;;
   Ok (Put vp CteTrees ctes'))%outcome.

End Format.


(* ================================================================== *)
(** * Notions used to state the properties of the formatting pass *)


(* ================================================================== *)
(** * Concurrency state *)

Record concurrency : Type := mkConcurrency {
  joinConcurrency : Z;
  copConcurrency : Z;
  tableConcurrency : Z;
  applyConcurrency : Z;
  shuffleConcurrency : Z
}.

Definition newConcurrency : concurrency := mkConcurrency 1 1 1 1 1.

Definition withJoin (c : concurrency) (v : Z) : concurrency :=
  mkConcurrency v (copConcurrency c) (tableConcurrency c) (applyConcurrency c)
    (shuffleConcurrency c).
Definition withCop (c : concurrency) (v : Z) : concurrency :=
  mkConcurrency (joinConcurrency c) v (tableConcurrency c) (applyConcurrency c)
    (shuffleConcurrency c).
Definition withTable (c : concurrency) (v : Z) : concurrency :=
  mkConcurrency (joinConcurrency c) (copConcurrency c) v (applyConcurrency c)
    (shuffleConcurrency c).
Definition withApply (c : concurrency) (v : Z) : concurrency :=
  mkConcurrency (joinConcurrency c) (copConcurrency c) (tableConcurrency c) v
    (shuffleConcurrency c).
Definition withShuffle (c : concurrency) (v : Z) : concurrency :=
  mkConcurrency (joinConcurrency c) (copConcurrency c) (tableConcurrency c)
    (applyConcurrency c) v.

(** [strconv.Atoi] of the text under a path, the error being dropped. *)
Definition atoiAt (j : json) (branch : list string) : Z :=
  fst (strconv.Atoi (MustString (GetPath j branch))).

(** The body of the loop of [getConcurrency] for one entry of
    [rootGroupExecInfo]. *)
Definition getConcurrencyEntry (operator : operator) (entry : json)
    (c : concurrency) : outcome concurrency :=
  (c <- match operator with
        | IndexJoin | IndexMergeJoin | IndexHashJoin =>
            let tmpJoinConcurrency := atoiAt entry ["inner"; "concurrency"] in
            let joinTaskCount := atoiAt entry ["inner"; "task"] in
            let tmpJoinConcurrency :=
              if joinTaskCount <? tmpJoinConcurrency then joinTaskCount
              else tmpJoinConcurrency in
            Ok (if 0 <? tmpJoinConcurrency
                then withJoin c (mul64 tmpJoinConcurrency (joinConcurrency c))
                else c)
        | Apply =>
            let tmpApplyConcurrency := atoiAt entry ["Concurrency"] in
            Ok (if 0 <? tmpApplyConcurrency
                then withApply c (mul64 tmpApplyConcurrency (applyConcurrency c))
                else c)
        | IndexLookUpReader | IndexMergeReader =>
            let tmpTableConcurrency := atoiAt entry ["table_task"; "concurrency"] in
            let tableTaskNum := atoiAt entry ["table_task"; "num"] in
            match div64 tableTaskNum (joinConcurrency c) with
            | None => Panic DivideByZero
            | Some tableTaskNum =>
                let tmpTableConcurrency :=
                  if tableTaskNum <? tmpTableConcurrency then tableTaskNum
                  else tmpTableConcurrency in
                Ok (if 0 <? tmpTableConcurrency
                    then withTable c (mul64 tmpTableConcurrency (copConcurrency c))
                    else c)
            end
        | Shuffle =>
            let tmpSuffleConcurrency := atoiAt entry ["ShuffleConcurrency"] in
            Ok (if 0 <? tmpSuffleConcurrency
                then withShuffle c (mul64 tmpSuffleConcurrency (shuffleConcurrency c))
                else c)
        | _ => Ok c
        end ;;
   let tmpCopConcurrency := atoiAt entry ["cop_task"; "distsql_concurrency"] in
   Ok (if 0 <? tmpCopConcurrency
       then withCop c (mul64 tmpCopConcurrency (copConcurrency c))
       else c))%outcome.

Fixpoint getConcurrencyEntries (operator : operator) (entries : list json)
    (c : concurrency) : outcome concurrency :=
  match entries with
  | [] => Ok c
  | entry :: rest =>
      (c <- getConcurrencyEntry operator entry c ;;
       getConcurrencyEntries operator rest c)%outcome
  end.

Definition getConcurrency (node : json) (operator : operator) (c : concurrency)
  : outcome concurrency :=
  getConcurrencyEntries operator (MustArray (Get node RootGroupExecInfo)) c.

(** The products of multipliers the durations are divided by. *)
Definition product4 (c : concurrency) : Z :=
  mul64 (mul64 (mul64 (joinConcurrency c) (tableConcurrency c)) (applyConcurrency c))
    (shuffleConcurrency c).

Definition product5 (c : concurrency) : Z :=
  mul64 (product4 c) (copConcurrency c).

(* ================================================================== *)
(** * The duration analyzer *)

Section Duration.
Context {L : GoLib}.

Definition getOperatorDuratuon (ts : string) (c : concurrency) : string :=
  match ParseDuration ts with
  | None => "0s"
  | Some t =>
      DurationString
        (intOfFloat (f64.div (f64.ofInt t) (f64.ofInt (product4 c))))
  end.

Definition getCopTaskDuratuon (node : json) (c : concurrency) : string :=
  let storeType := MustString (GetPath node [StoreType]) in
  let task := (storeType ++ "_task")%string in
  let ts := MustString (GetPath node [CopExecInfo; task; "time"]) in
  if String.eqb ts "" then
    let taskType := MustString (GetPath node [TaskType]) in
    if String.eqb taskType "cop" then
      let taskCount := atoiAt node [CopExecInfo; task; "tasks"] in
      let maxTS := MustString (GetPath node [CopExecInfo; task; "proc max"]) in
      match ParseDuration maxTS with
      | None => maxTS
      | Some maxDuration =>
          let avgTS := MustString (GetPath node [CopExecInfo; task; "avg"]) in
          match ParseDuration avgTS with
          | None => maxTS
          | Some avgDuration =>
              let n := f64.div (f64.ofInt taskCount) (f64.ofInt (product5 c)) in
              let tsDuration :=
                if f64.ltb (f64.ofInt 1) n
                then intOfFloat (f64.mul (f64.ofInt avgDuration) n)
                else intOfFloat (f64.div (f64.ofInt avgDuration)
                                   (f64.ofInt (product4 c))) in
              if maxDuration <? tsDuration then maxTS
              else DurationString tsDuration
          end
      end
    else if String.eqb taskType "batchCop" || String.eqb taskType "mpp" then
      MustString (GetPath node [CopExecInfo; task; "proc max"])
    else "0s"
  else ts.

(** The node's own attributed duration: the local [duration] of
    [analyzeDurationNode] before it is compared with the children's
    (source lines 461-474). *)
Definition ownDuration (node : json) (c : concurrency) : Z :=
  let ts := MustString (GetPath node [RootBasicExecInfo; Time]) in
  let ts := if String.eqb ts "" then getCopTaskDuratuon node c
            else getOperatorDuratuon ts c in
  match ParseDuration ts with
  | Some d => d
  | None => 0
  end.

Definition driverSideIs (n : json) (side : string) : bool :=
  String.eqb (MustString (Get n DriverSide)) side.

(** The concurrency state a child receives under a parent that is not an
    [Apply] (the [switch] of source lines 561-587). *)
Definition childConcurrency (operator : operator) (n : json) (c : concurrency)
  : concurrency :=
  match operator with
  | IndexJoin | IndexMergeJoin | IndexHashJoin =>
      if driverSideIs n "probe" then c else withJoin c 1
  | IndexLookUpReader | IndexMergeReader =>
      if driverSideIs n "probe" then c else withTable c 1
  | ShuffleReceiver => withShuffle c 1
  | _ => c
  end.

(** The loop of source lines 518-527: the last non-empty cache hit ratio
    of the entries, an unparsable one being returned as the error. *)
Fixpoint lastCacheHitRatio (entries : list json) (cacheHitRatio : float64)
  : outcome float64 :=
  match entries with
  | [] => Ok cacheHitRatio
  | entry :: rest =>
      let cacheHitRatioStr :=
        strings.TrimRight (MustString (Get entry CacheHitRatio)) "%" in
      if String.eqb cacheHitRatioStr "" then lastCacheHitRatio rest cacheHitRatio
      else match ParseFloat cacheHitRatioStr with
           | None => Err cacheHitRatioStr
           | Some r => lastCacheHitRatio rest r
           end
  end.

(** Source lines 516-538: the state the probe side of an [Apply]
    receives, from the analysed build-side child [n]. *)
Definition probeConcurrency (n : json) (c : concurrency) : outcome concurrency :=
  (cacheHitRatio <-
     lastCacheHitRatio (MustArray (Get n RootGroupExecInfo)) f64.zero ;;
   match ParseFloat (MustString (Get n ActRows)) with
   | None => Err (MustString (Get n ActRows))
   | Some actRows =>
       let taskCount :=
         intOfFloat
           (f64.mul actRows
              (f64.sub (f64.ofInt 1) (f64.div cacheHitRatio (f64.ofInt 100)))) in
       Ok (if taskCount <? applyConcurrency c then withApply c taskCount else c)
   end)%outcome.

(** The first element with the given driver side, with what precedes and
    what follows it. *)
Fixpoint splitAtSide (side : string) (nodes : list json)
  : option (list json * json * list json) :=
  match nodes with
  | [] => None
  | n :: rest =>
      if driverSideIs n side then Some ([], n, rest)
      else match splitAtSide side rest with
           | Some (pre, x, post) => Some (n :: pre, x, post)
           | None => None
           end
  end.

(** What the loops of [analyzeDurationNodes] produce: the collected
    [durations] and the elements after their in-place analysis. *)
Definition collected : Type := list Z * list json.

Section Loops.
Variable analyzeNode : json -> concurrency -> outcome (Z * json).

(** [operator == Apply], source lines 504-554. *)
Definition analyzeApplyChildren (nodes : list json) (c : concurrency)
  : outcome collected :=
  ('(durations, nodes, c) <-
     match splitAtSide "build" nodes with
     | None => Ok ([], nodes, c)
     | Some (pre, n, post) =>
         '(d, n') <- analyzeNode n (withApply c 1) ;;
         c' <- probeConcurrency n' c ;;
         Ok ([d], (pre ++ n' :: post)%list, c')
     end ;;
   match splitAtSide "probe" nodes with
   | None => Ok (durations, nodes)
   | Some (pre, n, post) =>
       '(d, n') <- analyzeNode n c ;;
       Ok ((durations ++ [d])%list, (pre ++ n' :: post)%list)
   end)%outcome.

(** Every other operator, source lines 556-593. *)
Fixpoint analyzeOtherChildren (operator : operator) (nodes : list json)
    (c : concurrency) : outcome collected :=
  match nodes with
  | [] => Ok ([], [])
  | n :: rest =>
      ('(d, n') <- analyzeNode n (childConcurrency operator n c) ;;
       '(ds, rest') <- analyzeOtherChildren operator rest c ;;
       Ok (d :: ds, n' :: rest'))%outcome
  end.

Definition collectDurations (operator : operator) (nodes : list json)
    (c : concurrency) : outcome collected :=
  match operator with
  | Apply => analyzeApplyChildren nodes c
  | _ => analyzeOtherChildren operator nodes c
  end.
End Loops.

(** [sort.Slice] with the comparison [durations[p] > durations[q]]:
    the slice in descending order. *)
Fixpoint insertDesc (d : Z) (l : list Z) : list Z :=
  match l with
  | [] => [d]
  | x :: l' => if x <? d then d :: l else x :: insertDesc d l'
  end.

Definition sortDesc (l : list Z) : list Z := fold_right insertDesc [] l.

(** [analyzeDurationNodes] for a given [analyzeDurationNode]: the maximum
    and the array after analysis. *)
Definition analyzeDurationNodesWith
    (analyzeNode : json -> concurrency -> outcome (Z * json))
    (nodes : json) (operator : operator) (c : concurrency) : outcome (Z * json) :=
  match MustArray nodes with
  | [] => Ok (0, nodes)
  | a =>
      ('(durations, a') <- collectDurations analyzeNode operator a c ;;
       match sortDesc durations with
       | [] => Panic IndexOutOfRange
       | d :: _ => Ok (d, JArray a')
       end)%outcome
  end.

Fixpoint analyzeDurationNode (fuel : nat) (node : json) (c : concurrency)
  : outcome (Z * json) :=
  match fuel with
  | O => NoFuel
  | S fuel' =>
      let duration := ownDuration node c in
      let operator := getOperatorType node in
      (c <- getConcurrency node operator c ;;
       '(subDuration, children') <-
         analyzeDurationNodesWith (analyzeDurationNode fuel')
           (Get node Children) operator c ;;
       let duration := if duration <? subDuration then subDuration else duration in
       Ok (duration,
           SetKey (Put node Children children') Duration
             (JString (DurationString duration))))%outcome
  end.

Definition analyzeDurationNodes (fuel : nat) (nodes : json) (operator : operator)
    (c : concurrency) : outcome (Z * json) :=
  analyzeDurationNodesWith (analyzeDurationNode fuel) nodes operator c.

(** [analyzeDuration] between decoding and [MarshalJSON]. *)
Definition analyzeDuration (vp : json) : outcome json :=
  let fuel := S (depth vp) in
  let rootTs := MustString (GetPath (Get vp MainTree) [RootBasicExecInfo; Time]) in
  ('(_, main') <- analyzeDurationNode fuel (Get vp MainTree) newConcurrency ;;
   let vp := Put vp MainTree (SetKey main' Duration (JString rootTs)) in
   '(_, ctes') <- analyzeDurationNodes fuel (Get vp CteTrees) Default newConcurrency ;;
   Ok (Put vp CteTrees ctes'))%outcome.

End Duration.

(* ================================================================== *)
(** * Notions used to state the properties of the duration analyzer *)

(** [subnode root n]: [n] is [root] or is reached from it through
    [children] arrays. *)
Inductive subnode : json -> json -> Prop :=
| subnode_self (n : json) : subnode n n
| subnode_child (n k d : json) :
    In k (MustArray (Get n Children)) -> subnode k d -> subnode n d.

Section DurationNotions.
Context {L : GoLib}.

(** The texts [probeConcurrency] parses strictly on a build-side child:
    its actual rows, and each cache hit ratio that is not empty once the
    percent signs are trimmed. *)
Definition rowsTextParses (b : json) : Prop :=
  ParseFloat (MustString (Get b ActRows)) <> None.

Definition ratioTextParses (entry : json) : Prop :=
  let s := strings.TrimRight (MustString (Get entry CacheHitRatio)) "%" in
  s = "" \/ ParseFloat s <> None.

Definition applyTextsParse (b : json) : Prop :=
  rowsTextParses b /\ Forall ratioTextParses (MustArray (Get b RootGroupExecInfo)).


(** Where a collected duration comes from: the analysis of an element,
    whose result is an element of the array afterwards. *)
Definition fromChild (analyzeNode : json -> concurrency -> outcome (Z * json))
    (nodes kids' : list json) (x : Z) : Prop :=
  exists k ck k',
    In k nodes /\ analyzeNode k ck = Ok (x, k') /\ In k' kids'.
(** A failure of the loops of [analyzeDurationNodes] is the failure of
    the analysis of an element, or the parse error of the build side of
    an [Apply]. *)
Definition collectFailure
    (analyzeNode : json -> concurrency -> outcome (Z * json))
    (operator : operator) (nodes : list json) (f : failure) : Prop :=
  (exists k ck, In k nodes /\ analyzeNode k ck = Fail f)
  \/ (operator = Apply /\ (exists s, f = Err s)
      /\ exists pre b post,
           splitAtSide "build" nodes = Some (pre, b, post)
           /\ ~ applyTextsParse b).

(** The origin of each kind of failure of [analyzeDurationNode]: an error
    is the parse error of the build side of an [Apply] below the node;
    the fuel runs out only when it does not exceed the depth. *)
Definition failureOrigin (fuel : nat) (node : json) (f : failure) : Prop :=
  match f with
  | Err _ =>
      exists n pre b post,
        subnode node n
        /\ getOperatorType n = Apply
        /\ splitAtSide "build" (MustArray (Get n Children)) = Some (pre, b, post)
        /\ ~ applyTextsParse b
  | NoFuel => (fuel <= depth node)%nat
  | Panic _ => True
  end.
(** The origin of each kind of failure of the whole pass: an error is the
    parse error of the build side of an [Apply] of the main tree or of a
    CTE tree; the pass never runs out of fuel. *)
Definition passFailureOrigin (vp : json) (f : failure) : Prop :=
  match f with
  | Err _ =>
      exists tree n pre b post,
        (tree = Get vp MainTree \/ In tree (MustArray (Get vp CteTrees)))
        /\ subnode tree n
        /\ getOperatorType n = Apply
        /\ splitAtSide "build" (MustArray (Get n Children)) = Some (pre, b, post)
        /\ ~ applyTextsParse b
  | NoFuel => False
  | Panic _ => True
  end.
End DurationNotions.

(* ================================================================== *)
(** * The diagnostic rule engine *)

Record diagnosticOperation : Type := mkDiagnosticOperation {
  needUdateStatistics : bool
}.

Definition newDiagnosticOperation : diagnosticOperation :=
  mkDiagnosticOperation false.

Definition msgPseudoStats : string :=
  "This operator used pseudo statistics and the estimation might be inaccurate. It might be caused by unavailable or outdated statistics. Consider collecting statistics or setting variable tidb_enable_pseudo_for_outdated_stats to OFF.".
Definition msgDiskSpill : string :=
  "Disk spill is triggered for this operator because the memory quota is exceeded. The execution might be slow. Consider increasing the memory quota if there's enough memory.".
Definition msgEstimationError : string :=
  "The estimation error is high. Consider checking the health state of the statistics.".
Definition msgLargeBuildSide : string :=
  "This index join has a large build side. It might be slow and cause heavy pressure on TiKV. Consider using the optimizer hints to guide the optimizer to choose hash join.".
Definition msgIndexLookup : string :=
  "This IndexLookup read a lot of data from the index side. It might be slow and cause heavy pressure on TiKV. Consider using the optimizer hints to guide the optimizer to choose a better index or not to use index.".
Definition msgSelection : string :=
  "This Selection filters a high proportion of data. Using an index on this column might achieve better performance. Consider adding an index on this column if there is not one.".
Definition msgTableFullScan : string :=
  "The TiKV read a lot of data. Consider using TiFlash to get better performance if it's necessary to read so much data.".

(** [getBuildChildrenWithDriverSide]; [None] is the nil pointer. *)
Definition getBuildChildrenWithDriverSide (node : json) (driverSide : string)
  : option json :=
  find (fun n => String.eqb (MustString (Get n DriverSide)) driverSide)
    (MustArray (Get node Children)).

Definition isScanOrSelection (operator : operator) : bool :=
  match operator with
  | IndexFullScan | IndexRangeScan | TableFullScan | TableRangeScan
  | TableRowIDScan | Selection => true
  | _ => false
  end.

Section Diagnosis.
Context {L : GoLib}.

(** Source lines 222-230: whether the estimation-error message is
    appended, from the two row counts read off the node. *)
Definition estimationErrorHigh (actRows estRows : float64) : bool :=
  let zero := f64.eqb actRows f64.zero || f64.eqb estRows f64.zero in
  let actRows := if zero then f64.ofInt 1 else actRows in
  let estRows := if zero then f64.ofInt 1 else estRows in
  f64.ltb (f64.ofInt 100) (f64.div actRows estRows)
  || f64.ltb (f64.ofInt 100) (f64.div estRows actRows).

(** Rule 1, pseudo statistics (source lines 201-208). *)
Definition pseudoStatsRule (node : json) (operatorInfo : string) : list string :=
  if strings.Contains operatorInfo "stats:pseudo" then
    let db := ToLower (MustString (GetPath node [ScanObject; "database"])) in
    if String.eqb db "information_schema" || String.eqb db "metrics_schema"
       || String.eqb db "performance_schema" || String.eqb db "mysql"
    then []
    else [msgPseudoStats]
  else [].

(** Rule 2, disk spill (source lines 211-214). *)
Definition diskRule (node : json) : list string :=
  if String.eqb (MustString (Get node DiskBytes)) "N/A" then [] else [msgDiskSpill].

(** Rule 3, estimation error (source lines 219-235), given the flag the
    children returned: the messages and the flag handed upward. *)
Definition estimationRule (node : json) (operator : operator) (need : bool)
  : list string * bool :=
  if need then
    if isScanOrSelection operator then
      ((if estimationErrorHigh (MustFloat64 (Get node ActRows))
                               (MustFloat64 (Get node EstRows))
        then [msgEstimationError] else []), true)
    else ([], false)
  else ([], need).

(** The kind-specific rules (the [switch] of source lines 237-302);
    the node is the one whose children have been diagnosed. *)
Definition operatorRule (node : json) (operator : operator) (operatorInfo : string)
  : outcome (list string) :=
  match operator with
  | IndexJoin | IndexMergeJoin | IndexHashJoin =>
      if existsb (fun entry => JoinTaskThreshold <? atoiAt entry ["inner"; "task"])
           (MustArray (Get node RootGroupExecInfo))
      then Ok [msgLargeBuildSide] else Ok []
  | IndexLookUpReader =>
      match getBuildChildrenWithDriverSide node "build" with
      | None => Panic NilDereference
      | Some cNode =>
          match getOperatorType cNode, MustArray (Get cNode Children) with
          | Selection, [gNode] =>
              match getOperatorType gNode with
              | IndexFullScan =>
                  if strings.Contains (MustString (Get gNode OperatorInfo))
                       "keep order:false"
                     && f64.ltb f64.c0_7
                          (f64.div (MustFloat64 (Get cNode ActRows))
                                   (MustFloat64 (Get gNode ActRows)))
                  then Ok [msgIndexLookup] else Ok []
              | _ => Ok []
              end
          | _, _ => Ok []
          end
      end
  | Selection =>
      match MustArray (Get node Children) with
      | [cNode] =>
          match getOperatorType cNode with
          | IndexFullScan =>
              if String.eqb (MustString (Get node StoreType)) "tikv"
                 && useComparisonOperator operatorInfo
                 && f64.ltb (MustFloat64 (Get node ActRows)) (f64.ofInt 10000)
                 && f64.ltb (f64.ofInt 5000000) (MustFloat64 (Get cNode ActRows))
              then Ok [msgSelection] else Ok []
          | _ => Ok []
          end
      | _ => Ok []
      end
  | TableFullScan =>
      if String.eqb (MustString (Get node StoreType)) "tikv"
         && f64.ltb (f64.ofInt 1000000000) (MustFloat64 (Get node ActRows))
      then Ok [msgTableFullScan] else Ok []
  | _ => Ok []
  end.

(** The loop of [diagnosticOperatorNodes]: the disjunction of the flags
    the elements return, and the elements after diagnosis. *)
Fixpoint diagnoseEach
    (diagnose : json -> diagnosticOperation -> outcome (diagnosticOperation * json))
    (nodes : list json) (diagOp : diagnosticOperation) (need : bool)
  : outcome (bool * list json) :=
  match nodes with
  | [] => Ok (need, [])
  | c :: rest =>
      ('(n, c') <- diagnose c diagOp ;;
       '(need', rest') <-
         diagnoseEach diagnose rest diagOp
           (if needUdateStatistics n then true else need) ;;
       Ok (need', c' :: rest'))%outcome
  end.

Definition diagnosticOperatorNodesWith
    (diagnose : json -> diagnosticOperation -> outcome (diagnosticOperation * json))
    (nodes : json) (diagOp : diagnosticOperation)
  : outcome (diagnosticOperation * json) :=
  match MustArray nodes with
  | [] => Ok (mkDiagnosticOperation true, nodes)
  | a =>
      ('(need, a') <- diagnoseEach diagnose a diagOp false ;;
       Ok (mkDiagnosticOperation need, JArray a'))%outcome
  end.

Fixpoint diagnosticOperatorNode (fuel : nat) (node : json)
    (diagOp : diagnosticOperation) : outcome (diagnosticOperation * json) :=
  match fuel with
  | O => NoFuel
  | S fuel' =>
      let operator := getOperatorType node in
      let operatorInfo := MustString (Get node OperatorInfo) in
      let diagnosis := (pseudoStatsRule node operatorInfo ++ diskRule node)%list in
      ('(diagOp, children') <-
         diagnosticOperatorNodesWith (diagnosticOperatorNode fuel')
           (Get node Children) diagOp ;;
       let node := Put node Children children' in
       let '(est, need) :=
         estimationRule node operator (needUdateStatistics diagOp) in
       kind <- operatorRule node operator operatorInfo ;;
       let diagnosis := (diagnosis ++ est ++ kind)%list in
       Ok (mkDiagnosticOperation need,
           SetKey node Diagnosis (JArray (map JString diagnosis))))%outcome
  end.

Definition diagnosticOperatorNodes (fuel : nat) (nodes : json)
    (diagOp : diagnosticOperation) : outcome (diagnosticOperation * json) :=
  diagnosticOperatorNodesWith (diagnosticOperatorNode fuel) nodes diagOp.

(** [diagnosticOperator] between decoding and [MarshalJSON]. *)
Definition diagnosticOperator (vp : json) : outcome json :=
  let fuel := S (depth vp) in
  ('(_, main') <- diagnosticOperatorNode fuel (Get vp MainTree) newDiagnosticOperation ;;
   let vp := Put vp MainTree main' in
   '(_, ctes') <- diagnosticOperatorNodes fuel (Get vp CteTrees) newDiagnosticOperation ;;
   Ok (Put vp CteTrees ctes'))%outcome.

End Diagnosis.

(* ================================================================== *)
(** * An implementation of the library functions

    [go] implements [GoLib] after the Go sources (go 1.18, amd64), so that
    the passes can be run on concrete trees.  [time.ParseDuration] and
    [Duration.String] are transcribed in full.  [ParseFloat] covers decimal
    literals with correct rounding and the special values; hexadecimal
    literals and digit-separating underscores are not covered (they give
    [None]).  The JSON decoder covers RFC 8259 texts whose strings have no
    [\u] escape; like [json.Decoder] it reads the first value of its input
    and ignores what follows; string bytes are kept as they are (Go
    replaces ill-formed UTF-8 by U+FFFD).  [ToLower] maps ASCII letters
    only. *)
Module GoImpl.

Definition byte (c : ascii) : Z := Z.of_nat (nat_of_ascii c).

Definition isDigit (c : ascii) : bool := (48 <=? byte c) && (byte c <=? 57).

Definition fmtInt (v : Z) : string :=
  DecimalString.NilZero.string_of_uint (N.to_uint (Z.to_N v)).

Definition digitChar (d : Z) : string :=
  String (ascii_of_nat (Z.to_nat (48 + d))) "".

(** [fmtFrac]: the fraction digits of [v / 10^prec] without trailing
    zeros, with the point when there are any, and [v / 10^prec]. *)
Fixpoint fmtFrac (prec : nat) (v : Z) (print : bool) (acc : string) : string * Z :=
  match prec with
  | O => ((if print then "." ++ acc else acc)%string, v)
  | S k =>
      let digit := v mod 10 in
      let print := print || negb (digit =? 0) in
      fmtFrac k (v / 10) print (if print then digitChar digit ++ acc else acc)%string
  end.

Definition micro : string := String "194"%char (String "181"%char "").
Definition mu : string := String "206"%char (String "188"%char "").

Definition DurationString (d : Z) : string :=
  let neg := d <? 0 in
  let u := Z.abs d in
  let small (prec : nat) (unit : string) : string :=
    let '(frac, u') := fmtFrac prec u false "" in
    (fmtInt u' ++ frac ++ unit)%string in
  let body : string :=
    if u <? 1000000000 then
      if u =? 0 then "0s"
      else if u <? 1000 then small 0%nat "ns"
      else if u <? 1000000 then small 3%nat (micro ++ "s")%string
      else small 6%nat "ms"
    else
      let '(frac, u1) := fmtFrac 9 u false "" in
      let secs := (fmtInt (u1 mod 60) ++ frac ++ "s")%string in
      let u2 := u1 / 60 in
      if 0 <? u2 then
        let mins := (fmtInt (u2 mod 60) ++ "m")%string in
        let u3 := u2 / 60 in
        if 0 <? u3 then (fmtInt u3 ++ "h" ++ mins ++ secs)%string
        else (mins ++ secs)%string
      else secs in
  if neg then ("-" ++ body)%string else body.

(** [leadingInt]: [None] is [errLeadingInt]. *)
Fixpoint leadingInt (x : Z) (s : string) : option (Z * string) :=
  match s with
  | "" => Some (x, s)
  | String c s' =>
      if isDigit c then
        if x >? 2 ^ 63 / 10 then None
        else let x := x * 10 + (byte c - 48) in
             if x >? 2 ^ 63 then None else leadingInt x s'
      else Some (x, s)
  end.

Fixpoint leadingFraction (x : Z) (scale : float64) (overflow : bool) (s : string)
  : Z * float64 * string :=
  match s with
  | "" => (x, scale, s)
  | String c s' =>
      if isDigit c then
        if overflow then leadingFraction x scale overflow s'
        else if x >? (2 ^ 63 - 1) / 10 then leadingFraction x scale true s'
        else let y := x * 10 + (byte c - 48) in
             if y >? 2 ^ 63 then leadingFraction x scale true s'
             else leadingFraction y (f64.mul scale (f64.ofInt 10)) false s'
      else (x, scale, s)
  end.

Fixpoint unitLength (s : string) : nat :=
  match s with
  | "" => O
  | String c s' => if Ascii.eqb c "." || isDigit c then O else S (unitLength s')
  end.

Definition unitMap (u : string) : option Z :=
  if String.eqb u "ns" then Some 1
  else if String.eqb u "us" then Some 1000
  else if String.eqb u (micro ++ "s") then Some 1000
  else if String.eqb u (mu ++ "s") then Some 1000
  else if String.eqb u "ms" then Some 1000000
  else if String.eqb u "s" then Some 1000000000
  else if String.eqb u "m" then Some 60000000000
  else if String.eqb u "h" then Some 3600000000000
  else None.

(** The loop of [ParseDuration] over the groups number-unit; [d] is a
    [uint64]. *)
Fixpoint parseGroups (fuel : nat) (s : string) (d : Z) : option Z :=
  match s with
  | "" => Some d
  | String c0 _ =>
      match fuel with
      | O => None
      | S fuel' =>
          if negb (Ascii.eqb c0 "." || isDigit c0) then None
          else
            match leadingInt 0 s with
            | None => None
            | Some (v, s1) =>
                let pre := negb (Nat.eqb (String.length s) (String.length s1)) in
                let '(f, scale, s2, post) :=
                  match s1 with
                  | String "." s1' =>
                      let '(f, scale, s2) := leadingFraction 0 (f64.ofInt 1) false s1' in
                      (f, scale, s2, negb (Nat.eqb (String.length s1') (String.length s2)))
                  | _ => (0, f64.ofInt 1, s1, false)
                  end in
                if negb pre && negb post then None
                else
                  let i := unitLength s2 in
                  match i with
                  | O => None
                  | _ =>
                      match unitMap (strings.take i s2) with
                      | None => None
                      | Some unit =>
                          if v >? 2 ^ 63 / unit then None
                          else
                            let v := v * unit in
                            let v :=
                              if f >? 0 then
                                v + match f64.trunc (f64.mul (f64.ofInt f)
                                                       (f64.div (f64.ofInt unit) scale)) with
                                    | Some z => z
                                    | None => 0
                                    end
                              else v in
                            if (f >? 0) && (v >? 2 ^ 63) then None
                            else
                              let d := (d + v) mod 2 ^ 64 in
                              if d >? 2 ^ 63 then None
                              else parseGroups fuel' (strings.drop i s2) d
                      end
                  end
            end
      end
  end.

Definition ParseDuration (s : string) : option Z :=
  let '(neg, s) :=
    match s with
    | String "-" s' => (true, s')
    | String "+" s' => (false, s')
    | _ => (false, s)
    end in
  if String.eqb s "0" then Some 0
  else if String.eqb s "" then None
  else
    match parseGroups (String.length s) s 0 with
    | None => None
    | Some d =>
        if neg then Some (wrap64 (- wrap64 d))
        else if d >? 2 ^ 63 - 1 then None
        else Some d
    end.

(** ** [strconv.ParseFloat(s, 64)] *)

Definition lowerChar (c : ascii) : ascii :=
  if (65 <=? byte c) && (byte c <=? 90)
  then ascii_of_nat (nat_of_ascii c + 32)
  else c.

Fixpoint ToLower (s : string) : string :=
  match s with
  | "" => ""
  | String c s' => String (lowerChar c) (ToLower s')
  end.

(** Leading decimal digits: their value, their number, the rest. *)
Fixpoint digitsPrefix (acc : Z) (n : Z) (s : string) : Z * Z * string :=
  match s with
  | "" => (acc, n, s)
  | String c s' =>
      if isDigit c then digitsPrefix (10 * acc + (byte c - 48)) (n + 1) s'
      else (acc, n, s)
  end.

(** The binary64 nearest to [m * 10^e] for [0 < m]; [None] when it
    overflows (Go returns an infinity with [ErrRange]). *)
Definition roundDecimal (neg : bool) (m e : Z) : option float64 :=
  if 400 <? e then None
  else if e <? - (400 + Z.log2 m) then Some (S754_zero neg)
  else
    let r :=
      if 0 <=? e then
        binary_normalize f64.prec f64.emax ((if neg then - m else m) * 10 ^ e) 0 neg
      else
        let den := 10 ^ (- e) in
        let sh := Z.max 0 (f64.prec + 3 + Z.log2 den - Z.log2 m) in
        let '(q, rem) := Z.div_eucl (Z.shiftl m sh) den in
        binary_round_aux f64.prec f64.emax neg q (- sh) (new_location den rem) in
    match r with
    | S754_infinity _ => None
    | _ => Some r
    end.

Definition parseDecimal (neg : bool) (s : string) : option float64 :=
  let '(ip, ni, s1) := digitsPrefix 0 0 s in
  let '(m, nf, s2) :=
    match s1 with
    | String "." s1' => digitsPrefix ip 0 s1'
    | _ => (ip, 0, s1)
    end in
  if ni + nf =? 0 then None
  else
    let finish (e : Z) : option float64 :=
      if m =? 0 then Some (S754_zero neg) else roundDecimal neg m (e - nf) in
    match s2 with
    | "" => finish 0
    | String c s3 =>
        if Ascii.eqb (lowerChar c) "e" then
          let '(eneg, s4) :=
            match s3 with
            | String "-" s' => (true, s')
            | String "+" s' => (false, s')
            | _ => (false, s3)
            end in
          match digitsPrefix 0 0 s4 with
          | (_, 0, _) => None
          | (ev, _, "") => finish (if eneg then - ev else ev)
          | _ => None
          end
        else None
    end.

Definition ParseFloat (s : string) : option float64 :=
  let '(signed, neg, body) :=
    match s with
    | String "-" s' => (true, true, s')
    | String "+" s' => (true, false, s')
    | _ => (false, false, s)
    end in
  let l := ToLower body in
  if String.eqb l "inf" || String.eqb l "infinity" then Some (S754_infinity neg)
  else if negb signed && String.eqb l "nan" then Some S754_nan
  else parseDecimal neg body.

(** ** The JSON decoder behind [simplejson.NewJson] *)

Fixpoint skipWS (s : string) : string :=
  match s with
  | String c s' =>
      if (byte c =? 32) || (byte c =? 9) || (byte c =? 10) || (byte c =? 13)
      then skipWS s' else s
  | "" => ""
  end.

(** The text of a string literal after its opening quote. *)
Fixpoint parseString (s : string) : option (string * string) :=
  match s with
  | "" => None
  | String c s' =>
      if byte c =? 34 then Some ("", s')
      else if byte c =? 92 then
        match s' with
        | "" => None
        | String e s'' =>
            let esc (b : nat) :=
              match parseString s'' with
              | Some (t, r) => Some (String (ascii_of_nat b) t, r)
              | None => None
              end in
            if byte e =? 34 then esc 34%nat
            else if byte e =? 92 then esc 92%nat
            else if byte e =? 47 then esc 47%nat
            else if byte e =? 98 then esc 8%nat
            else if byte e =? 102 then esc 12%nat
            else if byte e =? 110 then esc 10%nat
            else if byte e =? 114 then esc 13%nat
            else if byte e =? 116 then esc 9%nat
            else None
        end
      else if byte c <? 32 then None
      else match parseString s' with
           | Some (t, r) => Some (String c t, r)
           | None => None
           end
  end.

Fixpoint digitRun (s : string) : string * string :=
  match s with
  | String c s' =>
      if isDigit c then let '(d, r) := digitRun s' in (String c d, r) else ("", s)
  | "" => ("", "")
  end.

(** A number literal: its text and the rest. *)
Definition parseNumber (s : string) : option (string * string) :=
  let '(sign, s1) :=
    match s with String "-" s' => ("-", s') | _ => ("", s) end in
  let '(ip, s2) :=
    match s1 with
    | String "0" s' => ("0", s')
    | _ => digitRun s1
    end in
  if String.eqb ip "" then None
  else
    let frac :=
      match s2 with
      | String "." s' =>
          let '(fp, s3) := digitRun s' in
          if String.eqb fp "" then None else Some ("." ++ fp, s3)
      | _ => Some ("", s2)
      end in
    match frac with
    | None => None
    | Some (fp, s3) =>
        match s3 with
        | String c s4 =>
            if Ascii.eqb (lowerChar c) "e" then
              let '(es, s5) :=
                match s4 with
                | String "-" s' => ("-", s')
                | String "+" s' => ("+", s')
                | _ => ("", s4)
                end in
              let '(ep, s6) := digitRun s5 in
              if String.eqb ep "" then None
              else Some (sign ++ ip ++ fp ++ String c "" ++ es ++ ep, s6)
            else Some (sign ++ ip ++ fp, s3)
        | "" => Some (sign ++ ip ++ fp, s3)
        end
    end%string.

Fixpoint parseValue (fuel : nat) (s : string) : option (json * string) :=
  match fuel with
  | O => None
  | S fuel' =>
      match skipWS s with
      | "" => None
      | String c r as s0 =>
          if byte c =? 123 then
            match skipWS r with
            | String "}" r' => Some (JObject [], r')
            | r1 => match parseMembers fuel' r1 [] with
                    | Some (m, r') => Some (JObject m, r')
                    | None => None
                    end
            end
          else if byte c =? 91 then
            match skipWS r with
            | String "]" r' => Some (JArray [], r')
            | r1 => match parseElements fuel' r1 with
                    | Some (a, r') => Some (JArray a, r')
                    | None => None
                    end
            end
          else if byte c =? 34 then
            match parseString r with
            | Some (t, r') => Some (JString t, r')
            | None => None
            end
          else if strings.HasPrefix s0 "true" then Some (JBool true, strings.drop 4 s0)
          else if strings.HasPrefix s0 "false" then Some (JBool false, strings.drop 5 s0)
          else if strings.HasPrefix s0 "null" then Some (JNull, strings.drop 4 s0)
          else match parseNumber s0 with
               | Some (t, r') => Some (JNumber t, r')
               | None => None
               end
      end
  end
with parseElements (fuel : nat) (s : string) : option (list json * string) :=
  match fuel with
  | O => None
  | S fuel' =>
      match parseValue fuel' s with
      | None => None
      | Some (v, r) =>
          match skipWS r with
          | String "," r' =>
              match parseElements fuel' r' with
              | Some (vs, r'') => Some (v :: vs, r'')
              | None => None
              end
          | String "]" r' => Some ([v], r')
          | _ => None
          end
      end
  end
with parseMembers (fuel : nat) (s : string) (m : list (string * json))
  : option (list (string * json) * string) :=
  match fuel with
  | O => None
  | S fuel' =>
      match skipWS s with
      | String c r =>
          if byte c =? 34 then
            match parseString r with
            | None => None
            | Some (key, r1) =>
                match skipWS r1 with
                | String ":" r2 =>
                    match parseValue fuel' r2 with
                    | None => None
                    | Some (v, r3) =>
                        let m := setField m key v in
                        match skipWS r3 with
                        | String "," r4 => parseMembers fuel' r4 m
                        | String "}" r4 => Some (m, r4)
                        | _ => None
                        end
                    end
                | _ => None
                end
            end
          else None
      | "" => None
      end
  end.

Definition NewJson (body : string) : option json :=
  match parseValue (2 * String.length body + 2) body with
  | Some (v, _) => Some v
  | None => None
  end.

End GoImpl.


(** The instance: on amd64 the conversion of an unrepresentable [float64]
    yields the most negative integer. *)
Definition go : GoLib := {|
  ParseDuration := GoImpl.ParseDuration;
  DurationString := GoImpl.DurationString;
  ParseFloat := GoImpl.ParseFloat;
  NewJson := GoImpl.NewJson;
  ToLower := GoImpl.ToLower;
  IntOfUnrepresentable := fun _ => minInt64
|}.




(* ================================================================== *)
(** * Example plans *)

Definition obj (m : list (string * json)) : json := JObject m.
Definition timed (t : string) : json := obj [(Time, JString t)].

(** A root that ran 1s above a reader that ran 2s. *)
Definition planSlowChild : json :=
  obj [(MainTree,
        obj [(OperatorName, JString "Projection_1");
             (RootBasicExecInfo, timed "1s");
             (Children,
              JArray [obj [(OperatorName, JString "TableReader_2");
                           (RootBasicExecInfo, timed "2s")]])])].

(** A root without a time of its own above a reader that ran 2s. *)
Definition planUntimedRoot : json :=
  obj [(MainTree,
        obj [(OperatorName, JString "Projection_1");
             (Children,
              JArray [obj [(OperatorName, JString "TableReader_2");
                           (RootBasicExecInfo, timed "2s")]])])].

(** An [Apply] whose only child carries no driver side. *)
Definition applyNoSides : json :=
  obj [(OperatorName, JString "Apply_1");
       (Children, JArray [obj [(OperatorName, JString "TableReader_2")]])].

(** An [Apply] whose build side returned no row. *)
Definition buildNoRows : json :=
  obj [(OperatorName, JString "TableReader_2");
       (DriverSide, JString "build");
       (ActRows, JString "0")].
Definition probeOneSecond : json :=
  obj [(OperatorName, JString "TableReader_3");
       (DriverSide, JString "probe");
       (RootBasicExecInfo, timed "1s")].
Definition applyEmptyBuild : json :=
  obj [(OperatorName, JString "Apply_1");
       (Children, JArray [buildNoRows; probeOneSecond])].


(** An index lookup with one grouped-info entry. *)
Definition lookupReader : json :=
  obj [(OperatorName, JString "IndexLookUp_7");
       (RootGroupExecInfo,
        JArray [obj [("table_task",
                      obj [("concurrency", JString "4"); ("num", JString "100")])]])].

(** A full scan that returned no row where 500 were estimated. *)
Definition scanNoRows : json :=
  obj [(OperatorName, JString "TableFullScan_5");
       (ActRows, JNumber "0");
       (EstRows, JNumber "500");
       (DiskBytes, JString "N/A")].

(** A node with one grouped summary that is not in the [key:value] form. *)
Definition groupedBadSummary : json :=
  obj [(OperatorName, JString "TableReader_2");
       (RootGroupExecInfo, JArray [JString "a"])].

(** A node with a basic summary. *)
Definition basicSummary : json :=
  obj [(OperatorName, JString "TableReader_2");
       (DiskBytes, JString "-1");
       (RootBasicExecInfo, JString "time:1s, loops:2")].


(* ================================================================== *)
(** * Notions used to state further properties of the passes *)

(** [sameExcept keys n n']: at [n] and at every node below it, [n'] has as
    many children as [n] and the same value under every key other than
    those of [keys] (and [children], which holds the nodes below). *)
#[warnings="-register-all"]
Inductive sameExcept (keys : list string) : json -> json -> Prop :=
| sameExcept_node (n n' : json) :
    (forall key, ~ In key keys -> key <> Children -> Get n' key = Get n key) ->
    Forall2 (sameExcept keys) (MustArray (Get n Children)) (MustArray (Get n' Children)) ->
    sameExcept keys n n'.

(** [scanChain n]: a path leads from [n] down to a node without children
    through scan and selection operators only, [n] included. *)
Inductive scanChain : json -> Prop :=
| scanChain_leaf (n : json) :
    isScanOrSelection (getOperatorType n) = true ->
    MustArray (Get n Children) = [] ->
    scanChain n
| scanChain_child (n k : json) :
    isScanOrSelection (getOperatorType n) = true ->
    In k (MustArray (Get n Children)) ->
    scanChain k ->
    scanChain n.

(** The operator kinds that read [table_task] hints. *)
Definition isLookup (operator : operator) : bool :=
  match operator with
  | IndexLookUpReader | IndexMergeReader => true
  | _ => false
  end.

Definition isJoin (operator : operator) : bool :=
  match operator with
  | IndexJoin | IndexMergeJoin | IndexHashJoin => true
  | _ => false
  end.

(** A node that has nothing but a name. *)
Definition named (name : string) : json := obj [(OperatorName, JString name)].

(** An index lookup without children, and one whose grouped summary has an
    entry. *)
Definition lookupWithoutChildren : json := named "IndexLookUp_7".

(** Where a panic of the duration analyzer happens: [n] is the node whose
    analysis panics with [p]. *)
Definition panicSite (n : json) (p : panic) : Prop :=
  match p with
  | IndexOutOfRange =>
      getOperatorType n = Apply
      /\ MustArray (Get n Children) <> []
      /\ splitAtSide "build" (MustArray (Get n Children)) = None
      /\ splitAtSide "probe" (MustArray (Get n Children)) = None
  | DivideByZero =>
      isLookup (getOperatorType n) = true
      /\ MustArray (Get n RootGroupExecInfo) <> []
  | NilDereference => False
  end.

(** The position of the first element with the given driver side. *)
Definition sideIndex (side : string) (nodes : list json) : option nat :=
  match splitAtSide side nodes with
  | Some (pre, _, _) => Some (List.length pre)
  | None => None
  end.

(** [unanalysedChild a k]: [k] is a child of the [Apply] node [a] that is
    neither its first build-side nor its first probe-side child. *)
Definition unanalysedChild (a k : json) : Prop :=
  getOperatorType a = Apply
  /\ exists i,
       nth_error (MustArray (Get a Children)) i = Some k
       /\ sideIndex "build" (MustArray (Get a Children)) <> Some i
       /\ sideIndex "probe" (MustArray (Get a Children)) <> Some i.

(** What a node [n'] found in the tree after the analysis of [root] is:
    either the very result of the analysis of a node of [root], which
    carries the text of the duration that analysis returned, or a node of
    [root] itself, at or below an unanalysed child of an [Apply]. *)
Definition analysedOrUntouched {L : GoLib} (root n' : json) : Prop :=
  (exists fuel n c d,
      subnode root n
      /\ analyzeDurationNode fuel n c = Ok (d, n')
      /\ forall m, n = JObject m ->
                   Get n' Duration = JString (DurationString d))
  \/ (exists a k, subnode root a /\ unanalysedChild a k /\ subnode k n').



(** A coprocessor scan of three tasks without a recorded time. *)
Definition copScan : json :=
  obj [(OperatorName, JString "TableFullScan_5");
       (StoreType, JString "tikv");
       (TaskType, JString "cop");
       (CopExecInfo,
        obj [("tikv_task",
              obj [("proc max", JString "2s");
                   ("avg", JString "1s");
                   ("tasks", JString "3")])])].

(** [operatorRule_ok_after node kind]: the kind-specific rules give the
    messages [kind] at [node] once its children have been diagnosed. *)
Definition operatorRule_ok_after {L : GoLib} (node : json) (kind : list string)
  : Prop :=
  exists children',
    operatorRule (Put node Children children') (getOperatorType node)
      (MustString (Get node OperatorInfo)) = Ok kind.

(* ================================================================== *)
(** * Auxiliary facts *)

Lemma bind_Ok {A B : Type} (m : outcome A) (k : A -> outcome B) (b : B) :
  bind m k = Ok b -> exists a, m = Ok a /\ k a = Ok b.
Proof.
  destruct m as [a|f]; simpl; try discriminate.
  intros H. exists a. split; [reflexivity|exact H].
Qed.

Lemma bind_Fail {A B : Type} (m : outcome A) (k : A -> outcome B) (f : failure) :
  bind m k = Fail f -> m = Fail f \/ exists a, m = Ok a /\ k a = Fail f.
Proof.
  destruct m as [a|f0]; simpl.
  - intros H. right. exists a. split; [reflexivity|exact H].
  - intros H. left. injection H as ->. reflexivity.
Qed.

(** Splits an equation [bind m k = Ok b] into its two steps. *)
Ltac bind_ok H :=
  let a := fresh "r" in
  let Ha := fresh "Hstep" in
  apply bind_Ok in H; destruct H as (a & Ha & H).

Module simplejson_facts.

Lemma lookup_setField_same (m : list (string * json)) (k : string) (v : json) :
  lookup (setField m k v) k = Some v.
Proof.
  induction m as [|[k0 v0] m IH]; simpl.
  - rewrite String.eqb_refl. reflexivity.
  - destruct (String.eqb k0 k) eqn:E; simpl.
    + rewrite String.eqb_refl. reflexivity.
    + rewrite E. exact IH.
Qed.

Lemma lookup_setField_other (m : list (string * json)) (k k' : string) (v : json) :
  k <> k' -> lookup (setField m k v) k' = lookup m k'.
Proof.
  intros Hne. induction m as [|[k0 v0] m IH]; simpl.
  - destruct (String.eqb k k') eqn:E; [|reflexivity].
    apply String.eqb_eq in E. contradiction.
  - destruct (String.eqb k0 k) eqn:E; simpl.
    + apply String.eqb_eq in E. subst k0.
      destruct (String.eqb k k') eqn:E'; [|reflexivity].
      apply String.eqb_eq in E'. contradiction.
    + destruct (String.eqb k0 k'); [reflexivity|exact IH].
Qed.

Lemma Get_SetKey_same (m : list (string * json)) (k : string) (v : json) :
  Get (SetKey (JObject m) k v) k = v.
Proof. simpl. rewrite lookup_setField_same. reflexivity. Qed.

Lemma Get_SetKey_other (j : json) (k k' : string) (v : json) :
  k <> k' -> Get (SetKey j k v) k' = Get j k'.
Proof.
  intros Hne. destruct j; try reflexivity.
  simpl. rewrite lookup_setField_other by exact Hne. reflexivity.
Qed.

Lemma Get_Put_other (j : json) (k k' : string) (v : json) :
  k <> k' -> Get (Put j k v) k' = Get j k'.
Proof.
  intros Hne. destruct j; try reflexivity.
  simpl. destruct (lookup m k); [|reflexivity].
  simpl. rewrite lookup_setField_other by exact Hne. reflexivity.
Qed.

Lemma Get_Put_same (j : json) (k : string) (v : json) :
  Get (Put j k v) k = match j with
                      | JObject m => match lookup m k with
                                     | Some _ => v
                                     | None => JNull
                                     end
                      | _ => JNull
                      end.
Proof.
  destruct j; try reflexivity.
  simpl. destruct (lookup m k) eqn:E; simpl.
  - rewrite lookup_setField_same. reflexivity.
  - rewrite E. reflexivity.
Qed.

Lemma Get_Put_Get (j : json) (k : string) :
  Get (Put j k (Get j k)) k = Get j k.
Proof.
  rewrite Get_Put_same. destruct j; try reflexivity.
  simpl. destruct (lookup m k); reflexivity.
Qed.

Lemma Put_object (m : list (string * json)) (k : string) (v : json) :
  exists m', Put (JObject m) k v = JObject m'.
Proof.
  simpl. destruct (lookup m k); eexists; reflexivity.
Qed.

Lemma SetKey_object (m : list (string * json)) (k : string) (v : json) :
  SetKey (JObject m) k v = JObject (setField m k v).
Proof. reflexivity. Qed.

End simplejson_facts.
Import simplejson_facts.

(** The head of the sorted slice is an element and bounds the others. *)
Lemma sortDesc_nil (l : list Z) : sortDesc l = [] -> l = [].
Proof.
  destruct l as [|a l]; [reflexivity|].
  simpl. destruct (sortDesc l) as [|h t]; simpl; [discriminate|].
  destruct (h <? a); discriminate.
Qed.

Lemma sortDesc_head (l : list Z) (h : Z) (t : list Z) :
  sortDesc l = h :: t -> In h l /\ Forall (fun x => x <= h) l.
Proof.
  revert h t. induction l as [|a l IH]; intros h t; simpl; [discriminate|].
  destruct (sortDesc l) as [|h0 t0] eqn:E.
  - apply sortDesc_nil in E. subst l. simpl.
    intros H. injection H as <- _.
    split; [left; reflexivity|]. constructor; [lia|constructor].
  - destruct (IH h0 t0 eq_refl) as [Hin Hall]. simpl.
    destruct (h0 <? a) eqn:Hlt.
    + intros H. injection H as <- _.
      apply Z.ltb_lt in Hlt.
      split; [left; reflexivity|].
      constructor; [lia|].
      eapply Forall_impl; [|exact Hall]. simpl. intros x Hx. lia.
    + intros H. injection H as <- _.
      apply Z.ltb_ge in Hlt.
      split; [right; exact Hin|].
      constructor; [exact Hlt|exact Hall].
Qed.

(* ================================================================== *)
(** * The predicate matcher: properties *)

(** The six cases the source documents above [useComparisonOperator]. *)
Example useComparisonOperator_documented :
  map useComparisonOperator
    ["eq(test.t.a, 1)";
     "eq(minus(test.t1.b, 1), 1)";
     "eq(test.t.a, 1), eq(test.t.a, 2)";
     "eq(test.t.a, 1), eq(test.t.b, 1)";
     "in(test.t.a, 1, 2, 3, 4)";
     "in(test.t.a, 1, 2, 3, 4), in(test.t.b, 1, 2, 3, 4)"]
  = [true; false; true; false; true; false].
Proof. vm_compute. reflexivity. Qed.

(** C5, as stated, fails.  With [eq(test.t.a, 1))] the residual text is a
    lone closing parenthesis, which nothing matches, and the matcher
    accepts; with [not(eq(test.t.a, 1))] one comparison was found and
    exactly one column was collected, and the matcher rejects. *)
Lemma useComparisonOperator_parentheses_counterexample :
  (scanOperators needCheckOperator ("eq(test.t.a, 1))", []) false
     = Some ((")", ["test.t.a"]), true)
   /\ strings.Count ")" "(" <> strings.Count ")" ")"
   /\ useComparisonOperator "eq(test.t.a, 1))" = true)
  /\
  (scanOperators needCheckOperator ("not(eq(test.t.a, 1))", []) false
     = Some (("not()", ["test.t.a"]), true)
   /\ List.length ["test.t.a"] = 1%nat
   /\ useComparisonOperator "not(eq(test.t.a, 1))" = false).
Proof.
  repeat split; try (vm_compute; reflexivity).
  vm_compute. discriminate.
Qed.

(** C5, amended: the matcher accepts exactly when the scan of all operator
    tokens ends without an early rejection, at least one token was found,
    exactly one distinct column was collected, and the residual text does
    not hold a positive number of opening parentheses equal to its number
    of closing ones.  It is text with as many opening as closing
    parentheses that is rejected, not text with unmatched ones. *)
Theorem useComparisonOperator_accepts_iff (operatorInfo : string) :
  useComparisonOperator operatorInfo = true <->
  exists residual cols,
    scanOperators needCheckOperator (operatorInfo, []) false
      = Some ((residual, cols), true)
    /\ List.length cols = 1%nat
    /\ ~ (strings.Count residual "(" = strings.Count residual ")"
          /\ (0 < strings.Count residual "(")%nat).
Proof.
  unfold useComparisonOperator, residualParens.
  destruct (scanOperators needCheckOperator (operatorInfo, []) false)
    as [[[residual cols] found]|] eqn:Hscan.
  - split.
    + destruct found; [|discriminate].
      destruct (Nat.eqb (strings.Count residual "(") (strings.Count residual ")"))
        eqn:Heq;
        destruct (Nat.ltb 0 (strings.Count residual "(")) eqn:Hlt;
        cbn [andb negb]; try discriminate;
        destruct (Nat.eqb (List.length cols) 1) eqn:Hlen; cbn [andb negb]; try discriminate;
        intros _; exists residual, cols;
        (split; [reflexivity|]);
        (split; [apply Nat.eqb_eq; exact Hlen|]);
        intros [H1 H2].
      * apply Nat.ltb_ge in Hlt. lia.
      * apply Nat.eqb_neq in Heq. contradiction.
      * apply Nat.eqb_neq in Heq. contradiction.
    + intros (r & cs & Heq & Hlen & Hpar).
      injection Heq as -> -> ->.
      apply Nat.eqb_eq in Hlen. rewrite Hlen. cbn [andb negb].
      destruct (Nat.eqb (strings.Count r "(") (strings.Count r ")")) eqn:Hc;
        destruct (Nat.ltb 0 (strings.Count r "(")) eqn:Hl; cbn [andb negb]; try reflexivity.
      exfalso. apply Hpar. split.
      * apply Nat.eqb_eq. exact Hc.
      * apply Nat.ltb_lt. exact Hl.
  - split; [discriminate|].
    intros (r & cs & Heq & _). discriminate.
Qed.

(* ================================================================== *)
(** * The concurrency resolver: properties *)

(** What the entry of an index lookup does to the table multiplier: it is
    left as it is, or it becomes a positive effective table concurrency
    times the coprocessor multiplier. *)
Lemma getConcurrencyEntry_table (operator : operator) (entry : json)
    (c c' : concurrency) :
  operator = IndexLookUpReader \/ operator = IndexMergeReader ->
  getConcurrencyEntry operator entry c = Ok c' ->
  tableConcurrency c' = tableConcurrency c
  \/ exists t, 0 < t /\ tableConcurrency c' = mul64 t (copConcurrency c).
Proof.
  unfold getConcurrencyEntry.
  intros [-> | ->] H; bind_ok H;
    (destruct (div64 _ _) as [num|]; [|discriminate]);
    injection Hstep as <-; injection H as <-;
    match goal with
    | |- context [if 0 <? ?t then withTable _ _ else _] =>
        destruct (0 <? t) eqn:Ht
    end;
    match goal with
    | |- context [if 0 <? ?u then withCop _ _ else _] => destruct (0 <? u)
    end; simpl;
    try (left; reflexivity);
    right; eexists; (split; [apply Z.ltb_lt; exact Ht|reflexivity]).
Qed.

(** C4 (the code departs from the claim).  An index lookup that reports
    table-task concurrency 4 and 100 table tasks, resolved in a state whose
    join, coprocessor and table multipliers are 1, 5 and 3: the effective
    table concurrency is min(4, 100 / 1) = 4, and the new table multiplier
    is 4 * 5 = 20, the product with the coprocessor multiplier, where the
    claim has 4 * 3 = 12, the product with the incoming table multiplier. *)
Lemma getConcurrency_table_times_cop :
  getConcurrency lookupReader (getOperatorType lookupReader)
    (mkConcurrency 1 5 3 1 1)
  = Ok (mkConcurrency 1 5 20 1 1).
Proof. vm_compute. reflexivity. Qed.

(* ================================================================== *)
(** * The formatting pass: properties *)

(** A summary that does not convert contributes two entries, one that
    converts contributes one. *)
Lemma formatEntry_length {L : GoLib} (s : string) :
  List.length (formatEntry s)
  = match formatJSON s with Some _ => 1%nat | None => 2%nat end.
Proof. unfold formatEntry. destruct (formatJSON s); reflexivity. Qed.

(** C7 (the code departs from the claim).  The summary [a] does not
    convert; the grouped-info array of one entry comes out with two, the
    original string followed by a nil pointer, which serialises as
    [null]. *)
Lemma formatNode_failed_entry_appends_nil :
  formatJSON (L:=go) "a" = None
  /\ exists node',
       formatNode (L:=go) 2 groupedBadSummary = Ok node'
       /\ Get node' RootGroupExecInfo = JArray [JString "a"; JRef None].
Proof.
  split; [vm_compute; reflexivity|].
  eexists. split; vm_compute; reflexivity.
Qed.


(* ================================================================== *)
(** * The diagnostic rule engine: properties *)

(** Whenever one of the two row counts is zero the rule is silent. *)
Lemma estimationErrorHigh_zero (actRows estRows : float64) :
  f64.eqb actRows f64.zero = true \/ f64.eqb estRows f64.zero = true ->
  estimationErrorHigh actRows estRows = false.
Proof.
  unfold estimationErrorHigh. intros [H|H]; rewrite H.
  - reflexivity.
  - rewrite orb_true_r. reflexivity.
Qed.

(** C3 (the code departs from the claim).  A full scan with actual rows 0
    and estimated rows 500 is a leaf, so the flag is set; treating the zero
    as 1 gives a ratio of 500, above 100.  The code sets both counts to 1
    when either is zero and appends nothing. *)
Lemma diagnosticOperatorNode_zero_rows_no_warning :
  estimationErrorHigh (MustFloat64 (L:=go) (Get scanNoRows ActRows))
                      (MustFloat64 (L:=go) (Get scanNoRows EstRows)) = false
  /\ estimationErrorHigh (f64.ofInt 1) (f64.ofInt 500) = true
  /\ diagnosticOperatorNode (L:=go) 1 scanNoRows newDiagnosticOperation
     = Ok (mkDiagnosticOperation true, SetKey scanNoRows Diagnosis (JArray [])).
Proof. repeat split; vm_compute; reflexivity. Qed.

(* ================================================================== *)
(** * The duration analyzer: properties *)

(** C10 (the code departs from the claim).  Under an [Apply] none of whose
    children is tagged build or probe no duration is collected, and
    [durations[0]] is an index out of range: the call panics, whatever the
    library functions, the fuel and the state. *)
Lemma analyzeDurationNodes_apply_without_sides_panics
    (L : GoLib) (fuel : nat) (c : concurrency) :
  analyzeDurationNodes fuel (Get applyNoSides Children) Apply c
    = Panic IndexOutOfRange
  /\ analyzeDuration (obj [(MainTree, applyNoSides)]) = Panic IndexOutOfRange.
Proof.
  split; reflexivity.
Qed.

(** C2 (the code departs from the claim).  The build side of the [Apply]
    returned no row: the task count derived from it is 0, and the state
    handed to the probe side has apply multiplier 0.  The probe side, which
    ran 1s, is then attributed 1s / 0 and ends with duration 0s. *)
Lemma analyzeDurationNodes_apply_multiplier_zero :
  exists build',
    analyzeDurationNode (L:=go) 1 buildNoRows (withApply newConcurrency 1)
      = Ok (0, build')
    /\ probeConcurrency (L:=go) build' newConcurrency
       = Ok (mkConcurrency 1 1 1 0 1)
    /\ analyzeDurationNodes (L:=go) 1 (Get applyEmptyBuild Children) Apply
         newConcurrency
       = Ok (0, JArray [build';
                        SetKey probeOneSecond Duration (JString "0s")])
    /\ analyzeDurationNode (L:=go) 1 probeOneSecond newConcurrency
       = Ok (1000000000, SetKey probeOneSecond Duration (JString "1s")).
Proof.
  eexists. split; [vm_compute; reflexivity|].
  repeat split; vm_compute; reflexivity.
Qed.


(** C1, as stated, fails: after the pass the root of the main tree carries
    its raw time, 1s, which is less than the 2s of its child. *)
Lemma analyzeDuration_root_below_child_counterexample :
  exists vp',
    analyzeDuration (L:=go) planSlowChild = Ok vp'
    /\ Get (Get vp' MainTree) Duration = JString "1s"
    /\ Get (GetIndex (Get (Get vp' MainTree) Children) 0) Duration = JString "2s"
    /\ ParseDuration (GoLib:=go) "1s" = Some 1000000000
    /\ ParseDuration (GoLib:=go) "2s" = Some 2000000000.
Proof.
  eexists. split; [vm_compute; reflexivity|].
  repeat split; vm_compute; reflexivity.
Qed.

(** C9, as stated, fails: the root of the main tree has no time of its
    own; its reconciled duration is 2s, written as the text 2s by
    [analyzeDurationNode], and the pass ends with the empty text in its
    duration field, written by [analyzeDuration]. *)
Lemma analyzeDuration_root_written_twice_counterexample :
  exists main' vp',
    analyzeDurationNode (L:=go) 6 (Get planUntimedRoot MainTree) newConcurrency
      = Ok (2000000000, main')
    /\ Get main' Duration = JString "2s"
    /\ DurationString (GoLib:=go) 2000000000 = "2s"
    /\ analyzeDuration (L:=go) planUntimedRoot = Ok vp'
    /\ Get (Get vp' MainTree) Duration = JString "".
Proof.
  do 2 eexists. split; [vm_compute; reflexivity|].
  repeat split; vm_compute; reflexivity.
Qed.

(** ** What one call of [analyzeDurationNode] computes *)

Section DurationFacts.
Context {L : GoLib}.

Lemma splitAtSide_Some (side : string) (nodes pre post : list json) (n : json) :
  splitAtSide side nodes = Some (pre, n, post) ->
  nodes = (pre ++ n :: post)%list /\ driverSideIs n side = true.
Proof.
  revert pre. induction nodes as [|x nodes IH]; intros pre; simpl; [discriminate|].
  destruct (driverSideIs x side) eqn:E.
  - intros H. injection H as <- <- <-. split; [reflexivity|exact E].
  - destruct (splitAtSide side nodes) as [[[pre0 n0] post0]|]; [|discriminate].
    intros H. injection H as <- <- <-.
    destruct (IH pre0 eq_refl) as [-> Hn]. split; [reflexivity|exact Hn].
Qed.

Section Collect.
Variable analyzeNode : json -> concurrency -> outcome (Z * json).
Hypothesis analyzeNode_side :
  forall k ck x k', analyzeNode k ck = Ok (x, k') ->
                    Get k' DriverSide = Get k DriverSide.

Lemma analyzeOtherChildren_origin (operator : operator) (nodes : list json)
    (c : concurrency) (ds : list Z) (kids' : list json) :
  analyzeOtherChildren analyzeNode operator nodes c = Ok (ds, kids') ->
  Forall (fromChild analyzeNode nodes kids') ds.
Proof.
  revert ds kids'. induction nodes as [|n nodes IH]; intros ds kids' H; simpl in H.
  - injection H as <- <-. constructor.
  - bind_ok H. destruct r as [d n'].
    bind_ok H. destruct r as [ds0 rest'].
    injection H as <- <-.
    constructor.
    + exists n, (childConcurrency operator n c), n'.
      split; [left; reflexivity|]. split; [exact Hstep|left; reflexivity].
    + eapply Forall_impl; [|apply (IH _ _ Hstep0)].
      intros x (k & ck & k' & Hk & Hrun & Hk').
      exists k, ck, k'. split; [right; exact Hk|]. split; [exact Hrun|right; exact Hk'].
Qed.

(** Under a parent that is not an [Apply] every child is analysed, in
    order, each with the state [childConcurrency] selects for it. *)
Lemma analyzeOtherChildren_nth (operator : operator) (nodes : list json)
    (c : concurrency) (ds : list Z) (kids' : list json) :
  analyzeOtherChildren analyzeNode operator nodes c = Ok (ds, kids') ->
  forall i k,
    nth_error nodes i = Some k ->
    exists x k',
      nth_error ds i = Some x /\ nth_error kids' i = Some k'
      /\ analyzeNode k (childConcurrency operator k c) = Ok (x, k').
Proof.
  revert ds kids'. induction nodes as [|n nodes IH]; intros ds kids' H i k Hi.
  - destruct i; discriminate.
  - simpl in H. bind_ok H. destruct r as [d n'].
    bind_ok H. destruct r as [ds0 rest'].
    injection H as <- <-.
    destruct i as [|i]; simpl in Hi.
    + injection Hi as <-. exists d, n'. repeat split. exact Hstep.
    + destruct (IH _ _ Hstep0 i k Hi) as (x & k' & Hx & Hk' & Hrun).
      exists x, k'. repeat split; assumption.
Qed.

Lemma analyzeApplyChildren_origin (nodes : list json) (c : concurrency)
    (ds : list Z) (kids' : list json) :
  analyzeApplyChildren analyzeNode nodes c = Ok (ds, kids') ->
  Forall (fromChild analyzeNode nodes kids') ds.
Proof.
  unfold analyzeApplyChildren. intros H.
  bind_ok H. destruct r as [[ds1 nodes1] c1].
  assert (Hbuild :
    (ds1 = [] /\ nodes1 = nodes) \/
    exists pre n post d n',
      nodes = (pre ++ n :: post)%list /\ nodes1 = (pre ++ n' :: post)%list
      /\ ds1 = [d] /\ analyzeNode n (withApply c 1) = Ok (d, n')
      /\ driverSideIs n' "probe" = false).
  { destruct (splitAtSide "build" nodes) as [[[pre n] post]|] eqn:Hb.
    - right. bind_ok Hstep. destruct r as [d n'].
      bind_ok Hstep. injection Hstep as <- <- <-.
      apply splitAtSide_Some in Hb. destruct Hb as [-> Hn].
      exists pre, n, post, d, n'. repeat split; try reflexivity; try assumption.
      unfold driverSideIs in *.
      rewrite (analyzeNode_side _ _ _ _ Hstep0).
      apply String.eqb_eq in Hn. rewrite Hn. reflexivity.
    - left. injection Hstep as <- <- <-. split; reflexivity. }
  destruct (splitAtSide "probe" nodes1) as [[[pre2 p] post2]|] eqn:Hp.
  - bind_ok H. destruct r as [d2 p'].
    injection H as <- <-.
    apply splitAtSide_Some in Hp. destruct Hp as [Hnodes1 Hpside].
    destruct Hbuild as [[-> ->]|(pre & n & post & d & n' & -> & -> & -> & Hrun & Hn')].
    + simpl. constructor; [|constructor].
      exists p, c1, p'. rewrite Hnodes1.
      split; [apply in_elt|]. split; [exact Hstep0|apply in_elt].
    + assert (Hpin : In p (pre ++ n' :: post)%list) by (rewrite Hnodes1; apply in_elt).
      assert (Hn'in : In n' (pre2 ++ p :: post2)%list) by (rewrite <- Hnodes1; apply in_elt).
      assert (Hne : p <> n') by (intros ->; congruence).
      simpl. constructor; [|constructor; [|constructor]].
      * exists n, (withApply c 1), n'.
        split; [apply in_elt|]. split; [exact Hrun|].
        apply in_app_or in Hn'in. apply in_or_app.
        destruct Hn'in as [Hin|[Heq|Hin]]; [left; exact Hin|contradiction|].
        right. right. exact Hin.
      * exists p, c1, p'.
        split; [|split; [exact Hstep0|apply in_elt]].
        apply in_app_or in Hpin. apply in_or_app.
        destruct Hpin as [Hin|[Heq|Hin]]; [left; exact Hin| |].
        -- symmetry in Heq. contradiction.
        -- right. right. exact Hin.
  - injection H as <- <-.
    destruct Hbuild as [[-> ->]|(pre & n & post & d & n' & -> & -> & -> & Hrun & Hn')].
    + constructor.
    + constructor; [|constructor].
      exists n, (withApply c 1), n'.
      split; [apply in_elt|]. split; [exact Hrun|apply in_elt].
Qed.

Lemma collectDurations_origin (operator : operator) (nodes : list json)
    (c : concurrency) (ds : list Z) (kids' : list json) :
  collectDurations analyzeNode operator nodes c = Ok (ds, kids') ->
  Forall (fromChild analyzeNode nodes kids') ds.
Proof.
  destruct operator; simpl;
    solve [apply analyzeOtherChildren_origin | apply analyzeApplyChildren_origin].
Qed.
End Collect.

Lemma analyzeDurationNode_S (fuel : nat) (node : json) (c : concurrency) :
  analyzeDurationNode (S fuel) node c =
  (c' <- getConcurrency node (getOperatorType node) c ;;
   '(subDuration, children') <-
     analyzeDurationNodes fuel (Get node Children) (getOperatorType node) c' ;;
   let duration := if ownDuration node c <? subDuration then subDuration
                   else ownDuration node c in
   Ok (duration,
       SetKey (Put node Children children') Duration
         (JString (DurationString duration))))%outcome.
Proof. reflexivity. Qed.

Lemma analyzeDurationNode_inv (fuel : nat) (node : json) (c : concurrency)
    (d : Z) (node' : json) :
  analyzeDurationNode fuel node c = Ok (d, node') ->
  exists fuel' c' sub children',
    fuel = S fuel'
    /\ getConcurrency node (getOperatorType node) c = Ok c'
    /\ analyzeDurationNodes fuel' (Get node Children) (getOperatorType node) c'
       = Ok (sub, children')
    /\ d = Z.max (ownDuration node c) sub
    /\ node' = SetKey (Put node Children children') Duration
                 (JString (DurationString d)).
Proof.
  destruct fuel as [|fuel]; [discriminate|].
  rewrite analyzeDurationNode_S. intros H.
  bind_ok H. bind_ok H. destruct r0 as [sub children'].
  cbv zeta in H.
  assert (Hmax : (if ownDuration node c <? sub then sub else ownDuration node c)
                 = Z.max (ownDuration node c) sub).
  { destruct (ownDuration node c <? sub) eqn:E.
    - apply Z.ltb_lt in E. lia.
    - apply Z.ltb_ge in E. lia. }
  rewrite Hmax in H. injection H as <- <-.
  exists fuel, r, sub, children'. repeat split; assumption.
Qed.

Lemma Duration_neq_DriverSide : Duration <> DriverSide.
Proof. discriminate. Qed.

Lemma Children_neq_DriverSide : Children <> DriverSide.
Proof. discriminate. Qed.

(** The analysis of a node touches its [duration] and, through its
    children, its [children]; every other field is as before. *)
Lemma analyzeDurationNode_other_fields (fuel : nat) (node : json)
    (c : concurrency) (d : Z) (node' : json) (key : string) :
  analyzeDurationNode fuel node c = Ok (d, node') ->
  key <> Duration -> key <> Children ->
  Get node' key = Get node key.
Proof.
  intros H Hd Hc.
  apply analyzeDurationNode_inv in H.
  destruct H as (fuel' & c' & sub & children' & _ & _ & _ & _ & ->).
  rewrite Get_SetKey_other by (intros E; apply Hd; symmetry; exact E).
  rewrite Get_Put_other by (intros E; apply Hc; symmetry; exact E).
  reflexivity.
Qed.

Lemma analyzeDurationNode_written (fuel : nat) (node : json)
    (c : concurrency) (d : Z) (node' : json) (m : list (string * json)) :
  analyzeDurationNode fuel node c = Ok (d, node') ->
  node = JObject m ->
  Get node' Duration = JString (DurationString d).
Proof.
  intros H ->.
  apply analyzeDurationNode_inv in H.
  destruct H as (fuel' & c' & sub & children' & _ & _ & _ & _ & ->).
  destruct (Put_object m Children children') as [m' ->].
  apply Get_SetKey_same.
Qed.

Lemma analyzeDurationNodesWith_inv
    (analyzeNode : json -> concurrency -> outcome (Z * json))
    (nodes : json) (operator : operator) (c : concurrency)
    (sub : Z) (nodes' : json) :
  analyzeDurationNodesWith analyzeNode nodes operator c = Ok (sub, nodes') ->
  (MustArray nodes = [] /\ sub = 0 /\ nodes' = nodes)
  \/ exists ds kids',
       MustArray nodes <> []
       /\ collectDurations analyzeNode operator (MustArray nodes) c = Ok (ds, kids')
       /\ nodes' = JArray kids'
       /\ In sub ds
       /\ Forall (fun x => x <= sub) ds.
Proof.
  unfold analyzeDurationNodesWith.
  destruct (MustArray nodes) as [|n a] eqn:Ha.
  - intros H. injection H as <- <-. left. repeat split.
  - intros H. right. bind_ok H. destruct r as [ds kids'].
    destruct (sortDesc ds) as [|h t] eqn:Hs; [discriminate|].
    injection H as <- <-.
    destruct (sortDesc_head _ _ _ Hs) as [Hin Hall].
    exists ds, kids'. repeat split; try assumption. discriminate.
Qed.

End DurationFacts.

Section RootFacts.
Context {L : GoLib}.

Lemma analyzeOtherChildren_Default
    (analyzeNode : json -> concurrency -> outcome (Z * json))
    (nodes : list json) (c : concurrency) (ds : list Z) (kids' : list json) :
  analyzeOtherChildren analyzeNode Default nodes c = Ok (ds, kids') ->
  Forall2 (fun k k' => exists d, analyzeNode k c = Ok (d, k')) nodes kids'.
Proof.
  revert ds kids'. induction nodes as [|n nodes IH]; intros ds kids' H; simpl in H.
  - injection H as <- <-. constructor.
  - bind_ok H. destruct r as [d n'].
    bind_ok H. destruct r as [ds0 rest'].
    injection H as <- <-.
    constructor; [exists d; exact Hstep|].
    eapply IH. exact Hstep0.
Qed.

Lemma MainTree_neq_CteTrees : MainTree <> CteTrees.
Proof. discriminate. Qed.

Lemma Get_object_lookup (j : json) (key : string) (m : list (string * json)) :
  Get j key = JObject m ->
  exists fields, j = JObject fields /\ lookup fields key = Some (JObject m).
Proof.
  destruct j as [| | | | |fields|]; simpl; try discriminate.
  destruct (lookup fields key) as [v|] eqn:E; [|discriminate].
  intros ->. exists fields. split; [reflexivity|exact E].
Qed.

Lemma MustArray_Get_lookup (j : json) (key : string) :
  MustArray (Get j key) <> [] ->
  exists fields v, j = JObject fields /\ lookup fields key = Some v.
Proof.
  destruct j as [| | | | |fields|]; simpl; try (intros H; exfalso; apply H; reflexivity).
  destruct (lookup fields key) as [v|] eqn:E.
  - intros _. exists fields, v. split; [reflexivity|exact E].
  - intros H; exfalso; apply H; reflexivity.
Qed.

End RootFacts.

(** ** Where a failure of the duration analyzer comes from *)

Lemma depth_lookup (m : list (string * json)) (key : string) (v : json) :
  lookup m key = Some v -> (S (depth v) <= depth (JObject m))%nat.
Proof.
  simpl. induction m as [|[k0 v0] m IH]; simpl; [discriminate|].
  destruct (String.eqb k0 key).
  - intros H. injection H as ->. lia.
  - intros H. specialize (IH H). lia.
Qed.

Lemma depth_element (a : list json) (k : json) :
  In k a -> (S (depth k) <= depth (JArray a))%nat.
Proof.
  simpl. induction a as [|x a IH]; simpl; [contradiction|].
  intros [->|H]; [lia|]. specialize (IH H). lia.
Qed.

Lemma depth_child (n k : json) (key : string) :
  In k (MustArray (Get n key)) -> (depth k + 2 <= depth n)%nat.
Proof.
  destruct n as [| | | | |m|]; simpl Get; try contradiction.
  destruct (lookup m key) as [v|] eqn:E; [|contradiction].
  destruct v as [| | | |a| |]; simpl MustArray; try contradiction.
  intros H. apply depth_element in H. apply depth_lookup in E. lia.
Qed.

Section FailureOrigin.
Context {L : GoLib}.

Lemma getConcurrencyEntry_fail (operator : operator) (entry : json)
    (c : concurrency) (f : failure) :
  getConcurrencyEntry operator entry c = Fail f -> f = Panic DivideByZero.
Proof.
  unfold getConcurrencyEntry. intros H.
  apply bind_Fail in H. destruct H as [H|(a & _ & H)]; [|discriminate].
  destruct operator; try discriminate;
    destruct (div64 _ _); try discriminate;
    injection H as <-; reflexivity.
Qed.

Lemma getConcurrency_fail (node : json) (operator : operator)
    (c : concurrency) (f : failure) :
  getConcurrency node operator c = Fail f -> f = Panic DivideByZero.
Proof.
  unfold getConcurrency.
  generalize (MustArray (Get node RootGroupExecInfo)) as entries.
  intros entries. revert c.
  induction entries as [|entry entries IH]; intros c; simpl; [discriminate|].
  intros H. apply bind_Fail in H. destruct H as [H|(a & _ & H)].
  - eapply getConcurrencyEntry_fail. exact H.
  - eapply IH. exact H.
Qed.

Lemma lastCacheHitRatio_fail (entries : list json) (r : float64) (f : failure) :
  lastCacheHitRatio entries r = Fail f ->
  (exists s, f = Err s) /\ ~ Forall ratioTextParses entries.
Proof.
  revert r. induction entries as [|entry entries IH]; intros r; simpl; [discriminate|].
  destruct (String.eqb (strings.TrimRight (MustString (Get entry CacheHitRatio)) "%") "")
    eqn:E.
  - intros H. destruct (IH _ H) as [Hs Hn]. split; [exact Hs|].
    intros Hall. inversion Hall; subst. contradiction.
  - destruct (ParseFloat (strings.TrimRight (MustString (Get entry CacheHitRatio)) "%"))
      as [x|] eqn:P.
    + intros H. destruct (IH _ H) as [Hs Hn]. split; [exact Hs|].
      intros Hall. inversion Hall; subst. contradiction.
    + intros H. injection H as <-. split; [eexists; reflexivity|].
      intros Hall. inversion Hall as [|? ? Hentry _]; subst.
      destruct Hentry as [Hempty|Hparse].
      * apply String.eqb_neq in E. contradiction.
      * contradiction.
Qed.

Lemma probeConcurrency_fail (b : json) (c : concurrency) (f : failure) :
  probeConcurrency b c = Fail f ->
  (exists s, f = Err s) /\ ~ applyTextsParse b.
Proof.
  unfold probeConcurrency. intros H.
  apply bind_Fail in H. destruct H as [H|(r & _ & H)].
  - destruct (lastCacheHitRatio_fail _ _ _ H) as [Hs Hn].
    split; [exact Hs|]. intros [_ Hall]. contradiction.
  - destruct (ParseFloat (MustString (Get b ActRows))) as [x|] eqn:P; [discriminate|].
    injection H as <-. split; [eexists; reflexivity|].
    intros [Hrows _]. apply Hrows. exact P.
Qed.

Lemma applyTextsParse_fields (b b' : json) :
  Get b' ActRows = Get b ActRows ->
  Get b' RootGroupExecInfo = Get b RootGroupExecInfo ->
  applyTextsParse b -> applyTextsParse b'.
Proof.
  unfold applyTextsParse, rowsTextParses. intros -> ->. exact (fun H => H).
Qed.

Section Collect.
Variable analyzeNode : json -> concurrency -> outcome (Z * json).
Hypothesis analyzeNode_fields :
  forall k ck x k' key,
    analyzeNode k ck = Ok (x, k') ->
    key <> Duration -> key <> Children -> Get k' key = Get k key.

Lemma analyzeOtherChildren_fail (operator : operator) (nodes : list json)
    (c : concurrency) (f : failure) :
  analyzeOtherChildren analyzeNode operator nodes c = Fail f ->
  exists k ck, In k nodes /\ analyzeNode k ck = Fail f.
Proof.
  induction nodes as [|n nodes IH]; simpl; [discriminate|].
  intros H. apply bind_Fail in H. destruct H as [H|([d n'] & _ & H)].
  - exists n, (childConcurrency operator n c). split; [left; reflexivity|exact H].
  - apply bind_Fail in H. destruct H as [H|([ds rest'] & _ & H)]; [|discriminate].
    destruct (IH H) as (k & ck & Hin & Hk).
    exists k, ck. split; [right; exact Hin|exact Hk].
Qed.

Lemma analyzeApplyChildren_fail (nodes : list json) (c : concurrency)
    (f : failure) :
  analyzeApplyChildren analyzeNode nodes c = Fail f ->
  collectFailure analyzeNode Apply nodes f.
Proof.
  unfold analyzeApplyChildren, collectFailure. intros H.
  apply bind_Fail in H. destruct H as [H|([[ds1 nodes1] c1] & Hbuild & H)].
  - destruct (splitAtSide "build" nodes) as [[[pre n] post]|] eqn:Hb; [|discriminate].
    apply bind_Fail in H. destruct H as [H|([d n'] & Hrun & H)].
    + left. exists n, (withApply c 1).
      apply splitAtSide_Some in Hb. destruct Hb as [-> _].
      split; [apply in_elt|exact H].
    + apply bind_Fail in H. destruct H as [H|(c' & _ & H)]; [|discriminate].
      destruct (probeConcurrency_fail _ _ _ H) as [Hs Hn].
      right. split; [reflexivity|]. split; [exact Hs|].
      exists pre, n, post. split; [reflexivity|].
      intros Hp. apply Hn.
      apply (applyTextsParse_fields n n'); [| |exact Hp];
        eapply analyzeNode_fields; try exact Hrun; discriminate.
  - destruct (splitAtSide "probe" nodes1) as [[[pre2 p] post2]|] eqn:Hp; [|discriminate].
    apply bind_Fail in H. destruct H as [H|([d2 p'] & _ & H)]; [|discriminate].
    left. exists p, c1. split; [|exact H].
    apply splitAtSide_Some in Hp. destruct Hp as [Hnodes1 Hpside].
    destruct (splitAtSide "build" nodes) as [[[pre n] post]|] eqn:Hb.
    + bind_ok Hbuild. destruct r as [d n'].
      bind_ok Hbuild. injection Hbuild as <- <- <-.
      apply splitAtSide_Some in Hb. destruct Hb as [-> Hn].
      assert (Hpin : In p (pre ++ n' :: post)%list) by (rewrite Hnodes1; apply in_elt).
      assert (Hne : p <> n').
      { intros ->. unfold driverSideIs in *.
        rewrite (analyzeNode_fields _ _ _ _ DriverSide Hstep) in Hpside
          by discriminate.
        apply String.eqb_eq in Hn. rewrite Hn in Hpside. discriminate. }
      apply in_app_or in Hpin. apply in_or_app.
      destruct Hpin as [Hin|[Heq|Hin]]; [left; exact Hin| |].
      * symmetry in Heq. contradiction.
      * right. right. exact Hin.
    + injection Hbuild as <- <- <-. rewrite Hnodes1. apply in_elt.
Qed.

Lemma collectDurations_fail (operator : operator) (nodes : list json)
    (c : concurrency) (f : failure) :
  collectDurations analyzeNode operator nodes c = Fail f ->
  collectFailure analyzeNode operator nodes f.
Proof.
  destruct operator; simpl;
    solve [apply analyzeApplyChildren_fail
          | intros H; left; eapply analyzeOtherChildren_fail; exact H].
Qed.

Lemma analyzeDurationNodesWith_fail (nodes : json) (operator : operator)
    (c : concurrency) (f : failure) :
  analyzeDurationNodesWith analyzeNode nodes operator c = Fail f ->
  collectFailure analyzeNode operator (MustArray nodes) f \/ f = Panic IndexOutOfRange.
Proof.
  unfold analyzeDurationNodesWith.
  destruct (MustArray nodes) as [|n a] eqn:Ha; [discriminate|].
  intros H. apply bind_Fail in H. destruct H as [H|([ds kids'] & _ & H)].
  - left. apply collectDurations_fail in H. exact H.
  - right. destruct (sortDesc ds); [|discriminate].
    injection H as <-. reflexivity.
Qed.
End Collect.

Lemma analyzeDurationNode_failure (fuel : nat) :
  forall (node : json) (c : concurrency) (f : failure),
    analyzeDurationNode fuel node c = Fail f -> failureOrigin fuel node f.
Proof.
  induction fuel as [|fuel IH]; intros node c f.
  - simpl. intros H. injection H as <-. simpl. lia.
  - rewrite analyzeDurationNode_S. intros H.
    apply bind_Fail in H. destruct H as [H|(c' & _ & H)].
    { apply getConcurrency_fail in H. subst f. exact I. }
    apply bind_Fail in H. destruct H as [H|([sub children'] & _ & H)]; [|discriminate].
    unfold analyzeDurationNodes in H.
    apply analyzeDurationNodesWith_fail in H;
      [|intros k ck x k' key; apply analyzeDurationNode_other_fields].
    destruct H as [[(k & ck & Hin & Hk)|(Hop & Hs & pre & b & post & Hb & Hn)]| ->];
      [| |exact I].
    + specialize (IH _ _ _ Hk).
      destruct f as [e|p|]; simpl in *.
      * destruct IH as (n & pre & b & post & Hsub & Hrest).
        exists n, pre, b, post. split; [|exact Hrest].
        eapply subnode_child; eassumption.
      * exact I.
      * apply depth_child in Hin. lia.
    + destruct Hs as [s ->]. simpl.
      exists node, pre, b, post.
      split; [apply subnode_self|]. split; [exact Hop|]. split; assumption.
Qed.

(** Enough fuel: the analysis of a node never runs out of it when the
    fuel exceeds the depth of the node. *)
Lemma analyzeDurationNode_fuel (fuel : nat) (node : json) (c : concurrency) :
  (depth node < fuel)%nat -> analyzeDurationNode fuel node c <> Fail NoFuel.
Proof.
  intros Hd H. apply analyzeDurationNode_failure in H. simpl in H. lia.
Qed.

End FailureOrigin.

Lemma analyzeDuration_failure {L : GoLib} (vp : json) (f : failure) :
  analyzeDuration vp = Fail f -> passFailureOrigin vp f.
Proof.
  unfold analyzeDuration. intros H.
  apply bind_Fail in H. destruct H as [H|([d main'] & _ & H)].
  - apply analyzeDurationNode_failure in H.
    destruct f as [e|p|]; simpl in *.
    + destruct H as (n & pre & b & post & Hrest).
      exists (Get vp MainTree), n, pre, b, post. split; [left; reflexivity|exact Hrest].
    + exact I.
    + destruct vp as [| | | | |m|]; simpl in H; try lia.
      destruct (lookup m MainTree) as [v|] eqn:E; simpl in H; try lia.
      apply depth_lookup in E. simpl in E. lia.
  - apply bind_Fail in H. destruct H as [H|([s ctes'] & _ & H)]; [|discriminate].
    rewrite Get_Put_other in H by exact MainTree_neq_CteTrees.
    unfold analyzeDurationNodes in H.
    apply analyzeDurationNodesWith_fail in H;
      [|intros k ck x k' key; apply analyzeDurationNode_other_fields].
    destruct H as [[(k & ck & Hin & Hk)|(Hop & _)]| ->];
      [|discriminate|exact I].
    apply analyzeDurationNode_failure in Hk.
    destruct f as [e|p|]; simpl in *.
    + destruct Hk as (n & pre & b & post & Hrest).
      exists k, n, pre, b, post. split; [right; exact Hin|exact Hrest].
    + exact I.
    + apply depth_child in Hin. lia.
Qed.

(** The fuel [analyzeDuration] starts with is enough. *)
Lemma analyzeDuration_fuel {L : GoLib} (vp : json) :
  analyzeDuration vp <> Fail NoFuel.
Proof. intros H. apply analyzeDuration_failure in H. exact H. Qed.

(** ** A second application of the formatting pass *)

Section FormatFacts.
Context {L : GoLib}.

Lemma Get_setNA_other (n : json) (k key : string) :
  k <> key -> Get (setNA n k) key = Get n key.
Proof.
  intros Hne. unfold setNA.
  destruct (String.eqb (MustString (Get n k)) "-1"); [|reflexivity].
  apply Get_SetKey_other. exact Hne.
Qed.

Lemma Get_setNA_same (n : json) (k : string) :
  Get (setNA n k) k =
  if String.eqb (MustString (Get n k)) "-1" then JString "N/A" else Get n k.
Proof.
  unfold setNA.
  destruct (String.eqb (MustString (Get n k)) "-1") eqn:E; [|reflexivity].
  destruct n as [| | | | |m|]; try discriminate.
  apply Get_SetKey_same.
Qed.

Lemma Get_formatKey_other (n : json) (k key : string) :
  k <> key -> Get (formatKey n k) key = Get n key.
Proof.
  intros Hne. unfold formatKey.
  destruct (String.eqb k RootGroupExecInfo).
  - apply Get_SetKey_other. exact Hne.
  - destruct (formatJSON (MustString (Get n k))); [|reflexivity].
    apply Get_SetKey_other. exact Hne.
Qed.

Lemma formatFields_unfold (n : json) :
  formatFields n =
  formatKey (formatKey (formatKey (setNA (setNA n MemoryBytes) DiskBytes)
                          RootGroupExecInfo) RootBasicExecInfo) CopExecInfo.
Proof. reflexivity. Qed.

Lemma Get_formatFields_other (n : json) (key : string) :
  ~ In key needJSONFormat ->
  Get (formatFields n) key = Get (setNA (setNA n MemoryBytes) DiskBytes) key.
Proof.
  intros Hk. rewrite formatFields_unfold.
  rewrite !Get_formatKey_other; [reflexivity| | |];
    intros E; apply Hk; rewrite <- E; simpl; auto.
Qed.

Lemma Get_formatFields_Children (n : json) :
  Get (formatFields n) Children = Get n Children.
Proof.
  rewrite Get_formatFields_other.
  - rewrite !Get_setNA_other by discriminate. reflexivity.
  - simpl. intros [E|[E|[E|[]]]]; discriminate.
Qed.


Lemma formatChildren_stored (fmt : json -> outcome json) (x c1 : json) :
  formatChildrenNodesWith fmt (Get x Children) = Ok c1 ->
  Get (Put x Children c1) Children = c1.
Proof.
  unfold formatChildrenNodesWith. rewrite Get_Put_same.
  destruct x as [| | | | |m|]; simpl Get;
    try (simpl; intros H; injection H as <-; reflexivity).
  destruct (lookup m Children) as [v|]; [reflexivity|].
  simpl. intros H; injection H as <-; reflexivity.
Qed.

Lemma formatEach_Forall2 (fmt : json -> outcome json) (a a' : list json) :
  formatEach fmt a = Ok a' -> Forall2 (fun x x' => fmt x = Ok x') a a'.
Proof.
  revert a'. induction a as [|x a IH]; intros a' H; simpl in H.
  - injection H as <-. constructor.
  - bind_ok H. bind_ok H. injection H as <-.
    constructor; [exact Hstep|]. apply IH. exact Hstep0.
Qed.

Lemma formatNode_S (fuel : nat) (node : json) :
  formatNode (S fuel) node =
  (c' <- formatChildrenNodesWith (formatNode fuel) (Get (formatFields node) Children) ;;
   Ok (Put (formatFields node) Children c'))%outcome.
Proof. reflexivity. Qed.


Lemma formatEach_total (fmt : json -> outcome json) (a : list json) :
  (forall k, In k a -> exists k', fmt k = Ok k') ->
  exists a', formatEach fmt a = Ok a'.
Proof.
  induction a as [|k a IH]; intros H; simpl.
  - eexists; reflexivity.
  - destruct (H k (or_introl eq_refl)) as [k' ->].
    destruct IH as [a' ->]; [intros x Hx; apply H; right; exact Hx|].
    simpl. eexists; reflexivity.
Qed.

(** The formatting pass is total: with fuel above the depth of the node
    it returns, and it never returns an error. *)
Lemma formatNode_total (fuel : nat) :
  forall node, (depth node < fuel)%nat -> exists node', formatNode fuel node = Ok node'.
Proof.
  induction fuel as [|fuel IH]; intros node Hd; [lia|].
  rewrite formatNode_S, Get_formatFields_Children.
  unfold formatChildrenNodesWith.
  destruct (MustArray (Get node Children)) as [|k a] eqn:Ha.
  - simpl. eexists; reflexivity.
  - destruct (formatEach_total (formatNode fuel) (k :: a)) as [a' ->].
    + intros x Hx. apply IH.
      rewrite <- Ha in Hx. apply depth_child in Hx. lia.
    + simpl. eexists; reflexivity.
Qed.

End FormatFacts.


(* ================================================================== *)
(** * The theorems at concrete plans *)


(* ================================================================== *)
(** * Further properties *)

(** ** [cut] *)

Lemma HasPrefix_split (s p : string) :
  strings.HasPrefix s p = true -> s = (p ++ strings.drop (String.length p) s)%string.
Proof.
  revert s. induction p as [|c p IH]; intros s H; simpl.
  - destruct s; reflexivity.
  - destruct s as [|d s]; simpl in H; [discriminate|].
    apply andb_prop in H. destruct H as [Hc Hp].
    apply Ascii.eqb_eq in Hc. subst d.
    simpl. f_equal. apply IH. exact Hp.
Qed.

Lemma Index_eq (s sep : string) :
  strings.Index s sep =
  if strings.HasPrefix s sep then Some 0%nat
  else match s with
       | "" => None
       | String _ s' => option_map S (strings.Index s' sep)
       end.
Proof. destruct s; reflexivity. Qed.

Lemma Index_Some (s sep : string) (i : nat) :
  strings.Index s sep = Some i ->
  s = (strings.take i s ++ sep ++ strings.drop (i + String.length sep) s)%string
  /\ String.length (strings.take i s) = i
  /\ forall j, (j < i)%nat -> strings.HasPrefix (strings.drop j s) sep = false.
Proof.
  revert i. induction s as [|c s IH]; intros i; rewrite Index_eq.
  - destruct (strings.HasPrefix "" sep) eqn:E; [|discriminate].
    intros H. injection H as <-.
    split; [|split; [reflexivity|intros j Hj; lia]].
    apply HasPrefix_split in E. exact E.
  - destruct (strings.HasPrefix (String c s) sep) eqn:E.
    + intros H. injection H as <-.
      split; [|split; [reflexivity|intros j Hj; lia]].
      apply HasPrefix_split in E. exact E.
    + destruct (strings.Index s sep) as [i'|] eqn:Ei; [|discriminate].
      simpl option_map. intros H. injection H as <-.
      destruct (IH i' eq_refl) as (Hs & Hl & Hfirst).
      split; [|split].
      * simpl. f_equal. exact Hs.
      * simpl. f_equal. exact Hl.
      * intros j Hj. destruct j as [|j]; [exact E|].
        simpl. apply Hfirst. lia.
Qed.

(** X1.  When [cut] finds the separator, the text is [before], the
    separator and [after] in this order, and the separator occurs at no
    offset inside [before]: the cut is at the first occurrence.  When it
    does not, [before] is the whole text, [after] is empty and the text
    does not contain the separator. *)
Theorem cut_first_occurrence (s sep : string) :
  let '(before, after, found) := cut s sep in
  if found then
    s = (before ++ sep ++ after)%string
    /\ forall j, (j < String.length before)%nat ->
                 strings.HasPrefix (strings.drop j s) sep = false
  else before = s /\ after = "" /\ strings.Contains s sep = false.
Proof.
  unfold cut, strings.Contains.
  destruct (strings.Index s sep) as [i|] eqn:E.
  - destruct (Index_Some _ _ _ E) as (Hs & Hl & Hfirst).
    split; [exact Hs|]. rewrite Hl. exact Hfirst.
  - repeat split.
Qed.

(** ** [getOperatorType] *)

(** X2.  The classification goes by the prefix of the name, whatever
    follows it.  [IndexMergeJoin] wins over [IndexMerge]; a name that
    begins with [ShuffleReceiver] is a receiver; a name that begins with
    [Shuffle] is a shuffle exactly when it does not mention
    [ShuffleReceiver] anywhere, and is otherwise, unless it begins with it,
    of no known kind.  Only the text of the [name] field of a node
    matters. *)
Theorem getOperatorType_by_prefix (rest : string) :
  (forall node,
      getOperatorType node = getOperatorType (named (MustString (Get node OperatorName))))
  /\ getOperatorType (named ("IndexJoin" ++ rest)) = IndexJoin
  /\ getOperatorType (named ("IndexMergeJoin" ++ rest)) = IndexMergeJoin
  /\ getOperatorType (named ("IndexHashJoin" ++ rest)) = IndexHashJoin
  /\ getOperatorType (named ("Apply" ++ rest)) = Apply
  /\ getOperatorType (named ("ShuffleReceiver" ++ rest)) = ShuffleReceiver
  /\ getOperatorType (named ("Shuffle" ++ rest))
     = (if strings.Contains ("Shuffle" ++ rest) "ShuffleReceiver"
        then if strings.HasPrefix rest "Receiver" then ShuffleReceiver else Default
        else Shuffle)
  /\ getOperatorType (named ("IndexLookUp" ++ rest)) = IndexLookUpReader
  /\ getOperatorType (named ("IndexMerge" ++ rest))
     = (if strings.HasPrefix rest "Join" then IndexMergeJoin else IndexMergeReader)
  /\ getOperatorType (named ("IndexFullScan" ++ rest)) = IndexFullScan
  /\ getOperatorType (named ("IndexRangeScan" ++ rest)) = IndexRangeScan
  /\ getOperatorType (named ("TableFullScan" ++ rest)) = TableFullScan
  /\ getOperatorType (named ("TableRangeScan" ++ rest)) = TableRangeScan
  /\ getOperatorType (named ("TableRowIDScan" ++ rest)) = TableRowIDScan
  /\ getOperatorType (named ("Selection" ++ rest)) = Selection.
Proof.
  unfold getOperatorType, named, obj.
  repeat split; try (destruct rest; reflexivity).
  - destruct rest as [|a rest].
    + reflexivity.
    + cbn -[strings.Contains].
      destruct (strings.Contains _ "ShuffleReceiver");
        destruct (Ascii.eqb a "R"); cbn;
        destruct (strings.HasPrefix rest "eceiver"); reflexivity.
Qed.

(** ** [useComparisonOperator] without a token *)

Lemma scanOperators_no_token (ops : list string) (st : scanState) (found : bool) :
  existsb (strings.Contains (fst st)) ops = false ->
  scanOperators ops st found = Some (st, found).
Proof.
  induction ops as [|op ops IH]; simpl; [reflexivity|].
  intros H. apply orb_false_elim in H. destruct H as [Hop Hops].
  rewrite Hop. apply IH. exact Hops.
Qed.

(** X3.  A text the matcher accepts mentions one of the seven operator
    tokens; a text that mentions none of them, the empty text included, is
    rejected. *)
Theorem useComparisonOperator_needs_token (operatorInfo : string) :
  useComparisonOperator operatorInfo = true ->
  exists op, In op needCheckOperator /\ strings.Contains operatorInfo op = true.
Proof.
  intros H.
  destruct (existsb (strings.Contains operatorInfo) needCheckOperator) eqn:E.
  - apply existsb_exists in E. exact E.
  - unfold useComparisonOperator in H.
    rewrite (scanOperators_no_token needCheckOperator (operatorInfo, []) false E) in H.
    discriminate.
Qed.

Lemma useComparisonOperator_needs_token_witness :
  useComparisonOperator "eq(test.t.a, 1)" = true
  /\ exists op, In op needCheckOperator
                /\ strings.Contains "eq(test.t.a, 1)" op = true.
Proof.
  split; [vm_compute; reflexivity|].
  apply (useComparisonOperator_needs_token "eq(test.t.a, 1)").
  vm_compute. reflexivity.
Defined.

(** ** [getConcurrency]: what it changes and when it fails *)

Lemma getConcurrencyEntry_frame (operator : operator) (entry : json)
    (c c' : concurrency) :
  getConcurrencyEntry operator entry c = Ok c' ->
  (isJoin operator = false -> joinConcurrency c' = joinConcurrency c)
  /\ (operator <> Apply -> applyConcurrency c' = applyConcurrency c)
  /\ (isLookup operator = false -> tableConcurrency c' = tableConcurrency c)
  /\ (operator <> Shuffle -> shuffleConcurrency c' = shuffleConcurrency c).
Proof.
  unfold getConcurrencyEntry. intros H. bind_ok H.
  injection H as <-.
  assert (Hcop : forall x : concurrency,
             joinConcurrency
               (if 0 <? atoiAt entry ["cop_task"; "distsql_concurrency"]
                then withCop x (mul64 (atoiAt entry ["cop_task"; "distsql_concurrency"])
                                  (copConcurrency x))
                else x) = joinConcurrency x
             /\ applyConcurrency
                  (if 0 <? atoiAt entry ["cop_task"; "distsql_concurrency"]
                   then withCop x (mul64 (atoiAt entry ["cop_task"; "distsql_concurrency"])
                                     (copConcurrency x))
                   else x) = applyConcurrency x
             /\ tableConcurrency
                  (if 0 <? atoiAt entry ["cop_task"; "distsql_concurrency"]
                   then withCop x (mul64 (atoiAt entry ["cop_task"; "distsql_concurrency"])
                                     (copConcurrency x))
                   else x) = tableConcurrency x
             /\ shuffleConcurrency
                  (if 0 <? atoiAt entry ["cop_task"; "distsql_concurrency"]
                   then withCop x (mul64 (atoiAt entry ["cop_task"; "distsql_concurrency"])
                                     (copConcurrency x))
                   else x) = shuffleConcurrency x).
  { intros x. destruct (0 <? atoiAt entry ["cop_task"; "distsql_concurrency"]);
      repeat split. }
  destruct (Hcop r) as (Hj & Ha & Ht & Hs).
  rewrite Hj, Ha, Ht, Hs. clear Hcop Hj Ha Ht Hs.
  destruct operator; simpl in Hstep;
    try (destruct (div64 _ _); [|discriminate]);
    injection Hstep as <-;
    repeat match goal with
           | |- context [if ?b then _ else _] => destruct b
           end;
    simpl; repeat split; intros; try reflexivity; try discriminate; try contradiction.
Qed.

Lemma getConcurrencyEntries_frame (operator : operator) (entries : list json) :
  forall c c',
    getConcurrencyEntries operator entries c = Ok c' ->
    (isJoin operator = false -> joinConcurrency c' = joinConcurrency c)
    /\ (operator <> Apply -> applyConcurrency c' = applyConcurrency c)
    /\ (isLookup operator = false -> tableConcurrency c' = tableConcurrency c)
    /\ (operator <> Shuffle -> shuffleConcurrency c' = shuffleConcurrency c).
Proof.
  induction entries as [|entry entries IH]; intros c c' H; simpl in H.
  - injection H as <-. repeat split.
  - bind_ok H.
    destruct (getConcurrencyEntry_frame _ _ _ _ Hstep) as (Hj & Ha & Ht & Hs).
    destruct (IH _ _ H) as (Hj' & Ha' & Ht' & Hs').
    repeat split; intros Hop.
    + rewrite Hj', Hj by exact Hop. reflexivity.
    + rewrite Ha', Ha by exact Hop. reflexivity.
    + rewrite Ht', Ht by exact Hop. reflexivity.
    + rewrite Hs', Hs by exact Hop. reflexivity.
Qed.

(** X4.  Each operator kind resolves its own multiplier only: besides the
    coprocessor multiplier, the join kinds change nothing but the join
    multiplier, [Apply] nothing but the apply multiplier, the index lookup
    kinds nothing but the table multiplier, [Shuffle] nothing but the
    shuffle multiplier, and every other kind none of the four. *)
Theorem getConcurrency_frame (node : json) (operator : operator)
    (c c' : concurrency) :
  getConcurrency node operator c = Ok c' ->
  (isJoin operator = false -> joinConcurrency c' = joinConcurrency c)
  /\ (operator <> Apply -> applyConcurrency c' = applyConcurrency c)
  /\ (isLookup operator = false -> tableConcurrency c' = tableConcurrency c)
  /\ (operator <> Shuffle -> shuffleConcurrency c' = shuffleConcurrency c).
Proof. apply getConcurrencyEntries_frame. Qed.

Lemma getConcurrency_frame_witness :
  getConcurrency lookupReader IndexLookUpReader (mkConcurrency 2 5 3 7 11)
    = Ok (mkConcurrency 2 5 20 7 11)
  /\ joinConcurrency (mkConcurrency 2 5 20 7 11) = 2
  /\ applyConcurrency (mkConcurrency 2 5 20 7 11) = 7
  /\ shuffleConcurrency (mkConcurrency 2 5 20 7 11) = 11.
Proof.
  split; [vm_compute; reflexivity|].
  destruct (getConcurrency_frame lookupReader IndexLookUpReader
              (mkConcurrency 2 5 3 7 11) (mkConcurrency 2 5 20 7 11) eq_refl)
    as (Hj & Ha & _ & Hs).
  split; [apply Hj; reflexivity|].
  split; [apply Ha; discriminate|apply Hs; discriminate].
Defined.

Lemma getConcurrencyEntry_fail_lookup (operator : operator) (entry : json)
    (c : concurrency) (f : failure) :
  getConcurrencyEntry operator entry c = Fail f ->
  f = Panic DivideByZero /\ isLookup operator = true /\ joinConcurrency c = 0.
Proof.
  unfold getConcurrencyEntry. intros H.
  apply bind_Fail in H. destruct H as [H|(a & _ & H)]; [|discriminate].
  destruct operator; try discriminate;
    unfold div64 in H;
    (destruct (joinConcurrency c =? 0) eqn:E; [|discriminate]);
    injection H as <-;
    apply Z.eqb_eq in E; repeat split; assumption.
Qed.

(** X5.  [getConcurrency] fails in one case only, with the division by
    zero of the table-task count by the join multiplier: it panics exactly
    when the operator is an index lookup kind, the incoming join
    multiplier is 0 and the node has at least one grouped summary.  In
    every other case it returns a state. *)
Theorem getConcurrency_fails_iff (node : json) (operator : operator)
    (c : concurrency) :
  (forall f, getConcurrency node operator c = Fail f -> f = Panic DivideByZero)
  /\ ((exists f, getConcurrency node operator c = Fail f)
      <-> (isLookup operator = true
           /\ joinConcurrency c = 0
           /\ MustArray (Get node RootGroupExecInfo) <> [])).
Proof.
  split; [intros f; apply getConcurrency_fail|].
  unfold getConcurrency.
  generalize (MustArray (Get node RootGroupExecInfo)) as entries. intros entries.
  split.
  - intros [f H].
    assert (Hgen : forall c0, getConcurrencyEntries operator entries c0 = Fail f ->
                     isLookup operator = true
                     /\ joinConcurrency c0 = 0 /\ entries <> []).
    { clear H. induction entries as [|entry entries IH]; intros c0 H; simpl in H;
        [discriminate|].
      apply bind_Fail in H. destruct H as [H|(c1 & Hc1 & H)].
      - apply getConcurrencyEntry_fail_lookup in H. destruct H as (_ & Hl & Hj).
        repeat split; try assumption. discriminate.
      - destruct (IH _ H) as (Hl & Hj & _).
        destruct (getConcurrencyEntry_frame _ _ _ _ Hc1) as (Hframe & _).
        repeat split; try assumption; [|discriminate].
        rewrite <- Hframe; [exact Hj|].
        destruct operator; try discriminate; reflexivity. }
    exact (Hgen c H).
  - intros (Hl & Hj & Hne).
    destruct entries as [|entry entries]; [contradiction|].
    exists (Panic DivideByZero).
    simpl. unfold getConcurrencyEntry, div64.
    destruct operator; try discriminate; rewrite Hj; reflexivity.
Qed.

(** ** Trees that agree outside some keys *)

Lemma Forall2_refl_in {A : Type} (R : A -> A -> Prop) (l : list A) :
  (forall x, In x l -> R x x) -> Forall2 R l l.
Proof.
  induction l as [|x l IH]; intros H; constructor.
  - apply H. left. reflexivity.
  - apply IH. intros y Hy. apply H. right. exact Hy.
Qed.

Lemma Forall2_trans_in {A : Type} (R : A -> A -> Prop) (l1 : list A) :
  forall l2 l3,
    (forall x, In x l1 -> forall y z, R x y -> R y z -> R x z) ->
    Forall2 R l1 l2 -> Forall2 R l2 l3 -> Forall2 R l1 l3.
Proof.
  induction l1 as [|x l1 IH]; intros l2 l3 Htr H12 H23.
  - inversion H12; subst. inversion H23; subst. constructor.
  - inversion H12 as [|? y ? l2' Hxy H12']; subst.
    inversion H23 as [|? z ? l3' Hyz H23']; subst.
    constructor.
    + eapply Htr; [left; reflexivity|exact Hxy|exact Hyz].
    + eapply IH; [|exact H12'|exact H23'].
      intros x0 Hx0. apply Htr. right. exact Hx0.
Qed.

Lemma sameExcept_refl_depth (keys : list string) (d : nat) :
  forall n, (depth n < d)%nat -> sameExcept keys n n.
Proof.
  induction d as [|d IH]; intros n Hd; [lia|].
  constructor; [reflexivity|].
  apply Forall2_refl_in. intros k Hk.
  apply IH. apply depth_child in Hk. lia.
Qed.

Lemma sameExcept_refl (keys : list string) (n : json) : sameExcept keys n n.
Proof. apply (sameExcept_refl_depth keys (S (depth n))). lia. Qed.

Lemma sameExcept_trans_depth (keys : list string) (d : nat) :
  forall n1 n2 n3,
    (depth n1 < d)%nat ->
    sameExcept keys n1 n2 -> sameExcept keys n2 n3 -> sameExcept keys n1 n3.
Proof.
  induction d as [|d IH]; intros n1 n2 n3 Hd H12 H23; [lia|].
  inversion H12 as [? ? Hk12 Hc12]; subst.
  inversion H23 as [? ? Hk23 Hc23]; subst.
  constructor.
  - intros key Hkey Hch. rewrite Hk23, Hk12 by assumption. reflexivity.
  - eapply Forall2_trans_in; [|exact Hc12|exact Hc23].
    intros k Hk y z. apply IH. apply depth_child in Hk. lia.
Qed.

Lemma sameExcept_trans (keys : list string) (n1 n2 n3 : json) :
  sameExcept keys n1 n2 -> sameExcept keys n2 n3 -> sameExcept keys n1 n3.
Proof. apply (sameExcept_trans_depth keys (S (depth n1))). lia. Qed.

Lemma Forall2_replace {A : Type} (R : A -> A -> Prop) (pre post : list A) (x y : A) :
  (forall a, R a a) -> R x y ->
  Forall2 R (pre ++ x :: post) (pre ++ y :: post).
Proof.
  intros Hrefl Hxy. apply Forall2_app.
  - apply Forall2_refl_in. intros a _. apply Hrefl.
  - constructor; [exact Hxy|].
    apply Forall2_refl_in. intros a _. apply Hrefl.
Qed.

(** ** The duration analyzer: shape, sign and panics *)

Section DurationShape.
Context {L : GoLib}.

Section Collect.
Variable analyzeNode : json -> concurrency -> outcome (Z * json).
Variable R : json -> json -> Prop.
Hypothesis R_refl : forall a, R a a.
Hypothesis R_trans : forall a b c, R a b -> R b c -> R a c.
Hypothesis analyzeNode_R :
  forall k ck x k', analyzeNode k ck = Ok (x, k') -> R k k'.

Lemma analyzeOtherChildren_Forall2 (operator : operator) (nodes : list json)
    (c : concurrency) (ds : list Z) (kids' : list json) :
  analyzeOtherChildren analyzeNode operator nodes c = Ok (ds, kids') ->
  Forall2 R nodes kids'.
Proof.
  revert ds kids'. induction nodes as [|n nodes IH]; intros ds kids' H; simpl in H.
  - injection H as <- <-. constructor.
  - bind_ok H. destruct r as [d n'].
    bind_ok H. destruct r as [ds0 rest'].
    injection H as <- <-.
    constructor; [eapply analyzeNode_R; exact Hstep|].
    eapply IH. exact Hstep0.
Qed.

Lemma analyzeApplyChildren_Forall2 (nodes : list json) (c : concurrency)
    (ds : list Z) (kids' : list json) :
  analyzeApplyChildren analyzeNode nodes c = Ok (ds, kids') ->
  Forall2 R nodes kids'.
Proof.
  unfold analyzeApplyChildren. intros H.
  bind_ok H. destruct r as [[ds1 nodes1] c1].
  assert (H1 : Forall2 R nodes nodes1).
  { destruct (splitAtSide "build" nodes) as [[[pre n] post]|] eqn:Hb.
    - bind_ok Hstep. destruct r as [d n'].
      bind_ok Hstep. injection Hstep as <- <- <-.
      apply splitAtSide_Some in Hb. destruct Hb as [-> _].
      apply Forall2_replace; [exact R_refl|].
      eapply analyzeNode_R. exact Hstep0.
    - injection Hstep as <- <- <-.
      apply Forall2_refl_in. intros a _. apply R_refl. }
  assert (H2 : Forall2 R nodes1 kids').
  { destruct (splitAtSide "probe" nodes1) as [[[pre2 p] post2]|] eqn:Hp.
    - bind_ok H. destruct r as [d2 p'].
      injection H as <- <-.
      apply splitAtSide_Some in Hp. destruct Hp as [-> _].
      apply Forall2_replace; [exact R_refl|].
      eapply analyzeNode_R. exact Hstep0.
    - injection H as <- <-.
      apply Forall2_refl_in. intros a _. apply R_refl. }
  eapply Forall2_trans_in; [|exact H1|exact H2].
  intros x _ y z. apply R_trans.
Qed.

Lemma collectDurations_Forall2 (operator : operator) (nodes : list json)
    (c : concurrency) (ds : list Z) (kids' : list json) :
  collectDurations analyzeNode operator nodes c = Ok (ds, kids') ->
  Forall2 R nodes kids'.
Proof.
  destruct operator; simpl;
    solve [apply analyzeOtherChildren_Forall2 | apply analyzeApplyChildren_Forall2].
Qed.

(** The collected durations are empty only under an [Apply] without a
    build-side and without a probe-side child. *)
Lemma collectDurations_empty (operator : operator) (nodes : list json)
    (c : concurrency) (kids' : list json) :
  collectDurations analyzeNode operator nodes c = Ok ([], kids') ->
  nodes = []
  \/ (operator = Apply
      /\ splitAtSide "build" nodes = None /\ splitAtSide "probe" nodes = None).
Proof.
  assert (Hother : forall op,
             analyzeOtherChildren analyzeNode op nodes c = Ok ([], kids') ->
             nodes = []).
  { intros op H. destruct nodes as [|n nodes]; [reflexivity|].
    simpl in H. bind_ok H. destruct r as [d n'].
    bind_ok H. destruct r as [ds0 rest']. discriminate. }
  destruct operator; simpl; try (intros H; left; eapply Hother; exact H).
  unfold analyzeApplyChildren. intros H. right. split; [reflexivity|].
  bind_ok H. destruct r as [[ds1 nodes1] c1].
  destruct (splitAtSide "build" nodes) as [[[pre n] post]|] eqn:Hb.
  - bind_ok Hstep. destruct r as [d n'].
    bind_ok Hstep. injection Hstep as <- <- <-.
    destruct (splitAtSide "probe" (pre ++ n' :: post)) as [[[pre2 p] post2]|].
    + apply bind_Ok in H. destruct H as ([d2 p'] & _ & H).
      simpl in H. discriminate H.
    + discriminate H.
  - injection Hstep as <- <- <-. split; [reflexivity|].
    destruct (splitAtSide "probe" nodes) as [[[pre2 p] post2]|]; [|reflexivity].
    apply bind_Ok in H. destruct H as ([d2 p'] & _ & H).
    simpl in H. discriminate H.
Qed.
End Collect.

Lemma analyzeDurationNodes_stored
    (analyzeNode : json -> concurrency -> outcome (Z * json))
    (node : json) (operator : operator) (c : concurrency) (sub : Z) (ch' : json) :
  analyzeDurationNodesWith analyzeNode (Get node Children) operator c = Ok (sub, ch') ->
  Get (Put node Children ch') Children = ch'.
Proof.
  intros H. apply analyzeDurationNodesWith_inv in H.
  destruct H as [(_ & _ & ->)|(ds & kids' & Hne & _ & -> & _)].
  - apply Get_Put_Get.
  - rewrite Get_Put_same.
    destruct (MustArray_Get_lookup _ _ Hne) as (fields & v & -> & Hl).
    rewrite Hl. reflexivity.
Qed.

Lemma analyzeDurationNode_sameExcept (fuel : nat) :
  forall node c d node',
    analyzeDurationNode fuel node c = Ok (d, node') ->
    sameExcept [Duration] node node'.
Proof.
  induction fuel as [|fuel IH]; intros node c d node' H; [discriminate|].
  destruct (analyzeDurationNode_inv _ _ _ _ _ H)
    as (fuel' & c' & sub & ch' & Hf & _ & Hsub & _ & ->).
  injection Hf as <-.
  constructor.
  - intros key Hk Hc.
    rewrite Get_SetKey_other by (intros E; apply Hk; left; exact E).
    rewrite Get_Put_other by (intros E; apply Hc; symmetry; exact E).
    reflexivity.
  - rewrite Get_SetKey_other by discriminate.
    unfold analyzeDurationNodes in Hsub.
    rewrite (analyzeDurationNodes_stored _ _ _ _ _ _ Hsub).
    apply analyzeDurationNodesWith_inv in Hsub.
    destruct Hsub as [(Hnil & _ & ->)|(ds & kids' & _ & Hcol & -> & _)].
    + rewrite Hnil. constructor.
    + simpl MustArray.
      eapply (collectDurations_Forall2 (analyzeDurationNode fuel)
                (sameExcept [Duration])); [| | |exact Hcol].
      * apply sameExcept_refl.
      * apply sameExcept_trans.
      * intros k ck x k'. apply IH.
Qed.

Lemma analyzeDurationNode_nonneg (fuel : nat) :
  forall node c d node',
    analyzeDurationNode fuel node c = Ok (d, node') -> 0 <= d.
Proof.
  induction fuel as [|fuel IH]; intros node c d node' H; [discriminate|].
  destruct (analyzeDurationNode_inv _ _ _ _ _ H)
    as (fuel' & c' & sub & ch' & Hf & _ & Hsub & -> & _).
  injection Hf as <-.
  assert (0 <= sub); [|lia].
  unfold analyzeDurationNodes in Hsub.
  apply analyzeDurationNodesWith_inv in Hsub.
  destruct Hsub as [(_ & -> & _)|(ds & kids' & _ & Hcol & _ & Hin & _)]; [lia|].
  apply collectDurations_origin in Hcol.
  - rewrite Forall_forall in Hcol.
    destruct (Hcol sub Hin) as (k & ck & k' & _ & Hrun & _).
    eapply IH. exact Hrun.
  - intros k ck x k' Hrun.
    eapply analyzeDurationNode_other_fields; [exact Hrun| |]; discriminate.
Qed.

Lemma analyzeDurationNodesWith_panic
    (analyzeNode : json -> concurrency -> outcome (Z * json))
    (nodes : json) (operator : operator) (c : concurrency) (p : panic) :
  (forall k ck x k' key,
      analyzeNode k ck = Ok (x, k') ->
      key <> Duration -> key <> Children -> Get k' key = Get k key) ->
  analyzeDurationNodesWith analyzeNode nodes operator c = Fail (Panic p) ->
  (exists k ck, In k (MustArray nodes) /\ analyzeNode k ck = Fail (Panic p))
  \/ (p = IndexOutOfRange /\ operator = Apply /\ MustArray nodes <> []
      /\ splitAtSide "build" (MustArray nodes) = None
      /\ splitAtSide "probe" (MustArray nodes) = None).
Proof.
  intros Hfields. unfold analyzeDurationNodesWith.
  destruct (MustArray nodes) as [|n a] eqn:Ha; [discriminate|].
  intros H. apply bind_Fail in H. destruct H as [H|([ds kids'] & Hcol & H)].
  - left. apply collectDurations_fail in H; [|exact Hfields].
    destruct H as [H|(_ & [s Hs] & _)]; [exact H|discriminate].
  - right. destruct (sortDesc ds) as [|h t] eqn:Hs; [|discriminate].
    injection H as <-. apply sortDesc_nil in Hs. subst ds.
    apply collectDurations_empty in Hcol.
    destruct Hcol as [Hnil|(Hop & Hb & Hp)]; [discriminate|].
    repeat split; try assumption. discriminate.
Qed.

Lemma analyzeDurationNode_panic (fuel : nat) :
  forall node c p,
    analyzeDurationNode fuel node c = Fail (Panic p) ->
    exists n, subnode node n /\ panicSite n p.
Proof.
  induction fuel as [|fuel IH]; intros node c p H; [discriminate|].
  rewrite analyzeDurationNode_S in H.
  apply bind_Fail in H. destruct H as [H|(c' & _ & H)].
  - exists node. split; [apply subnode_self|].
    assert (Hf : exists f, getConcurrency node (getOperatorType node) c = Fail f)
      by (eexists; exact H).
    destruct (getConcurrency_fails_iff node (getOperatorType node) c) as [Hp Hiff].
    apply Hp in H. injection H as ->.
    apply Hiff in Hf. destruct Hf as (Hl & _ & Hne).
    split; assumption.
  - apply bind_Fail in H. destruct H as [H|([sub children'] & _ & H)]; [|discriminate].
    unfold analyzeDurationNodes in H.
    apply analyzeDurationNodesWith_panic in H;
      [|intros k ck x k' key; apply analyzeDurationNode_other_fields].
    destruct H as [(k & ck & Hin & Hk)|(-> & Hop & Hne & Hb & Hp)].
    + destruct (IH _ _ _ Hk) as (n & Hsub & Hsite).
      exists n. split; [eapply subnode_child; eassumption|exact Hsite].
    + exists node. split; [apply subnode_self|].
      repeat split; assumption.
Qed.

End DurationShape.

(** X6.  The duration pass changes nothing but durations: after the
    analysis of a node, the node and every node below it have the same
    number of children and the same value under every key other than
    [duration] as before. *)
Theorem analyzeDurationNode_keeps_other_fields {L : GoLib} (fuel : nat)
    (node : json) (c : concurrency) (d : Z) (node' : json) :
  analyzeDurationNode fuel node c = Ok (d, node') ->
  sameExcept [Duration] node node'.
Proof. apply analyzeDurationNode_sameExcept. Qed.

Lemma analyzeDurationNode_keeps_other_fields_witness :
  exists node',
    analyzeDurationNode (L:=go) 2 (Get planSlowChild MainTree) newConcurrency
      = Ok (2000000000, node')
    /\ sameExcept [Duration] (Get planSlowChild MainTree) node'.
Proof.
  eexists. split; [vm_compute; reflexivity|].
  apply (analyzeDurationNode_keeps_other_fields (L:=go) 2
           (Get planSlowChild MainTree) newConcurrency 2000000000 _ eq_refl).
Defined.

(** X7.  Every duration the analysis returns is at least zero, whatever
    the raw time texts say (a negative raw time included) and whatever
    [time.ParseDuration] and the float conversions yield. *)
Theorem analyzeDurationNode_not_negative {L : GoLib} (fuel : nat)
    (node : json) (c : concurrency) (d : Z) (node' : json) :
  analyzeDurationNode fuel node c = Ok (d, node') -> 0 <= d.
Proof. apply analyzeDurationNode_nonneg. Qed.

Lemma analyzeDurationNode_not_negative_witness :
  exists node',
    analyzeDurationNode (L:=go) 1
      (obj [(RootBasicExecInfo, timed "-3s")]) newConcurrency = Ok (0, node')
    /\ 0 <= 0.
Proof.
  eexists. split; [vm_compute; reflexivity|].
  apply (analyzeDurationNode_not_negative (L:=go) 1
           (obj [(RootBasicExecInfo, timed "-3s")]) newConcurrency 0 _ eq_refl).
Defined.

(** X8.  The duration pass panics in two situations only.  An index out
    of range comes from an [Apply] node of the main tree or of a CTE tree
    that has children none of which is tagged build or probe; a division
    by zero comes from an index lookup node that has a grouped summary (and
    is reached with join multiplier 0).  No other panic occurs. *)
Theorem analyzeDuration_panic_site {L : GoLib} (vp : json) (p : panic) :
  analyzeDuration vp = Fail (Panic p) ->
  exists tree n,
    (tree = Get vp MainTree \/ In tree (MustArray (Get vp CteTrees)))
    /\ subnode tree n
    /\ panicSite n p.
Proof.
  unfold analyzeDuration. intros H.
  apply bind_Fail in H. destruct H as [H|([d main'] & _ & H)].
  - apply analyzeDurationNode_panic in H. destruct H as (n & Hsub & Hsite).
    exists (Get vp MainTree), n. split; [left; reflexivity|]. split; assumption.
  - apply bind_Fail in H. destruct H as [H|([s ctes'] & _ & H)]; [|discriminate].
    rewrite Get_Put_other in H by exact MainTree_neq_CteTrees.
    unfold analyzeDurationNodes in H.
    apply analyzeDurationNodesWith_panic in H;
      [|intros k ck x k' key; apply analyzeDurationNode_other_fields].
    destruct H as [(k & ck & Hin & Hk)|(_ & Hop & _)]; [|discriminate].
    apply analyzeDurationNode_panic in Hk. destruct Hk as (n & Hsub & Hsite).
    exists k, n. split; [right; exact Hin|]. split; assumption.
Qed.

Lemma analyzeDuration_panic_site_witness :
  analyzeDuration (L:=go) (obj [(MainTree, applyNoSides)]) = Fail (Panic IndexOutOfRange)
  /\ exists tree n,
       (tree = Get (obj [(MainTree, applyNoSides)]) MainTree
        \/ In tree (MustArray (Get (obj [(MainTree, applyNoSides)]) CteTrees)))
       /\ subnode tree n
       /\ panicSite n IndexOutOfRange.
Proof.
  split; [vm_compute; reflexivity|].
  apply (analyzeDuration_panic_site (L:=go) (obj [(MainTree, applyNoSides)])).
  vm_compute. reflexivity.
Defined.

(** ** The formatting pass: totality, sentinels and shape *)

Section FormatShape.
Context {L : GoLib}.

Lemma Forall2_In_r {A B : Type} (R : A -> B -> Prop) (l : list A) (l' : list B) (y : B) :
  Forall2 R l l' -> In y l' -> exists x, In x l /\ R x y.
Proof.
  induction 1 as [|x y0 l l' Hxy Hrest IH]; intros Hin; [contradiction|].
  destruct Hin as [<-|Hin].
  - exists x. split; [left; reflexivity|exact Hxy].
  - destruct (IH Hin) as (x0 & Hx0 & Hr). exists x0. split; [right; exact Hx0|exact Hr].
Qed.

Lemma Forall2_In_l {A B : Type} (R : A -> B -> Prop) (l : list A) (l' : list B) (x : A) :
  Forall2 R l l' -> In x l -> exists y, In y l' /\ R x y.
Proof.
  induction 1 as [|x0 y l l' Hxy Hrest IH]; intros Hin; [contradiction|].
  destruct Hin as [<-|Hin].
  - exists y. split; [left; reflexivity|exact Hxy].
  - destruct (IH Hin) as (y0 & Hy0 & Hr). exists y0. split; [right; exact Hy0|exact Hr].
Qed.

Lemma formatNode_inv (fuel : nat) (node once : json) :
  formatNode fuel node = Ok once ->
  exists fuel' c1,
    fuel = S fuel'
    /\ once = Put (formatFields node) Children c1
    /\ Get once Children = c1
    /\ Forall2 (fun k k' => formatNode fuel' k = Ok k')
         (MustArray (Get node Children)) (MustArray c1).
Proof.
  destruct fuel as [|fuel]; [discriminate|].
  rewrite formatNode_S. intros H.
  bind_ok H. injection H as <-. rename r into c1.
  exists fuel, c1. split; [reflexivity|]. split; [reflexivity|].
  split; [eapply formatChildren_stored; exact Hstep|].
  unfold formatChildrenNodesWith in Hstep.
  rewrite Get_formatFields_Children in Hstep.
  destruct (MustArray (Get node Children)) as [|k a] eqn:Ha.
  - injection Hstep as <-. rewrite ?Get_formatFields_Children, ?Ha. constructor.
  - bind_ok Hstep. injection Hstep as <-.
    apply formatEach_Forall2 in Hstep0. exact Hstep0.
Qed.

Lemma formatNode_root_sentinel (fuel : nat) (node once : json) (key : string) :
  formatNode fuel node = Ok once ->
  In key needSetNA ->
  Get once key
  = if String.eqb (MustString (Get node key)) "-1" then JString "N/A"
    else Get node key.
Proof.
  intros H Hkey.
  destruct (formatNode_inv _ _ _ H) as (fuel' & c1 & _ & -> & _ & _).
  assert (Hc : Children <> key)
    by (destruct Hkey as [<-|[<-|[]]]; discriminate).
  rewrite Get_Put_other by exact Hc.
  rewrite Get_formatFields_other
    by (destruct Hkey as [<-|[<-|[]]]; simpl; intros [E|[E|[E|[]]]]; discriminate).
  destruct Hkey as [<-|[<-|[]]].
  - rewrite Get_setNA_other by discriminate. apply Get_setNA_same.
  - rewrite Get_setNA_same.
    rewrite !Get_setNA_other by discriminate. reflexivity.
Qed.

Lemma formatNode_no_sentinel (fuel : nat) :
  forall node once n' key,
    formatNode fuel node = Ok once ->
    subnode once n' ->
    In key needSetNA ->
    String.eqb (MustString (Get n' key)) "-1" = false.
Proof.
  induction fuel as [|fuel IH]; intros node once n' key H Hsub Hkey; [discriminate|].
  inversion Hsub as [|? k ? Hk Hsub']; subst.
  - rewrite (formatNode_root_sentinel _ _ _ _ H Hkey).
    destruct (String.eqb (MustString (Get node key)) "-1") eqn:E; [reflexivity|exact E].
  - destruct (formatNode_inv _ _ _ H) as (fuel' & c1 & Hf & _ & Hch & Hall).
    injection Hf as <-.
    rewrite Hch in Hk.
    destruct (Forall2_In_r _ _ _ _ Hall Hk) as (k0 & _ & Hk0).
    eapply IH; eassumption.
Qed.

Lemma formatNode_sameExcept (fuel : nat) :
  forall node once,
    formatNode fuel node = Ok once ->
    sameExcept (needSetNA ++ needJSONFormat) node once.
Proof.
  induction fuel as [|fuel IH]; intros node once H; [discriminate|].
  destruct (formatNode_inv _ _ _ H) as (fuel' & c1 & Hf & Honce & Hch & Hall).
  injection Hf as <-.
  constructor.
  - intros key Hkey Hc. subst once.
    rewrite Get_Put_other by (intros E; apply Hc; symmetry; exact E).
    rewrite Get_formatFields_other
      by (intros Hin; apply Hkey; apply in_or_app; right; exact Hin).
    rewrite !Get_setNA_other; [reflexivity| |];
      intros E; apply Hkey; rewrite <- E; simpl; auto.
  - rewrite Hch.
    eapply Forall2_impl; [|exact Hall].
    intros k k'. apply IH.
Qed.

Lemma formatChildrenNodes_total (fuel : nat) (nodes : json) :
  (depth nodes <= fuel)%nat ->
  exists nodes', formatChildrenNodes fuel nodes = Ok nodes'.
Proof.
  intros Hd. unfold formatChildrenNodes, formatChildrenNodesWith.
  destruct (MustArray nodes) as [|k a] eqn:Ha.
  - eexists; reflexivity.
  - destruct (formatEach_total (formatNode fuel) (k :: a)) as [a' ->].
    + intros x Hx. apply formatNode_total.
      rewrite <- Ha in Hx.
      destruct nodes as [| | | |l| |]; simpl in Hx; try contradiction.
      apply depth_element in Hx. lia.
    + simpl. eexists; reflexivity.
Qed.

Lemma depth_Get (j : json) (key : string) : (depth (Get j key) <= depth j)%nat.
Proof.
  destruct j as [| | | | |m|]; simpl Get; try (simpl; lia).
  destruct (lookup m key) as [v|] eqn:E; [|simpl; lia].
  apply depth_lookup in E. lia.
Qed.

Lemma depth_Get_lt (j : json) (key : string) :
  (depth (Get j key) < S (depth j))%nat.
Proof. pose proof (depth_Get j key). lia. Qed.

End FormatShape.

(** X9.  The formatting pass never fails: for every document
    [formatBinaryPlanJSON] returns a document, whatever the summaries hold
    and whether or not they convert. *)
Theorem formatBinaryPlanJSON_total {L : GoLib} (vp : json) :
  exists vp', formatBinaryPlanJSON vp = Ok vp'.
Proof.
  unfold formatBinaryPlanJSON.
  destruct (formatNode_total (S (depth vp)) (Get vp MainTree)) as [main' ->];
    [apply depth_Get_lt|].
  simpl bind.
  destruct (formatChildrenNodes_total (S (depth vp))
              (Get (Put vp MainTree main') CteTrees)) as [ctes' ->].
  - rewrite Get_Put_other by exact MainTree_neq_CteTrees.
    pose proof (depth_Get vp CteTrees). lia.
  - simpl. eexists; reflexivity.
Qed.

(** X10.  After [formatNode] no node of the tree carries the sentinel
    [-1] in its disk-bytes or memory-bytes field; at the node itself such a
    field reads [N/A] when it held the sentinel and is as before
    otherwise. *)
Theorem formatNode_replaces_sentinel {L : GoLib} (fuel : nat)
    (node once : json) :
  formatNode fuel node = Ok once ->
  forall key, In key needSetNA ->
    Get once key
    = (if String.eqb (MustString (Get node key)) "-1" then JString "N/A"
       else Get node key)
    /\ forall n', subnode once n' ->
                  String.eqb (MustString (Get n' key)) "-1" = false.
Proof.
  intros H key Hkey. split.
  - eapply formatNode_root_sentinel; eassumption.
  - intros n' Hsub. eapply formatNode_no_sentinel; eassumption.
Qed.

Lemma formatNode_replaces_sentinel_witness :
  exists once,
    formatNode (L:=go) 2 basicSummary = Ok once
    /\ In DiskBytes needSetNA
    /\ Get once DiskBytes = JString "N/A".
Proof.
  eexists. split; [vm_compute; reflexivity|].
  split; [right; left; reflexivity|].
  destruct (formatNode_replaces_sentinel (L:=go) 2 basicSummary _ eq_refl
              DiskBytes (or_intror (or_introl eq_refl))) as [Hroot _].
  exact Hroot.
Defined.

(** X11.  The formatting pass changes nothing but the two sentinel fields
    and the three summary fields: the node and every node below it keep
    their number of children and their value under every other key. *)
Theorem formatNode_keeps_other_fields {L : GoLib} (fuel : nat)
    (node once : json) :
  formatNode fuel node = Ok once ->
  sameExcept (needSetNA ++ needJSONFormat) node once.
Proof. apply formatNode_sameExcept. Qed.

Lemma formatNode_keeps_other_fields_witness :
  exists once,
    formatNode (L:=go) 2 basicSummary = Ok once
    /\ sameExcept (needSetNA ++ needJSONFormat) basicSummary once.
Proof.
  eexists. split; [vm_compute; reflexivity|].
  apply (formatNode_keeps_other_fields (L:=go) 2 basicSummary _ eq_refl).
Defined.

(** ** The diagnostic rule engine: state, shape, messages and panics *)

Section DiagnosisShape.
Context {L : GoLib}.

Lemma diagnosticOperatorNode_S (fuel : nat) (node : json) (diagOp : diagnosticOperation) :
  diagnosticOperatorNode (S fuel) node diagOp
  = (let operator := getOperatorType node in
     let operatorInfo := MustString (Get node OperatorInfo) in
     let diagnosis := (pseudoStatsRule node operatorInfo ++ diskRule node)%list in
     ('(diagOp, children') <-
        diagnosticOperatorNodesWith (diagnosticOperatorNode fuel)
          (Get node Children) diagOp ;;
      let node := Put node Children children' in
      let '(est, need) :=
        estimationRule node operator (needUdateStatistics diagOp) in
      kind <- operatorRule node operator operatorInfo ;;
      let diagnosis := (diagnosis ++ est ++ kind)%list in
      Ok (mkDiagnosticOperation need,
          SetKey node Diagnosis (JArray (map JString diagnosis))))%outcome).
Proof. reflexivity. Qed.

Lemma diagnoseEach_ext
    (diagnose : json -> diagnosticOperation -> outcome (diagnosticOperation * json))
    (a : list json) (d1 d2 : diagnosticOperation) :
  (forall k, In k a -> diagnose k d1 = diagnose k d2) ->
  forall need, diagnoseEach diagnose a d1 need = diagnoseEach diagnose a d2 need.
Proof.
  induction a as [|k a IH]; intros Hext need; [reflexivity|].
  simpl. rewrite (Hext k) by (left; reflexivity).
  destruct (diagnose k d2) as [[n c']|f]; [|reflexivity].
  simpl. rewrite IH by (intros x Hx; apply Hext; right; exact Hx).
  reflexivity.
Qed.

Lemma diagnosticOperatorNode_state (fuel : nat) :
  forall node d1 d2,
    diagnosticOperatorNode fuel node d1 = diagnosticOperatorNode fuel node d2.
Proof.
  induction fuel as [|fuel IH]; intros node d1 d2; [reflexivity|].
  rewrite !diagnosticOperatorNode_S. cbv zeta.
  replace (diagnosticOperatorNodesWith (diagnosticOperatorNode fuel)
             (Get node Children) d1)
    with (diagnosticOperatorNodesWith (diagnosticOperatorNode fuel)
            (Get node Children) d2); [reflexivity|].
  unfold diagnosticOperatorNodesWith.
  destruct (MustArray (Get node Children)) as [|k a]; [reflexivity|].
  rewrite (diagnoseEach_ext _ _ d2 d1) by (intros x _; apply IH).
  reflexivity.
Qed.

Lemma diagnoseEach_inv
    (diagnose : json -> diagnosticOperation -> outcome (diagnosticOperation * json))
    (d : diagnosticOperation) (a : list json) :
  forall need need' a',
    diagnoseEach diagnose a d need = Ok (need', a') ->
    Forall2 (fun k k' => exists n, diagnose k d = Ok (n, k')) a a'
    /\ (need' = true <->
        need = true
        \/ exists k n k', In k a /\ diagnose k d = Ok (n, k')
                          /\ needUdateStatistics n = true).
Proof.
  induction a as [|k a IH]; intros need need' a' H.
  - simpl in H. injection H as <- <-. split; [constructor|].
    split; [intros Hn; left; exact Hn|].
    intros [Hn|(k & n & k' & [] & _)]. exact Hn.
  - simpl in H.
    apply bind_Ok in H. destruct H as ([n c'] & Hk & H).
    apply bind_Ok in H. destruct H as ([need1 rest'] & Hrest & H).
    injection H as <- <-.
    destruct (IH _ _ _ Hrest) as [Hall Hflag].
    split; [constructor; [exists n; exact Hk|exact Hall]|].
    rewrite Hflag. split.
    + intros [Hn|(x & nx & x' & Hx & Hdx & Hfx)].
      * destruct (needUdateStatistics n) eqn:En.
        -- right. exists k, n, c'. split; [left; reflexivity|]. split; assumption.
        -- left. exact Hn.
      * right. exists x, nx, x'. split; [right; exact Hx|]. split; assumption.
    + intros [Hn|(x & nx & x' & [<-|Hx] & Hdx & Hfx)].
      * left. rewrite Hn. destruct (needUdateStatistics n); reflexivity.
      * left. rewrite Hk in Hdx. injection Hdx as <- <-. rewrite Hfx. reflexivity.
      * right. exists x, nx, x'. split; [exact Hx|]. split; assumption.
Qed.

Lemma diagnoseEach_fail
    (diagnose : json -> diagnosticOperation -> outcome (diagnosticOperation * json))
    (d : diagnosticOperation) (a : list json) :
  forall need f,
    diagnoseEach diagnose a d need = Fail f ->
    exists k, In k a /\ diagnose k d = Fail f.
Proof.
  induction a as [|k a IH]; intros need f H; [discriminate|].
  simpl in H. apply bind_Fail in H. destruct H as [H|([n c'] & _ & H)].
  - exists k. split; [left; reflexivity|exact H].
  - apply bind_Fail in H. destruct H as [H|([need1 rest'] & _ & H)]; [|discriminate].
    destruct (IH _ _ H) as (x & Hx & Hfx).
    exists x. split; [right; exact Hx|exact Hfx].
Qed.

Lemma diagnosticOperatorNodesWith_inv
    (diagnose : json -> diagnosticOperation -> outcome (diagnosticOperation * json))
    (nodes : json) (d d1 : diagnosticOperation) (ch' : json) :
  diagnosticOperatorNodesWith diagnose nodes d = Ok (d1, ch') ->
  Forall2 (fun k k' => exists n, diagnose k d = Ok (n, k'))
    (MustArray nodes) (MustArray ch')
  /\ (MustArray nodes = [] -> ch' = nodes)
  /\ (MustArray nodes <> [] -> exists a', ch' = JArray a')
  /\ (needUdateStatistics d1 = true <->
      MustArray nodes = []
      \/ exists k n k', In k (MustArray nodes) /\ diagnose k d = Ok (n, k')
                        /\ needUdateStatistics n = true).
Proof.
  unfold diagnosticOperatorNodesWith.
  destruct (MustArray nodes) as [|k a] eqn:Ha; intros H.
  - injection H as <- <-. rewrite Ha.
    split; [constructor|]. split; [reflexivity|].
    split; [intros Hne; contradiction|].
    simpl. split; [left; reflexivity|reflexivity].
  - apply bind_Ok in H. destruct H as ([need a'] & Heach & H).
    injection H as <- <-.
    destruct (diagnoseEach_inv _ _ _ _ _ _ Heach) as [Hall Hflag].
    split; [exact Hall|]. split; [discriminate|].
    split; [intros _; exists a'; reflexivity|].
    simpl. rewrite Hflag. split.
    + intros [Hn|Hex]; [discriminate|right; exact Hex].
    + intros [Hn|Hex]; [discriminate|right; exact Hex].
Qed.

Lemma diagnosticOperatorNode_inv (fuel : nat) (node node' : json)
    (d d' : diagnosticOperation) :
  diagnosticOperatorNode fuel node d = Ok (d', node') ->
  exists fuel' d1 ch' kind,
    fuel = S fuel'
    /\ diagnosticOperatorNodesWith (diagnosticOperatorNode fuel')
         (Get node Children) d = Ok (d1, ch')
    /\ Get (Put node Children ch') Children = ch'
    /\ operatorRule (Put node Children ch') (getOperatorType node)
         (MustString (Get node OperatorInfo)) = Ok kind
    /\ needUdateStatistics d'
       = needUdateStatistics d1 && isScanOrSelection (getOperatorType node)
    /\ node'
       = SetKey (Put node Children ch') Diagnosis
           (JArray (map JString
              ((pseudoStatsRule node (MustString (Get node OperatorInfo))
                ++ diskRule node)
               ++ fst (estimationRule (Put node Children ch')
                         (getOperatorType node) (needUdateStatistics d1))
               ++ kind))).
Proof.
  destruct fuel as [|fuel]; [discriminate|].
  rewrite diagnosticOperatorNode_S. cbv zeta. intros H.
  apply bind_Ok in H. destruct H as ([d1 ch'] & Hch & H).
  destruct (estimationRule (Put node Children ch') (getOperatorType node)
              (needUdateStatistics d1)) as [est need] eqn:Eest.
  apply bind_Ok in H. destruct H as (kind & Hkind & H).
  injection H as <- <-.
  exists fuel, d1, ch', kind.
  split; [reflexivity|]. split; [exact Hch|].
  split.
  { destruct (diagnosticOperatorNodesWith_inv _ _ _ _ _ Hch) as (_ & Hnil & Hcons & _).
    destruct (MustArray (Get node Children)) as [|k a] eqn:Ha.
    - rewrite (Hnil eq_refl). apply Get_Put_Get.
    - rewrite Get_Put_same.
      assert (Hne : MustArray (Get node Children) <> []) by (rewrite Ha; discriminate).
      destruct (MustArray_Get_lookup _ _ Hne) as (fields & v & -> & Hl).
      rewrite Hl. reflexivity. }
  split; [exact Hkind|].
  split; [|rewrite Eest; reflexivity].
  simpl. unfold estimationRule in Eest.
  destruct (needUdateStatistics d1);
    [destruct (isScanOrSelection (getOperatorType node))|];
    injection Eest as _ <-; reflexivity.
Qed.

Lemma diagnosticOperatorNode_sameExcept (fuel : nat) :
  forall node node' d d',
    diagnosticOperatorNode fuel node d = Ok (d', node') ->
    sameExcept [Diagnosis] node node'.
Proof.
  induction fuel as [|fuel IH]; intros node node' d d' H; [discriminate|].
  destruct (diagnosticOperatorNode_inv _ _ _ _ _ H)
    as (fuel' & d1 & ch' & kind & Hf & Hch & Hst & _ & _ & ->).
  injection Hf as <-.
  constructor.
  - intros key Hkey Hc.
    rewrite Get_SetKey_other by (intros E; apply Hkey; left; exact E).
    apply Get_Put_other. intros E; apply Hc; symmetry; exact E.
  - rewrite Get_SetKey_other by discriminate. rewrite Hst.
    destruct (diagnosticOperatorNodesWith_inv _ _ _ _ _ Hch) as (Hall & _).
    eapply Forall2_impl; [|exact Hall].
    intros k k' [n Hk]. eapply IH; exact Hk.
Qed.

Lemma diagnosticOperatorNode_flag (fuel : nat) :
  forall node node' d d',
    diagnosticOperatorNode fuel node d = Ok (d', node') ->
    (needUdateStatistics d' = true <-> scanChain node).
Proof.
  induction fuel as [|fuel IH]; intros node node' d d' H; [discriminate|].
  destruct (diagnosticOperatorNode_inv _ _ _ _ _ H)
    as (fuel' & d1 & ch' & kind & Hf & Hch & _ & _ & Hflag & _).
  injection Hf as <-.
  destruct (diagnosticOperatorNodesWith_inv _ _ _ _ _ Hch) as (_ & _ & _ & Hd1).
  rewrite Hflag, andb_true_iff, Hd1. split.
  - intros [[Hnil|(k & n & k' & Hin & Hk & Hn)] Hop].
    + apply scanChain_leaf; assumption.
    + apply (scanChain_child node k); [exact Hop|exact Hin|].
      apply (IH _ _ _ _ Hk). exact Hn.
  - intros Hchain. inversion Hchain as [? Hop Hnil|? k Hop Hin Hk]; subst.
    + split; [left; exact Hnil|exact Hop].
    + split; [|exact Hop]. right.
      destruct (diagnosticOperatorNodesWith_inv _ _ _ _ _ Hch) as (Hall & _).
      destruct (Forall2_In_l _ _ _ _ Hall Hin) as (k' & _ & n & Hdk).
      exists k, n, k'. split; [exact Hin|]. split; [exact Hdk|].
      apply (IH _ _ _ _ Hdk). exact Hk.
Qed.

Lemma pseudoStatsRule_In (node : json) (info m : string) :
  In m (pseudoStatsRule node info) -> m = msgPseudoStats.
Proof.
  unfold pseudoStatsRule.
  destruct (strings.Contains info "stats:pseudo"); [|contradiction].
  match goal with |- context [if ?b then _ else _] => destruct b end;
    [contradiction|].
  intros [<-|[]]. reflexivity.
Qed.

Lemma diskRule_In (node : json) (m : string) :
  In m (diskRule node) -> m = msgDiskSpill.
Proof.
  unfold diskRule.
  destruct (String.eqb (MustString (Get node DiskBytes)) "N/A"); [contradiction|].
  intros [<-|[]]. reflexivity.
Qed.

Lemma estimationRule_In (node : json) (operator : operator) (need : bool) (m : string) :
  In m (fst (estimationRule node operator need)) ->
  m = msgEstimationError
  /\ need = true
  /\ isScanOrSelection operator = true
  /\ estimationErrorHigh (MustFloat64 (Get node ActRows))
       (MustFloat64 (Get node EstRows)) = true.
Proof.
  unfold estimationRule.
  destruct need; [|contradiction].
  destruct (isScanOrSelection operator); [|contradiction].
  destruct (estimationErrorHigh _ _); [|contradiction].
  intros [<-|[]]. repeat split; reflexivity.
Qed.

Lemma operatorRule_In (node : json) (operator : operator) (info : string)
    (kind : list string) (m : string) :
  operatorRule node operator info = Ok kind ->
  In m kind ->
  (m = msgLargeBuildSide /\ isJoin operator = true)
  \/ (m = msgIndexLookup /\ operator = IndexLookUpReader)
  \/ (m = msgSelection /\ operator = Selection)
  \/ (m = msgTableFullScan /\ operator = TableFullScan).
Proof.
  unfold operatorRule. intros H Hin.
  destruct operator;
    repeat match type of H with
           | Ok _ = Ok _ => injection H as <-
           | Fail _ = Ok _ => discriminate H
           | context [match ?x with _ => _ end] => destruct x
           end;
    try contradiction;
    destruct Hin as [<-|[]]; auto 6.
Qed.

Lemma operatorRule_short (node : json) (operator : operator) (info : string)
    (kind : list string) :
  operatorRule node operator info = Ok kind ->
  kind = [] \/ exists m, kind = [m].
Proof.
  unfold operatorRule. intros H.
  destruct operator;
    repeat match type of H with
           | Ok _ = Ok _ => injection H as <-
           | Fail _ = Ok _ => discriminate H
           | context [match ?x with _ => _ end] => destruct x
           end;
    solve [left; reflexivity | right; eexists; reflexivity].
Qed.

Lemma operatorRule_fail (node : json) (operator : operator) (info : string)
    (f : failure) :
  operatorRule node operator info = Fail f ->
  f = Panic NilDereference
  /\ operator = IndexLookUpReader
  /\ getBuildChildrenWithDriverSide node "build" = None.
Proof.
  unfold operatorRule. intros H.
  destruct operator;
    repeat match type of H with
           | Ok _ = Fail _ => discriminate H
           | context [match ?x with _ => _ end] => destruct x eqn:?
           end;
    try discriminate H.
  injection H as <-. repeat split; assumption.
Qed.

Lemma find_Forall2 {A : Type} (p : A -> bool) (R : A -> A -> Prop) (l l' : list A) :
  Forall2 R l l' ->
  (forall x y, R x y -> p y = p x) ->
  find p l' = None -> find p l = None.
Proof.
  intros Hall Hp. induction Hall as [|x y l l' Hxy _ IH]; [reflexivity|].
  simpl. rewrite (Hp _ _ Hxy).
  destruct (p x); [discriminate|exact IH].
Qed.

Lemma diagnosticOperatorNode_fail (fuel : nat) :
  forall node d f,
    diagnosticOperatorNode fuel node d = Fail f ->
    match f with
    | Err _ => False
    | NoFuel => (fuel <= depth node)%nat
    | Panic p =>
        p = NilDereference
        /\ exists n, subnode node n
                     /\ getOperatorType n = IndexLookUpReader
                     /\ getBuildChildrenWithDriverSide n "build" = None
    end.
Proof.
  induction fuel as [|fuel IH]; intros node d f H.
  - injection H as <-. apply Nat.le_0_l.
  - rewrite diagnosticOperatorNode_S in H. cbv zeta in H.
    apply bind_Fail in H. destruct H as [H|([d1 ch'] & Hch & H)].
    + unfold diagnosticOperatorNodesWith in H.
      destruct (MustArray (Get node Children)) as [|k0 a] eqn:Ha; [discriminate|].
      apply bind_Fail in H. destruct H as [H|([need a'] & _ & H)]; [|discriminate].
      destruct (diagnoseEach_fail _ _ _ _ _ H) as (k & Hin & Hk).
      rewrite <- Ha in Hin.
      specialize (IH _ _ _ Hk).
      destruct f as [e|p|]; [exact IH| |].
      * destruct IH as (-> & n & Hsub & Hn). split; [reflexivity|].
        exists n. split; [eapply subnode_child; eassumption|exact Hn].
      * apply depth_child in Hin. lia.
    + destruct (estimationRule (Put node Children ch') (getOperatorType node)
                  (needUdateStatistics d1)) as [est need].
      apply bind_Fail in H. destruct H as [H|(kind & _ & H)]; [|discriminate].
      apply operatorRule_fail in H. destruct H as (-> & Hop & Hnone).
      split; [reflexivity|].
      exists node. split; [apply subnode_self|]. split; [exact Hop|].
      unfold getBuildChildrenWithDriverSide in *.
      destruct (diagnosticOperatorNodesWith_inv _ _ _ _ _ Hch) as (Hall & Hnil & _).
      assert (Hst : Get (Put node Children ch') Children = ch').
      { destruct (MustArray (Get node Children)) as [|k a] eqn:Ha.
        - rewrite (Hnil eq_refl). apply Get_Put_Get.
        - rewrite Get_Put_same.
          assert (Hne : MustArray (Get node Children) <> [])
            by (rewrite Ha; discriminate).
          destruct (MustArray_Get_lookup _ _ Hne) as (fields & v & -> & Hl).
          rewrite Hl. reflexivity. }
      rewrite Hst in Hnone.
      eapply find_Forall2; [exact Hall| |exact Hnone].
      intros x y [n Hxy]. cbv beta.
      apply diagnosticOperatorNode_sameExcept in Hxy.
      inversion Hxy as [? ? Hkeys _]; subst.
      rewrite Hkeys; [reflexivity| |]; simpl; intuition discriminate.
Qed.

End DiagnosisShape.

Section DiagnosisMessages.
Context {L : GoLib}.

Lemma find_Forall2_iff {A : Type} (p : A -> bool) (R : A -> A -> Prop) (l l' : list A) :
  Forall2 R l l' ->
  (forall x y, R x y -> p y = p x) ->
  (find p l' = None <-> find p l = None).
Proof.
  intros Hall Hp. induction Hall as [|x y l l' Hxy _ IH]; [reflexivity|].
  simpl. rewrite (Hp _ _ Hxy).
  destruct (p x); [split; discriminate|exact IH].
Qed.

Lemma diagnosticOperatorNode_build_side (fuel : nat) (node node' : json)
    (d d' : diagnosticOperation) (d1 : diagnosticOperation) (ch' : json) :
  diagnosticOperatorNodesWith (diagnosticOperatorNode fuel)
    (Get node Children) d = Ok (d1, ch') ->
  Get (Put node Children ch') Children = ch' ->
  (getBuildChildrenWithDriverSide (Put node Children ch') "build" = None
   <-> getBuildChildrenWithDriverSide node "build" = None).
Proof.
  intros Hch Hst. unfold getBuildChildrenWithDriverSide. rewrite Hst.
  destruct (diagnosticOperatorNodesWith_inv _ _ _ _ _ Hch) as (Hall & _).
  eapply find_Forall2_iff; [exact Hall|].
  intros x y [n Hxy]. cbv beta.
  apply diagnosticOperatorNode_sameExcept in Hxy.
  inversion Hxy as [? ? Hkeys _]; subst.
  rewrite Hkeys; [reflexivity| |]; simpl; intuition discriminate.
Qed.

Lemma diagnosticOperatorNode_lookup_has_build (fuel : nat) :
  forall node node' d d' n,
    diagnosticOperatorNode fuel node d = Ok (d', node') ->
    subnode node n ->
    getOperatorType n = IndexLookUpReader ->
    getBuildChildrenWithDriverSide n "build" <> None.
Proof.
  induction fuel as [|fuel IH]; intros node node' d d' n H Hsub Hop; [discriminate|].
  destruct (diagnosticOperatorNode_inv _ _ _ _ _ H)
    as (fuel' & d1 & ch' & kind & Hf & Hch & Hst & Hkind & _ & _).
  injection Hf as <-.
  inversion Hsub as [|? k ? Hk Hsub']; subst.
  - intros Hnone.
    apply (diagnosticOperatorNode_build_side _ _ node' _ d' _ _ Hch Hst) in Hnone.
    rewrite Hop in Hkind. simpl in Hkind. rewrite Hnone in Hkind. discriminate.
  - destruct (diagnosticOperatorNodesWith_inv _ _ _ _ _ Hch) as (Hall & _).
    destruct (Forall2_In_l _ _ _ _ Hall Hk) as (k' & _ & nk & Hdk).
    eapply IH; eassumption.
Qed.

Lemma diagnosticOperatorNode_diagnosis (fuel : nat) (m : list (string * json))
    (node' : json) (d d' : diagnosticOperation) :
  diagnosticOperatorNode fuel (JObject m) d = Ok (d', node') ->
  exists need kind,
    operatorRule_ok_after (JObject m) kind
    /\ (need = true /\ isScanOrSelection (getOperatorType (JObject m)) = true
        <-> scanChain (JObject m))
    /\ Get node' Diagnosis
       = JArray (map JString
           ((pseudoStatsRule (JObject m) (MustString (Get (JObject m) OperatorInfo))
             ++ diskRule (JObject m))
            ++ fst (estimationRule (JObject m)
                      (getOperatorType (JObject m)) need)
            ++ kind)).
Proof.
  intros H.
  pose proof (diagnosticOperatorNode_flag _ _ _ _ _ H) as Hflag.
  destruct (diagnosticOperatorNode_inv _ _ _ _ _ H)
    as (fuel' & d1 & ch' & kind & _ & _ & _ & Hkind & Hd' & ->).
  exists (needUdateStatistics d1), kind.
  split; [exists ch'; exact Hkind|].
  split; [rewrite <- Hflag, Hd', andb_true_iff; reflexivity|].
  destruct (Put_object m Children ch') as [m1 Hm1].
  rewrite Hm1 at 1. rewrite Get_SetKey_same.
  unfold estimationRule.
  rewrite !(Get_Put_other (JObject m) Children) by discriminate.
  reflexivity.
Qed.

End DiagnosisMessages.

(** X12.  The diagnostic pass fails exactly when the main tree or one of
    the CTE trees has an index lookup none of whose children is marked as
    the build side; the failure is then a nil dereference, never a returned
    error. *)
Theorem diagnosticOperator_fails_iff {L : GoLib} (vp : json) :
  (forall f, diagnosticOperator vp = Fail f -> f = Panic NilDereference)
  /\ ((exists f, diagnosticOperator vp = Fail f)
      <-> exists tree n,
            (tree = Get vp MainTree \/ In tree (MustArray (Get vp CteTrees)))
            /\ subnode tree n
            /\ getOperatorType n = IndexLookUpReader
            /\ getBuildChildrenWithDriverSide n "build" = None).
Proof.
  assert (Hfail : forall f, diagnosticOperator vp = Fail f ->
            f = Panic NilDereference
            /\ exists tree n,
                 (tree = Get vp MainTree \/ In tree (MustArray (Get vp CteTrees)))
                 /\ subnode tree n
                 /\ getOperatorType n = IndexLookUpReader
                 /\ getBuildChildrenWithDriverSide n "build" = None).
  { unfold diagnosticOperator. intros f H.
    apply bind_Fail in H. destruct H as [H|([d main'] & _ & H)].
    - apply diagnosticOperatorNode_fail in H.
      destruct f as [e|p|]; [contradiction| |].
      + destruct H as (-> & n & Hsub & Hn). split; [reflexivity|].
        exists (Get vp MainTree), n. split; [left; reflexivity|].
        split; [exact Hsub|exact Hn].
      + pose proof (depth_Get vp MainTree). lia.
    - apply bind_Fail in H. destruct H as [H|([s ctes'] & _ & H)]; [|discriminate].
      rewrite Get_Put_other in H by exact MainTree_neq_CteTrees.
      unfold diagnosticOperatorNodes, diagnosticOperatorNodesWith in H.
      destruct (MustArray (Get vp CteTrees)) as [|k0 a] eqn:Ha; [discriminate|].
      apply bind_Fail in H. destruct H as [H|([need a'] & _ & H)]; [|discriminate].
      destruct (diagnoseEach_fail _ _ _ _ _ H) as (k & Hin & Hk).
      apply diagnosticOperatorNode_fail in Hk.
      destruct f as [e|p|]; [contradiction| |].
      + destruct Hk as (-> & n & Hsub & Hn). split; [reflexivity|].
        exists k, n. split; [right; exact Hin|].
        split; [exact Hsub|exact Hn].
      + rewrite <- Ha in Hin. apply depth_child in Hin. lia. }
  split; [intros f H; apply (Hfail f H)|].
  split; [intros [f H]; apply (Hfail f H)|].
  intros (tree & n & Htree & Hsub & Hop & Hnone).
  destruct (diagnosticOperator vp) as [vp'|f] eqn:E; [|exists f; reflexivity].
  exfalso. unfold diagnosticOperator in E.
  apply bind_Ok in E. destruct E as ([d main'] & Hmain & E).
  apply bind_Ok in E. destruct E as ([s ctes'] & Hctes & _).
  destruct Htree as [->|Hin].
  - exact (diagnosticOperatorNode_lookup_has_build _ _ _ _ _ _ Hmain Hsub Hop Hnone).
  - rewrite Get_Put_other in Hctes by exact MainTree_neq_CteTrees.
    unfold diagnosticOperatorNodes in Hctes.
    destruct (diagnosticOperatorNodesWith_inv _ _ _ _ _ Hctes) as (Hall & _).
    destruct (Forall2_In_l _ _ _ _ Hall Hin) as (k' & _ & nk & Hdk).
    exact (diagnosticOperatorNode_lookup_has_build _ _ _ _ _ _ Hdk Hsub Hop Hnone).
Qed.

(** X13.  The state handed to [diagnosticOperatorNode] has no influence:
    the returned flag and the diagnosed tree are the same whatever flag the
    caller passes in. *)
Theorem diagnosticOperatorNode_ignores_state {L : GoLib} (fuel : nat)
    (node : json) (d1 d2 : diagnosticOperation) :
  diagnosticOperatorNode fuel node d1 = diagnosticOperatorNode fuel node d2.
Proof. apply diagnosticOperatorNode_state. Qed.

(** X14.  The diagnostic pass changes nothing but the [diagnosis] field:
    the node and every node below it keep their number of children and
    their value under every other key. *)
Theorem diagnosticOperatorNode_keeps_other_fields {L : GoLib} (fuel : nat)
    (node node' : json) (d d' : diagnosticOperation) :
  diagnosticOperatorNode fuel node d = Ok (d', node') ->
  sameExcept [Diagnosis] node node'.
Proof. apply diagnosticOperatorNode_sameExcept. Qed.

Lemma diagnosticOperatorNode_keeps_other_fields_witness :
  exists d' node',
    diagnosticOperatorNode (L:=go) 1 scanNoRows newDiagnosticOperation = Ok (d', node')
    /\ sameExcept [Diagnosis] scanNoRows node'.
Proof.
  eexists; eexists. split; [vm_compute; reflexivity|].
  apply (diagnosticOperatorNode_keeps_other_fields (L:=go) 1 scanNoRows _
           newDiagnosticOperation _ eq_refl).
Defined.

(** X15.  The flag [diagnosticOperatorNode] returns is set exactly when a
    path leads from the node down to a node without children through scan
    and selection operators only, the node itself included. *)
Theorem diagnosticOperatorNode_flag_iff_scan_chain {L : GoLib} (fuel : nat)
    (node node' : json) (d d' : diagnosticOperation) :
  diagnosticOperatorNode fuel node d = Ok (d', node') ->
  (needUdateStatistics d' = true <-> scanChain node).
Proof. apply diagnosticOperatorNode_flag. Qed.

Lemma diagnosticOperatorNode_flag_iff_scan_chain_witness :
  exists d' node',
    diagnosticOperatorNode (L:=go) 1 scanNoRows newDiagnosticOperation = Ok (d', node')
    /\ (needUdateStatistics d' = true <-> scanChain scanNoRows).
Proof.
  eexists; eexists. split; [vm_compute; reflexivity|].
  apply (diagnosticOperatorNode_flag_iff_scan_chain (L:=go) 1 scanNoRows _
           newDiagnosticOperation _ eq_refl).
Defined.

(** X16.  A node receives the estimation-error message exactly when a path
    of scan and selection operators leads from it down to a node without
    children and the two row counts, with both taken as 1 when either is
    zero, differ by a factor above 100. *)
Theorem diagnosticOperatorNode_estimation_message {L : GoLib} (fuel : nat)
    (m : list (string * json)) (node' : json) (d d' : diagnosticOperation) :
  diagnosticOperatorNode fuel (JObject m) d = Ok (d', node') ->
  exists diagnosis,
    Get node' Diagnosis = JArray (map JString diagnosis)
    /\ (In msgEstimationError diagnosis
        <-> scanChain (JObject m)
            /\ estimationErrorHigh (MustFloat64 (Get (JObject m) ActRows))
                 (MustFloat64 (Get (JObject m) EstRows)) = true).
Proof.
  intros H.
  destruct (diagnosticOperatorNode_diagnosis _ _ _ _ _ H)
    as (need & kind & [ch' Hkind] & Hchain & Hdiag).
  eexists. split; [exact Hdiag|].
  rewrite <- Hchain. split.
  - intros Hin.
    apply in_app_or in Hin. destruct Hin as [Hin|Hin].
    { apply in_app_or in Hin. destruct Hin as [Hin|Hin].
      - apply pseudoStatsRule_In in Hin. discriminate Hin.
      - apply diskRule_In in Hin. discriminate Hin. }
    apply in_app_or in Hin. destruct Hin as [Hin|Hin].
    + apply estimationRule_In in Hin. tauto.
    + destruct (operatorRule_In _ _ _ _ _ Hkind Hin)
        as [[E _]|[[E _]|[[E _]|[E _]]]]; discriminate E.
  - intros [[Hneed Hop] Hhigh].
    apply in_or_app. right. apply in_or_app. left.
    unfold estimationRule. rewrite Hneed, Hop, Hhigh. left. reflexivity.
Qed.

Lemma diagnosticOperatorNode_estimation_message_witness :
  exists d' node' diagnosis,
    diagnosticOperatorNode (L:=go) 1 scanNoRows newDiagnosticOperation = Ok (d', node')
    /\ Get node' Diagnosis = JArray (map JString diagnosis)
    /\ (In msgEstimationError diagnosis
        <-> scanChain scanNoRows
            /\ estimationErrorHigh (MustFloat64 (L:=go) (Get scanNoRows ActRows))
                 (MustFloat64 (L:=go) (Get scanNoRows EstRows)) = true).
Proof.
  destruct (diagnosticOperatorNode_estimation_message (L:=go) 1
              [(OperatorName, JString "TableFullScan_5");
               (ActRows, JNumber "0");
               (EstRows, JNumber "500");
               (DiskBytes, JString "N/A")]
              (SetKey scanNoRows Diagnosis (JArray []))
              newDiagnosticOperation (mkDiagnosticOperation true) eq_refl)
    as (diagnosis & Hget & Hiff).
  exists (mkDiagnosticOperation true), (SetKey scanNoRows Diagnosis (JArray [])),
    diagnosis.
  split; [vm_compute; reflexivity|]. split; [exact Hget|exact Hiff].
Defined.

(** X17.  A node receives the disk-spill message exactly when its
    [diskBytes] value is anything but the string [N/A]: a node without the
    key, or with a value that is not a string, receives it as well. *)
Theorem diagnosticOperatorNode_disk_message {L : GoLib} (fuel : nat)
    (m : list (string * json)) (node' : json) (d d' : diagnosticOperation) :
  diagnosticOperatorNode fuel (JObject m) d = Ok (d', node') ->
  exists diagnosis,
    Get node' Diagnosis = JArray (map JString diagnosis)
    /\ (In msgDiskSpill diagnosis <-> Get (JObject m) DiskBytes <> JString "N/A").
Proof.
  intros H.
  destruct (diagnosticOperatorNode_diagnosis _ _ _ _ _ H)
    as (need & kind & [ch' Hkind] & _ & Hdiag).
  eexists. split; [exact Hdiag|].
  assert (Hdisk : In msgDiskSpill (diskRule (JObject m))
                  <-> Get (JObject m) DiskBytes <> JString "N/A").
  { unfold diskRule.
    destruct (String.eqb (MustString (Get (JObject m) DiskBytes)) "N/A") eqn:E.
    - apply String.eqb_eq in E.
      destruct (Get (JObject m) DiskBytes); try discriminate E.
      simpl in E. subst. split; [contradiction|intros Hne; contradiction Hne; reflexivity].
    - apply String.eqb_neq in E.
      split; [|intros _; left; reflexivity].
      intros _ Heq. apply E. rewrite Heq. reflexivity. }
  rewrite <- Hdisk. split.
  - intros Hin.
    apply in_app_or in Hin. destruct Hin as [Hin|Hin].
    { apply in_app_or in Hin. destruct Hin as [Hin|Hin]; [|exact Hin].
      apply pseudoStatsRule_In in Hin. discriminate Hin. }
    apply in_app_or in Hin. destruct Hin as [Hin|Hin].
    + apply estimationRule_In in Hin. destruct Hin as [E _]. discriminate E.
    + destruct (operatorRule_In _ _ _ _ _ Hkind Hin)
        as [[E _]|[[E _]|[[E _]|[E _]]]]; discriminate E.
  - intros Hin. apply in_or_app. left. apply in_or_app. right. exact Hin.
Qed.

Lemma diagnosticOperatorNode_disk_message_witness :
  exists d' node' diagnosis,
    diagnosticOperatorNode (L:=go) 1 (named "TableReader_2") newDiagnosticOperation
    = Ok (d', node')
    /\ Get node' Diagnosis = JArray (map JString diagnosis)
    /\ (In msgDiskSpill diagnosis
        <-> Get (named "TableReader_2") DiskBytes <> JString "N/A").
Proof.
  destruct (diagnosticOperatorNode_disk_message (L:=go) 1
              [(OperatorName, JString "TableReader_2")]
              (SetKey (named "TableReader_2") Diagnosis
                 (JArray [JString msgDiskSpill]))
              newDiagnosticOperation (mkDiagnosticOperation false) eq_refl)
    as (diagnosis & Hget & Hiff).
  exists (mkDiagnosticOperation false),
    (SetKey (named "TableReader_2") Diagnosis (JArray [JString msgDiskSpill])),
    diagnosis.
  split; [vm_compute; reflexivity|]. split; [exact Hget|exact Hiff].
Defined.

(** X18.  Every message of a diagnosis is one of the seven the engine
    knows, and the kind-specific ones appear only at their own kind of
    operator: the estimation message at scans and selections, the
    large-build-side message at index joins, the index-lookup message at
    index lookups, the selection message at selections and the full-scan
    message at full table scans. *)
Theorem diagnosticOperatorNode_message_kinds {L : GoLib} (fuel : nat)
    (m : list (string * json)) (node' : json) (d d' : diagnosticOperation) :
  diagnosticOperatorNode fuel (JObject m) d = Ok (d', node') ->
  exists diagnosis,
    Get node' Diagnosis = JArray (map JString diagnosis)
    /\ forall msg, In msg diagnosis ->
         msg = msgPseudoStats
         \/ msg = msgDiskSpill
         \/ (msg = msgEstimationError
             /\ isScanOrSelection (getOperatorType (JObject m)) = true)
         \/ (msg = msgLargeBuildSide /\ isJoin (getOperatorType (JObject m)) = true)
         \/ (msg = msgIndexLookup /\ getOperatorType (JObject m) = IndexLookUpReader)
         \/ (msg = msgSelection /\ getOperatorType (JObject m) = Selection)
         \/ (msg = msgTableFullScan /\ getOperatorType (JObject m) = TableFullScan).
Proof.
  intros H.
  destruct (diagnosticOperatorNode_diagnosis _ _ _ _ _ H)
    as (need & kind & [ch' Hkind] & _ & Hdiag).
  eexists. split; [exact Hdiag|].
  intros msg Hin.
  apply in_app_or in Hin. destruct Hin as [Hin|Hin].
  { apply in_app_or in Hin. destruct Hin as [Hin|Hin].
    - left. eapply pseudoStatsRule_In; exact Hin.
    - right. left. eapply diskRule_In; exact Hin. }
  apply in_app_or in Hin. destruct Hin as [Hin|Hin].
  - apply estimationRule_In in Hin. destruct Hin as (E & _ & Hop & _).
    right. right. left. split; assumption.
  - destruct (operatorRule_In _ _ _ _ _ Hkind Hin) as [E|[E|[E|E]]]; auto 8.
Qed.

Lemma diagnosticOperatorNode_message_kinds_witness :
  exists d' node' diagnosis,
    diagnosticOperatorNode (L:=go) 1 (named "TableReader_2") newDiagnosticOperation
    = Ok (d', node')
    /\ Get node' Diagnosis = JArray (map JString diagnosis)
    /\ In msgDiskSpill diagnosis.
Proof.
  destruct (diagnosticOperatorNode_message_kinds (L:=go) 1
              [(OperatorName, JString "TableReader_2")]
              (SetKey (named "TableReader_2") Diagnosis
                 (JArray [JString msgDiskSpill]))
              newDiagnosticOperation (mkDiagnosticOperation false) eq_refl)
    as (diagnosis & Hget & _).
  exists (mkDiagnosticOperation false),
    (SetKey (named "TableReader_2") Diagnosis (JArray [JString msgDiskSpill])),
    diagnosis.
  split; [vm_compute; reflexivity|]. split; [exact Hget|].
  vm_compute in Hget. injection Hget as Hget.
  destruct diagnosis as [|x [|y rest]]; try discriminate Hget.
  injection Hget as <-. left. reflexivity.
Defined.

Section DiagnosisOnce.
Context {L : GoLib}.

Lemma pseudoStatsRule_shape (node : json) (info : string) :
  pseudoStatsRule node info = [] \/ pseudoStatsRule node info = [msgPseudoStats].
Proof.
  unfold pseudoStatsRule.
  destruct (strings.Contains info "stats:pseudo"); [|left; reflexivity].
  match goal with |- context [if ?b then _ else _] => destruct b end;
    [left|right]; reflexivity.
Qed.

Lemma diskRule_shape (node : json) :
  diskRule node = [] \/ diskRule node = [msgDiskSpill].
Proof.
  unfold diskRule.
  destruct (String.eqb (MustString (Get node DiskBytes)) "N/A");
    [left|right]; reflexivity.
Qed.

Lemma estimationRule_shape (node : json) (operator : operator) (need : bool) :
  fst (estimationRule node operator need) = []
  \/ fst (estimationRule node operator need) = [msgEstimationError].
Proof.
  unfold estimationRule.
  destruct need; [|left; reflexivity].
  destruct (isScanOrSelection operator); [|left; reflexivity].
  destruct (estimationErrorHigh _ _); [right|left]; reflexivity.
Qed.

Lemma operatorRule_shape (node : json) (operator : operator) (info : string)
    (kind : list string) :
  operatorRule node operator info = Ok kind ->
  kind = [] \/ kind = [msgLargeBuildSide] \/ kind = [msgIndexLookup]
  \/ kind = [msgSelection] \/ kind = [msgTableFullScan].
Proof.
  intros H.
  destruct (operatorRule_short _ _ _ _ H) as [->|[msg ->]]; [left; reflexivity|].
  destruct (operatorRule_In _ _ _ _ msg H (or_introl eq_refl))
    as [[-> _]|[[-> _]|[[-> _]|[-> _]]]]; auto.
Qed.

End DiagnosisOnce.

(** X19.  No message is reported twice for a node, however many entries of
    an index join exceed the threshold, and a diagnosis holds at most four
    messages. *)
Theorem diagnosticOperatorNode_no_duplicate {L : GoLib} (fuel : nat)
    (m : list (string * json)) (node' : json) (d d' : diagnosticOperation) :
  diagnosticOperatorNode fuel (JObject m) d = Ok (d', node') ->
  exists diagnosis,
    Get node' Diagnosis = JArray (map JString diagnosis)
    /\ NoDup diagnosis
    /\ (List.length diagnosis <= 4)%nat.
Proof.
  intros H.
  destruct (diagnosticOperatorNode_diagnosis _ _ _ _ _ H)
    as (need & kind & [ch' Hkind] & _ & Hdiag).
  eexists. split; [exact Hdiag|].
  destruct (pseudoStatsRule_shape (JObject m)
              (MustString (Get (JObject m) OperatorInfo))) as [->| ->];
    destruct (diskRule_shape (JObject m)) as [->| ->];
    destruct (estimationRule_shape (JObject m) (getOperatorType (JObject m)) need)
      as [->| ->];
    destruct (operatorRule_shape _ _ _ _ Hkind) as [->|[->|[->|[->| ->]]]];
    (split; [repeat constructor; simpl; intuition discriminate|simpl; lia]).
Qed.

Lemma diagnosticOperatorNode_no_duplicate_witness :
  exists d' node' diagnosis,
    diagnosticOperatorNode (L:=go) 1 (named "TableReader_2") newDiagnosticOperation
    = Ok (d', node')
    /\ Get node' Diagnosis = JArray (map JString diagnosis)
    /\ NoDup diagnosis
    /\ (List.length diagnosis <= 4)%nat.
Proof.
  destruct (diagnosticOperatorNode_no_duplicate (L:=go) 1
              [(OperatorName, JString "TableReader_2")]
              (SetKey (named "TableReader_2") Diagnosis
                 (JArray [JString msgDiskSpill]))
              newDiagnosticOperation (mkDiagnosticOperation false) eq_refl)
    as (diagnosis & Hget & Hnodup & Hlen).
  exists (mkDiagnosticOperation false),
    (SetKey (named "TableReader_2") Diagnosis (JArray [JString msgDiskSpill])),
    diagnosis.
  split; [vm_compute; reflexivity|]. repeat split; assumption.
Defined.



(** X21.  A coprocessor task without a recorded time is never attributed
    more than its [proc max]: when that text parses, the result of
    [getCopTaskDuratuon] is either that text itself or the text of a
    duration that does not exceed it. *)
Theorem getCopTaskDuratuon_capped {L : GoLib} (node : json) (c : concurrency)
    (task maxTS : string) (maxDuration : Z) :
  task = (MustString (Get node StoreType) ++ "_task")%string ->
  maxTS = MustString (GetPath node [CopExecInfo; task; "proc max"]) ->
  MustString (GetPath node [CopExecInfo; task; "time"]) = "" ->
  MustString (Get node TaskType) = "cop" ->
  ParseDuration maxTS = Some maxDuration ->
  getCopTaskDuratuon node c = maxTS
  \/ exists tsDuration,
       tsDuration <= maxDuration
       /\ getCopTaskDuratuon node c = DurationString tsDuration.
Proof.
  intros Htask HmaxTS Htime Htype Hmax.
  unfold getCopTaskDuratuon.
  change (MustString (GetPath node [StoreType])) with (MustString (Get node StoreType)).
  change (MustString (GetPath node [TaskType])) with (MustString (Get node TaskType)).
  rewrite <- Htask. cbv zeta. rewrite Htime, Htype, <- HmaxTS.
  change (String.eqb "" "") with true. cbv iota.
  change (String.eqb "cop" "cop") with true. cbv iota.
  rewrite Hmax.
  destruct (ParseDuration (MustString (GetPath node [CopExecInfo; task; "avg"])))
    as [avgDuration|]; [|left; reflexivity].
  match goal with |- context [if maxDuration <? ?t then _ else _] =>
    destruct (maxDuration <? t) eqn:E; [left; reflexivity|];
    right; exists t; split; [apply Z.ltb_ge in E; exact E|reflexivity]
  end.
Qed.

Lemma getCopTaskDuratuon_capped_witness :
  getCopTaskDuratuon (L:=go) copScan newConcurrency = "2s"
  \/ exists tsDuration,
       tsDuration <= 2000000000
       /\ getCopTaskDuratuon (L:=go) copScan newConcurrency
          = DurationString (GoLib:=go) tsDuration.
Proof.
  apply (getCopTaskDuratuon_capped (L:=go) copScan newConcurrency
           "tikv_task" "2s" 2000000000); vm_compute; reflexivity.
Defined.

(* ================================================================== *)
(** * The duration analyzer: what is analysed, written and parsed *)

Section ApplyShape.
Context {L : GoLib}.

Lemma nth_error_middle {A : Type} (pre post : list A) (a : A) :
  nth_error (pre ++ a :: post) (List.length pre) = Some a.
Proof. induction pre as [|x pre IH]; simpl; [reflexivity|exact IH]. Qed.

Lemma nth_error_other {A : Type} (pre post : list A) (a b : A) (i : nat) :
  i <> List.length pre ->
  nth_error (pre ++ a :: post) i = nth_error (pre ++ b :: post) i.
Proof.
  revert i. induction pre as [|x pre IH]; intros i Hi; simpl in *.
  - destruct i; [contradiction Hi; reflexivity|reflexivity].
  - destruct i; [reflexivity|]. simpl. apply IH.
    intros E. apply Hi. rewrite E. reflexivity.
Qed.

Lemma splitAtSide_skip (side : string) (pre post : list json) (b : json) :
  driverSideIs b side = false ->
  splitAtSide side (pre ++ b :: post) =
  match splitAtSide side pre with
  | Some (p1, x, p2) => Some (p1, x, (p2 ++ b :: post)%list)
  | None =>
      match splitAtSide side post with
      | Some (q1, x, q2) => Some ((pre ++ b :: q1)%list, x, q2)
      | None => None
      end
  end.
Proof.
  intros Hb. induction pre as [|a pre IH]; simpl.
  - rewrite Hb. destruct (splitAtSide side post) as [[[q1 x] q2]|]; reflexivity.
  - destruct (driverSideIs a side); [reflexivity|].
    rewrite IH.
    destruct (splitAtSide side pre) as [[[p1 x] p2]|]; [reflexivity|].
    destruct (splitAtSide side post) as [[[q1 x] q2]|]; reflexivity.
Qed.

Lemma build_not_probe (b : json) :
  driverSideIs b "build" = true -> driverSideIs b "probe" = false.
Proof.
  unfold driverSideIs. intros H. apply String.eqb_eq in H. rewrite H. reflexivity.
Qed.

Variable analyzeNode : json -> concurrency -> outcome (Z * json).
Hypothesis analyzeNode_side :
  forall k ck x k', analyzeNode k ck = Ok (x, k') ->
                    Get k' DriverSide = Get k DriverSide.

(** The two loops of the [Apply] branch: which elements are analysed, with
    which state, and where their results are found afterwards. *)
Lemma analyzeApplyChildren_shape (nodes : list json) (c : concurrency)
    (ds : list Z) (kids' : list json) :
  analyzeApplyChildren analyzeNode nodes c = Ok (ds, kids') ->
  exists ds1 ds2 c1,
    ds = (ds1 ++ ds2)%list
    /\ match splitAtSide "build" nodes with
       | None => ds1 = [] /\ c1 = c
       | Some (pre, b, _) =>
           exists x b',
             analyzeNode b (withApply c 1) = Ok (x, b')
             /\ probeConcurrency b' c = Ok c1
             /\ ds1 = [x]
             /\ nth_error kids' (List.length pre) = Some b'
       end
    /\ match splitAtSide "probe" nodes with
       | None => ds2 = []
       | Some (pre, p, _) =>
           exists y p',
             analyzeNode p c1 = Ok (y, p')
             /\ ds2 = [y]
             /\ nth_error kids' (List.length pre) = Some p'
       end
    /\ (forall i,
          sideIndex "build" nodes <> Some i ->
          sideIndex "probe" nodes <> Some i ->
          nth_error kids' i = nth_error nodes i).
Proof.
  unfold analyzeApplyChildren, sideIndex. intros H.
  apply bind_Ok in H. destruct H as ([[ds1 nodes1] c1] & Hb & H).
  destruct (splitAtSide "build" nodes) as [[[pre b] post]|] eqn:Eb.
  - apply bind_Ok in Hb. destruct Hb as ([x b'] & Hrun & Hb).
    apply bind_Ok in Hb. destruct Hb as (c1' & Hpc & Hb).
    injection Hb as <- <- <-.
    destruct (splitAtSide_Some _ _ _ _ _ Eb) as [Hnodes Hside].
    pose proof (build_not_probe _ Hside) as Hbp.
    assert (Hb'p : driverSideIs b' "probe" = false).
    { unfold driverSideIs in *. rewrite (analyzeNode_side _ _ _ _ Hrun). exact Hbp. }
    rewrite (splitAtSide_skip "probe" pre post b' Hb'p) in H.
    rewrite Hnodes. rewrite (splitAtSide_skip "probe" pre post b Hbp).
    destruct (splitAtSide "probe" pre) as [[[p1 p] p2]|] eqn:Ep1.
    + apply bind_Ok in H. destruct H as ([y p'] & Hrunp & H).
      injection H as <- <-.
      destruct (splitAtSide_Some _ _ _ _ _ Ep1) as [Hpre _].
      exists [x], [y], c1'. split; [reflexivity|].
      split.
      { exists x, b'. split; [exact Hrun|]. split; [exact Hpc|].
        split; [reflexivity|].
        rewrite Hpre.
        change (p1 ++ p' :: p2 ++ b' :: post)%list
          with (p1 ++ (p' :: p2) ++ b' :: post)%list.
        rewrite app_assoc.
        replace (List.length (p1 ++ p :: p2)) with (List.length (p1 ++ p' :: p2))
          by (rewrite !length_app; reflexivity).
        apply nth_error_middle. }
      split.
      { exists y, p'. split; [exact Hrunp|]. split; [reflexivity|].
        apply nth_error_middle. }
      intros i Hib Hip.
      assert (Hi1 : i <> List.length pre) by (intros ->; apply Hib; reflexivity).
      assert (Hi2 : i <> List.length p1) by (intros ->; apply Hip; reflexivity).
      rewrite (nth_error_other p1 (p2 ++ b' :: post) p' p i Hi2).
      change (p1 ++ p :: p2 ++ b' :: post)%list
        with (p1 ++ (p :: p2) ++ b' :: post)%list.
      rewrite app_assoc, <- Hpre. apply nth_error_other. exact Hi1.
    + destruct (splitAtSide "probe" post) as [[[q1 p] q2]|] eqn:Eq.
      * apply bind_Ok in H. destruct H as ([y p'] & Hrunp & H).
        injection H as <- <-.
        destruct (splitAtSide_Some _ _ _ _ _ Eq) as [Hpost _].
        exists [x], [y], c1'. split; [reflexivity|].
        split.
        { exists x, b'. split; [exact Hrun|]. split; [exact Hpc|].
          split; [reflexivity|].
          rewrite <- app_assoc. apply nth_error_middle. }
        split.
        { exists y, p'. split; [exact Hrunp|]. split; [reflexivity|].
          replace (List.length (pre ++ b :: q1)) with (List.length (pre ++ b' :: q1))
            by (rewrite !length_app; reflexivity).
          apply nth_error_middle. }
        intros i Hib Hip.
        assert (Hi1 : i <> List.length pre) by (intros ->; apply Hib; reflexivity).
        assert (Hi2 : i <> List.length (pre ++ b' :: q1)).
        { intros ->. apply Hip. rewrite !length_app. reflexivity. }
        rewrite (nth_error_other (pre ++ b' :: q1) q2 p' p i Hi2).
        rewrite <- app_assoc. simpl. rewrite <- Hpost.
        apply nth_error_other. exact Hi1.
      * injection H as <- <-.
        exists [x], [], c1'. split; [reflexivity|].
        split.
        { exists x, b'. split; [exact Hrun|]. split; [exact Hpc|].
          split; [reflexivity|]. apply nth_error_middle. }
        split; [reflexivity|].
        intros i Hib _.
        apply nth_error_other. intros ->; apply Hib; reflexivity.
  - injection Hb as <- <- <-.
    destruct (splitAtSide "probe" nodes) as [[[pre p] post]|] eqn:Ep.
    + apply bind_Ok in H. destruct H as ([y p'] & Hrunp & H).
      injection H as <- <-.
      destruct (splitAtSide_Some _ _ _ _ _ Ep) as [Hnodes _].
      exists [], [y], c. split; [reflexivity|].
      split; [split; reflexivity|].
      split.
      { exists y, p'. split; [exact Hrunp|]. split; [reflexivity|].
        apply nth_error_middle. }
      intros i _ Hip. rewrite Hnodes.
      apply nth_error_other. intros ->; apply Hip; reflexivity.
    + injection H as <- <-.
      exists [], [], c. split; [reflexivity|].
      split; [split; reflexivity|]. split; [reflexivity|].
      intros i _ _. reflexivity.
Qed.

End ApplyShape.

Section DurationTree.
Context {L : GoLib}.

Lemma analyzeDurationNode_side (fuel : nat) (k : json) (ck : concurrency)
    (x : Z) (k' : json) :
  analyzeDurationNode fuel k ck = Ok (x, k') ->
  Get k' DriverSide = Get k DriverSide.
Proof.
  intros H. eapply analyzeDurationNode_other_fields; [exact H| |]; discriminate.
Qed.

Lemma operator_Apply_dec (o : operator) : o = Apply \/ o <> Apply.
Proof. destruct o; (left; reflexivity) || (right; discriminate). Qed.

Lemma collectDurations_other
    (analyzeNode : json -> concurrency -> outcome (Z * json))
    (operator : operator) (nodes : list json) (c : concurrency) :
  operator <> Apply ->
  collectDurations analyzeNode operator nodes c
  = analyzeOtherChildren analyzeNode operator nodes c.
Proof.
  intros H. destruct operator; try reflexivity. contradiction H. reflexivity.
Qed.

Lemma analyzeOtherChildren_In
    (analyzeNode : json -> concurrency -> outcome (Z * json))
    (operator : operator) (nodes : list json) (c : concurrency)
    (ds : list Z) (kids' : list json) :
  analyzeOtherChildren analyzeNode operator nodes c = Ok (ds, kids') ->
  forall k', In k' kids' ->
    exists k x,
      In k nodes /\ analyzeNode k (childConcurrency operator k c) = Ok (x, k').
Proof.
  revert ds kids'. induction nodes as [|n nodes IH]; intros ds kids' H k' Hin.
  - simpl in H. injection H as <- <-. contradiction.
  - simpl in H.
    apply bind_Ok in H. destruct H as ([d n'] & Hrun & H).
    apply bind_Ok in H. destruct H as ([ds0 rest'] & Hrest & H).
    injection H as <- <-.
    destruct Hin as [<-|Hin].
    + exists n, d. split; [left; reflexivity|exact Hrun].
    + destruct (IH _ _ Hrest _ Hin) as (k & x & Hk & Hx).
      exists k, x. split; [right; exact Hk|exact Hx].
Qed.

Lemma sideIndex_cases (nodes : list json) (i : nat) :
  sideIndex "build" nodes = Some i
  \/ sideIndex "probe" nodes = Some i
  \/ (sideIndex "build" nodes <> Some i /\ sideIndex "probe" nodes <> Some i).
Proof.
  destruct (sideIndex "build" nodes) as [ib|];
    [destruct (Nat.eq_dec ib i) as [->|Hb]; [left; reflexivity|]|];
    (destruct (sideIndex "probe" nodes) as [ip|];
     [destruct (Nat.eq_dec ip i) as [->|Hp]; [right; left; reflexivity|]|]);
    right; right; split; congruence.
Qed.

(** The children found in a node after its analysis: each is the result
    of the analysis of a child, or an unanalysed child of an [Apply] as it
    was. *)
Lemma analyzeDurationNode_children (fuel : nat) (node : json) (c : concurrency)
    (d : Z) (node' k' : json) :
  analyzeDurationNode fuel node c = Ok (d, node') ->
  In k' (MustArray (Get node' Children)) ->
  (exists fuel' k ck x,
      fuel = S fuel'
      /\ In k (MustArray (Get node Children))
      /\ analyzeDurationNode fuel' k ck = Ok (x, k'))
  \/ unanalysedChild node k'.
Proof.
  intros H Hin.
  destruct (analyzeDurationNode_inv _ _ _ _ _ H)
    as (fuel' & c' & sub & children' & -> & Hc & Hsub & Hd & ->).
  rewrite Get_SetKey_other in Hin by discriminate.
  unfold analyzeDurationNodes in Hsub.
  rewrite (analyzeDurationNodes_stored _ _ _ _ _ _ Hsub) in Hin.
  destruct (analyzeDurationNodesWith_inv _ _ _ _ _ _ Hsub)
    as [(Hnil & _ & ->)|(ds & kids' & Hne & Hcol & -> & _ & _)].
  - rewrite Hnil in Hin. contradiction.
  - simpl in Hin.
    destruct (operator_Apply_dec (getOperatorType node)) as [Hop|Hop].
    + rewrite Hop in Hcol. simpl in Hcol.
      destruct (analyzeApplyChildren_shape _
                  (analyzeDurationNode_side fuel') _ _ _ _ Hcol)
        as (ds1 & ds2 & c1 & _ & Hb & Hp & Hrest).
      destruct (In_nth_error _ _ Hin) as [i Hi].
      destruct (sideIndex_cases (MustArray (Get node Children)) i)
        as [Hib|[Hip|[Hib Hip]]].
      * unfold sideIndex in Hib.
        destruct (splitAtSide "build" (MustArray (Get node Children)))
          as [[[pre b] post]|] eqn:Eb; [|discriminate].
        injection Hib as <-.
        destruct Hb as (x & b' & Hrun & _ & _ & Hnth).
        rewrite Hnth in Hi. injection Hi as <-.
        left. exists fuel', b, (withApply c' 1), x.
        split; [reflexivity|]. split; [|exact Hrun].
        apply splitAtSide_Some in Eb. destruct Eb as [-> _]. apply in_elt.
      * unfold sideIndex in Hip.
        destruct (splitAtSide "probe" (MustArray (Get node Children)))
          as [[[pre p] post]|] eqn:Ep; [|discriminate].
        injection Hip as <-.
        destruct Hp as (y & p' & Hrun & _ & Hnth).
        rewrite Hnth in Hi. injection Hi as <-.
        left. exists fuel', p, c1, y.
        split; [reflexivity|]. split; [|exact Hrun].
        apply splitAtSide_Some in Ep. destruct Ep as [-> _]. apply in_elt.
      * right. split; [exact Hop|]. exists i.
        split; [rewrite <- (Hrest i Hib Hip); exact Hi|]. split; assumption.
    + rewrite (collectDurations_other _ _ _ _ Hop) in Hcol.
      destruct (analyzeOtherChildren_In _ _ _ _ _ _ Hcol _ Hin) as (k & x & Hk & Hx).
      left. exists fuel', k, (childConcurrency (getOperatorType node) k c'), x.
      split; [reflexivity|]. split; assumption.
Qed.

Lemma analysedOrUntouched_child (node k n' : json) :
  In k (MustArray (Get node Children)) ->
  analysedOrUntouched k n' -> analysedOrUntouched node n'.
Proof.
  intros Hin [(fuel & n & c & d & Hsub & Hrun & Hw)|(a & k0 & Hsub & Hun & Hk)].
  - left. exists fuel, n, c, d.
    split; [eapply subnode_child; eassumption|]. split; assumption.
  - right. exists a, k0.
    split; [eapply subnode_child; eassumption|]. split; assumption.
Qed.

(** Every node of the tree an analysis returns is the result of its own
    analysis, or was never reached. *)
Lemma analyzeDurationNode_deep (fuel : nat) :
  forall node c d node',
    analyzeDurationNode fuel node c = Ok (d, node') ->
    forall n', subnode node' n' -> analysedOrUntouched node n'.
Proof.
  induction fuel as [|fuel IH]; intros node c d node' H n' Hsub; [discriminate|].
  inversion Hsub as [|? k' ? Hk' Hsub']; subst.
  - left. exists (S fuel), node, c, d.
    split; [apply subnode_self|]. split; [exact H|].
    intros m Hm. eapply analyzeDurationNode_written; eassumption.
  - destruct (analyzeDurationNode_children _ _ _ _ _ _ H Hk')
      as [(fuel' & k & ck & x & Hf & Hin & Hrun)|Hun].
    + injection Hf as <-.
      eapply analysedOrUntouched_child; [exact Hin|].
      eapply IH; eassumption.
    + right. exists node, k'.
      split; [apply subnode_self|]. split; assumption.
Qed.

(** The children of an [Apply] other than its first build-side and first
    probe-side child are found after the analysis as they were. *)
Lemma analyzeDurationNode_apply_untouched (fuel : nat) (a : json)
    (c : concurrency) (d : Z) (a' : json) (i : nat) :
  analyzeDurationNode fuel a c = Ok (d, a') ->
  getOperatorType a = Apply ->
  sideIndex "build" (MustArray (Get a Children)) <> Some i ->
  sideIndex "probe" (MustArray (Get a Children)) <> Some i ->
  nth_error (MustArray (Get a' Children)) i
  = nth_error (MustArray (Get a Children)) i.
Proof.
  intros H Hop Hib Hip.
  destruct (analyzeDurationNode_inv _ _ _ _ _ H)
    as (fuel' & c' & sub & children' & -> & Hc & Hsub & Hd & ->).
  rewrite Get_SetKey_other by discriminate.
  unfold analyzeDurationNodes in Hsub.
  rewrite (analyzeDurationNodes_stored _ _ _ _ _ _ Hsub).
  destruct (analyzeDurationNodesWith_inv _ _ _ _ _ _ Hsub)
    as [(Hnil & _ & ->)|(ds & kids' & Hne & Hcol & -> & _ & _)]; [reflexivity|].
  rewrite Hop in Hcol. simpl in Hcol.
  destruct (analyzeApplyChildren_shape _
              (analyzeDurationNode_side fuel') _ _ _ _ Hcol)
    as (ds1 & ds2 & c1 & _ & _ & _ & Hrest).
  simpl. apply Hrest; assumption.
Qed.

Lemma analyzeDuration_inv (vp vp' : json) :
  analyzeDuration vp = Ok vp' ->
  exists d main' sub ctes',
    analyzeDurationNode (S (depth vp)) (Get vp MainTree) newConcurrency
    = Ok (d, main')
    /\ analyzeDurationNodes (S (depth vp)) (Get vp CteTrees) Default newConcurrency
       = Ok (sub, ctes')
    /\ Get vp' MainTree
       = match vp with
         | JObject m =>
             match lookup m MainTree with
             | Some _ =>
                 SetKey main' Duration
                   (JString (MustString
                               (GetPath (Get vp MainTree) [RootBasicExecInfo; Time])))
             | None => JNull
             end
         | _ => JNull
         end
    /\ Get vp' CteTrees = ctes'.
Proof.
  unfold analyzeDuration. intros H.
  apply bind_Ok in H. destruct H as ([d main'] & Hmain & H).
  apply bind_Ok in H. destruct H as ([sub ctes'] & Hctes & H).
  injection H as <-.
  rewrite Get_Put_other in Hctes by exact MainTree_neq_CteTrees.
  exists d, main', sub, ctes'.
  split; [exact Hmain|]. split; [exact Hctes|]. split.
  - rewrite Get_Put_other
      by (intros E; symmetry in E; exact (MainTree_neq_CteTrees E)).
    apply Get_Put_same.
  - match goal with
    | |- Get (Put ?v CteTrees ctes') CteTrees = ctes' => set (vp1 := v)
    end.
    assert (Hv : Get vp1 CteTrees = Get vp CteTrees)
      by (apply Get_Put_other; exact MainTree_neq_CteTrees).
    unfold analyzeDurationNodes in Hctes.
    destruct (analyzeDurationNodesWith_inv _ _ _ _ _ _ Hctes)
      as [(Hnil & _ & ->)|(ds & kids' & Hne & _ & -> & _)].
    + rewrite <- Hv. apply Get_Put_Get.
    + rewrite <- Hv in Hne.
      destruct (MustArray_Get_lookup _ _ Hne) as (fields & v & Hobj & Hl).
      rewrite Get_Put_same, Hobj, Hl. reflexivity.
Qed.

Lemma analyzeDuration_cte (vp vp' cte' : json) :
  analyzeDuration vp = Ok vp' ->
  In cte' (MustArray (Get vp' CteTrees)) ->
  exists cte d,
    In cte (MustArray (Get vp CteTrees))
    /\ analyzeDurationNode (S (depth vp)) cte newConcurrency = Ok (d, cte').
Proof.
  intros H Hin.
  destruct (analyzeDuration_inv _ _ H) as (d & main' & sub & ctes' & _ & Hctes & _ & Hget).
  rewrite Hget in Hin.
  unfold analyzeDurationNodes in Hctes.
  destruct (analyzeDurationNodesWith_inv _ _ _ _ _ _ Hctes)
    as [(Hnil & _ & ->)|(ds & kids' & Hne & Hcol & -> & _ & _)].
  - rewrite Hnil in Hin. contradiction.
  - simpl in Hin, Hcol.
    destruct (analyzeOtherChildren_In _ _ _ _ _ _ Hcol _ Hin) as (k & x & Hk & Hx).
    exists k, x. split; [exact Hk|exact Hx].
Qed.

End DurationTree.

(** C1, amended.  For every node that [analyzeDurationNode] analyses, the
    duration it returns and writes into the node is the maximum of the
    node's own attributed duration and of the largest duration collected
    from its children (0 when it has none), so it is at least the duration
    returned for each analysed child; every collected duration is the one
    returned by the analysis of a child, which is found in the array
    afterwards.  Under every operator but [Apply] each child is analysed.
    Under [Apply] the first build-side child and the first probe-side child
    are analysed, their durations are the ones collected and are bounded by
    the result, and every other child is found afterwards as it was.  This
    is the value at the return of [analyzeDurationNode]: for the root of
    the main tree [analyzeDuration] afterwards overwrites the field with
    the raw time text, so the final field of that root need not be the
    maximum. *)
Theorem analyzeDurationNode_is_max {L : GoLib} (fuel : nat) (node : json)
    (c : concurrency) (d : Z) (node' : json) :
  analyzeDurationNode fuel node c = Ok (d, node') ->
  exists fuel' c' sub children',
    fuel = S fuel'
    /\ getConcurrency node (getOperatorType node) c = Ok c'
    /\ analyzeDurationNodes fuel' (Get node Children) (getOperatorType node) c'
       = Ok (sub, children')
    /\ d = Z.max (ownDuration node c) sub
    /\ node' = SetKey (Put node Children children') Duration
                 (JString (DurationString d))
    /\ ((MustArray (Get node Children) = [] /\ sub = 0)
        \/ exists ds kids',
             collectDurations (analyzeDurationNode fuel') (getOperatorType node)
               (MustArray (Get node Children)) c' = Ok (ds, kids')
             /\ children' = JArray kids'
             /\ In sub ds
             /\ Forall (fun x => x <= d) ds
             /\ Forall (fromChild (analyzeDurationNode fuel')
                          (MustArray (Get node Children)) kids') ds
             /\ (getOperatorType node <> Apply ->
                 forall i k,
                   nth_error (MustArray (Get node Children)) i = Some k ->
                   exists x k',
                     nth_error ds i = Some x /\ nth_error kids' i = Some k'
                     /\ analyzeDurationNode fuel' k
                          (childConcurrency (getOperatorType node) k c') = Ok (x, k')
                     /\ x <= d)
             /\ (getOperatorType node = Apply ->
                 exists ds1 ds2 c1,
                   ds = (ds1 ++ ds2)%list
                   /\ match splitAtSide "build" (MustArray (Get node Children)) with
                      | None => ds1 = [] /\ c1 = c'
                      | Some (pre, b, _) =>
                          exists x b',
                            analyzeDurationNode fuel' b (withApply c' 1) = Ok (x, b')
                            /\ probeConcurrency b' c' = Ok c1
                            /\ ds1 = [x]
                            /\ nth_error kids' (List.length pre) = Some b'
                            /\ x <= d
                      end
                   /\ match splitAtSide "probe" (MustArray (Get node Children)) with
                      | None => ds2 = []
                      | Some (pre, p, _) =>
                          exists y p',
                            analyzeDurationNode fuel' p c1 = Ok (y, p')
                            /\ ds2 = [y]
                            /\ nth_error kids' (List.length pre) = Some p'
                            /\ y <= d
                      end
                   /\ forall i,
                        sideIndex "build" (MustArray (Get node Children)) <> Some i ->
                        sideIndex "probe" (MustArray (Get node Children)) <> Some i ->
                        nth_error kids' i
                        = nth_error (MustArray (Get node Children)) i)).
Proof.
  intros H.
  destruct (analyzeDurationNode_inv _ _ _ _ _ H)
    as (fuel' & c' & sub & children' & -> & Hc & Hsub & Hd & Hnode).
  exists fuel', c', sub, children'.
  repeat (split; [assumption || reflexivity|]).
  unfold analyzeDurationNodes in Hsub.
  destruct (analyzeDurationNodesWith_inv _ _ _ _ _ _ Hsub)
    as [(Hnil & H0 & _)|(ds & kids' & Hne & Hcol & Hch & Hin & Hall)].
  - left. split; assumption.
  - right. exists ds, kids'.
    repeat (split; [assumption|]).
    assert (Hle : Forall (fun x => x <= d) ds).
    { eapply Forall_impl; [|exact Hall]. simpl. intros x Hx. lia. }
    pose proof (proj1 (Forall_forall _ _) Hle) as Hbound.
    split; [exact Hle|]. split; [|split].
    + eapply collectDurations_origin; [|exact Hcol].
      intros k ck x k'. apply analyzeDurationNode_side.
    + intros Hop i k Hi.
      rewrite (collectDurations_other _ _ _ _ Hop) in Hcol.
      destruct (analyzeOtherChildren_nth _ _ _ _ _ _ Hcol i k Hi)
        as (x & k' & Hx & Hk' & Hrun).
      exists x, k'. repeat split; try assumption.
      apply Hbound. eapply nth_error_In. exact Hx.
    + intros Hop. rewrite Hop in Hcol. simpl in Hcol.
      destruct (analyzeApplyChildren_shape _
                  (analyzeDurationNode_side fuel') _ _ _ _ Hcol)
        as (ds1 & ds2 & c1 & Hds & Hb & Hp & Hrest).
      exists ds1, ds2, c1. split; [exact Hds|]. split; [|split; [|exact Hrest]].
      * destruct (splitAtSide "build" (MustArray (Get node Children)))
          as [[[pre b] post]|]; [|exact Hb].
        destruct Hb as (x & b' & Hrun & Hpc & Hds1 & Hnth).
        exists x, b'. repeat (split; [assumption|]).
        apply Hbound. rewrite Hds, Hds1. left. reflexivity.
      * destruct (splitAtSide "probe" (MustArray (Get node Children)))
          as [[[pre p] post]|]; [|exact Hp].
        destruct Hp as (y & p' & Hrun & Hds2 & Hnth).
        exists y, p'. repeat (split; [assumption|]).
        apply Hbound. rewrite Hds, Hds2. apply in_or_app. right. left. reflexivity.
Qed.

Lemma analyzeDurationNode_is_max_witness :
  exists node',
    analyzeDurationNode (L:=go) 2 (Get planSlowChild MainTree) newConcurrency
      = Ok (2000000000, node')
    /\ exists sub,
         2000000000
         = Z.max (ownDuration (L:=go) (Get planSlowChild MainTree) newConcurrency) sub.
Proof.
  eexists. split; [vm_compute; reflexivity|].
  destruct (analyzeDurationNode_is_max (L:=go) 2 (Get planSlowChild MainTree)
              newConcurrency 2000000000 _ eq_refl)
    as (fuel' & c' & sub & children' & _ & _ & _ & Hd & _).
  exists sub. exact Hd.
Defined.

(** C9, amended.  Every analysed node has its duration field written by
    [analyzeDurationNode] with its reconciled duration formatted as a
    duration text.  The root of the main tree is written a second time, by
    [analyzeDuration], with the raw time text of its basic summary, and
    that text (empty when the root has none) is its final duration.  Every
    other node of the final document, below the main root or in a CTE
    tree, is the very result of its own analysis and so carries its
    reconciled duration, or was never reached: it lies at or below a child
    of an [Apply] that is neither the first build-side nor the first
    probe-side child, and such a child is found in the final tree as it
    was, no duration being written to it. *)
Theorem analyzeDuration_duration_fields {L : GoLib} (vp vp' : json) :
  analyzeDuration vp = Ok vp' ->
  (exists d main',
      analyzeDurationNode (S (depth vp)) (Get vp MainTree) newConcurrency
        = Ok (d, main')
      /\ forall m, Get vp MainTree = JObject m ->
           Get main' Duration = JString (DurationString d)
           /\ Get vp' MainTree
              = SetKey main' Duration
                  (JString (MustString
                              (GetPath (Get vp MainTree) [RootBasicExecInfo; Time])))
           /\ Get (Get vp' MainTree) Duration
              = JString (MustString
                           (GetPath (Get vp MainTree) [RootBasicExecInfo; Time])))
  /\ (forall cte', In cte' (MustArray (Get vp' CteTrees)) ->
        exists cte d,
          In cte (MustArray (Get vp CteTrees))
          /\ analyzeDurationNode (S (depth vp)) cte newConcurrency = Ok (d, cte')
          /\ forall m, cte = JObject m ->
               Get cte' Duration = JString (DurationString d))
  /\ (forall fuel node c d node' m,
        analyzeDurationNode fuel node c = Ok (d, node') ->
        node = JObject m ->
        Get node' Duration = JString (DurationString d))
  /\ (forall k' n',
        In k' (MustArray (Get (Get vp' MainTree) Children)) ->
        subnode k' n' ->
        analysedOrUntouched (Get vp MainTree) n')
  /\ (forall cte' n',
        In cte' (MustArray (Get vp' CteTrees)) ->
        subnode cte' n' ->
        exists cte,
          In cte (MustArray (Get vp CteTrees)) /\ analysedOrUntouched cte n')
  /\ (forall fuel a c d a' i,
        analyzeDurationNode fuel a c = Ok (d, a') ->
        getOperatorType a = Apply ->
        sideIndex "build" (MustArray (Get a Children)) <> Some i ->
        sideIndex "probe" (MustArray (Get a Children)) <> Some i ->
        nth_error (MustArray (Get a' Children)) i
        = nth_error (MustArray (Get a Children)) i).
Proof.
  intros H.
  destruct (analyzeDuration_inv _ _ H)
    as (d & main' & sub & ctes' & Hmain & Hctes & Hgm & Hgc).
  split; [|split; [|split; [|split; [|split]]]].
  - exists d, main'. split; [exact Hmain|].
    intros m Hm.
    pose proof (analyzeDurationNode_written _ _ _ _ _ _ Hmain Hm) as Hw.
    split; [exact Hw|].
    assert (Hroot :
      Get vp' MainTree
      = SetKey main' Duration
          (JString (MustString
                      (GetPath (Get vp MainTree) [RootBasicExecInfo; Time])))).
    { rewrite Hgm.
      destruct (Get_object_lookup _ _ _ Hm) as (fields & -> & Hl).
      rewrite Hl. reflexivity. }
    split; [exact Hroot|].
    rewrite Hroot.
    apply analyzeDurationNode_inv in Hmain.
    destruct Hmain as (f' & c' & s' & ch' & _ & _ & _ & _ & ->).
    rewrite Hm. destruct (Put_object m Children ch') as [m' ->].
    simpl SetKey. apply Get_SetKey_same.
  - intros cte' Hin.
    destruct (analyzeDuration_cte _ _ _ H Hin) as (cte & d0 & Hc & Hrun).
    exists cte, d0. split; [exact Hc|]. split; [exact Hrun|].
    intros m Hm. eapply analyzeDurationNode_written; eassumption.
  - intros fuel node c0 d0 node' m Hrun Hnode.
    eapply analyzeDurationNode_written; eassumption.
  - intros k' n' Hk' Hsub.
    rewrite Hgm in Hk'.
    destruct vp as [| | | | |m|]; try contradiction.
    destruct (lookup m MainTree) as [v|] eqn:El; [|contradiction].
    rewrite Get_SetKey_other in Hk' by discriminate.
    eapply analyzeDurationNode_deep; [exact Hmain|].
    eapply subnode_child; eassumption.
  - intros cte' n' Hin Hsub.
    destruct (analyzeDuration_cte _ _ _ H Hin) as (cte & d0 & Hc & Hrun).
    exists cte. split; [exact Hc|].
    eapply analyzeDurationNode_deep; eassumption.
  - intros fuel a c0 d0 a' i. apply analyzeDurationNode_apply_untouched.
Qed.

Lemma analyzeDuration_duration_fields_witness :
  exists vp',
    analyzeDuration (L:=go) planSlowChild = Ok vp'
    /\ Get (Get vp' MainTree) Duration = JString "1s".
Proof.
  eexists. split; [vm_compute; reflexivity|].
  destruct (analyzeDuration_duration_fields (L:=go) planSlowChild _ eq_refl)
    as [(d & main' & _ & Hroot) _].
  destruct (Hroot _ eq_refl) as (_ & _ & Hfinal).
  exact Hfinal.
Defined.

(** ** Which texts are parsed strictly, and what the others default to *)

Section Defaults.
Context {L : GoLib}.













End Defaults.



